(** * Session tracker: the session store, the mapping layer and the entry workflow

    A shallow embedding of [supabase.ts] (the remote store), of the two
    variants of the [App] component (remote and local persistence), of
    the two variants of the [Auth] component and of the parts of the
    JavaScript runtime and of the Supabase client they rely on, followed
    by the properties of the session-with-tasks synchronisation contract
    and of the workflow around it.

    Conventions.  An async function is a computation over a world that
    holds everything it can observe or change; [await] runs the awaited
    call to completion.  The Supabase client is an interface ([Client])
    whose calls may answer anything; [PgStore] is a reference backend
    behind that interface, with two tables, the ordering Postgres applies
    and faults that can be planted on the coming calls.  JSON text is
    written and read by a model of [JSON.stringify] and [JSON.parse] for
    the values the persisted schema is made of. *)

From Stdlib Require Import String Ascii List ZArith Bool Lia PeanoNat.
From Stdlib Require Import Sorted Permutation RelationClasses OrderedTypeEx.
From Stdlib Require Import DecimalString DecimalN DecimalPos.
Import ListNotations.
Open Scope string_scope.

Set Warnings "-register-all".

(* ================================================================= *)
(** ** JavaScript values the sources manipulate *)

Module Js.

(** A JS [number], restricted to what the data model stores: integers and
    the not-a-number value that [handleInputChange] produces for an empty
    numeric input. *)
Inductive number := NaN | Num (z : Z).

Definition isNaN (n : number) : bool :=
  match n with NaN => true | Num _ => false end.

(** A value raised by [throw]: an [Error] object with its [message], or
    something that is not an instance of [Error]. *)
Inductive thrown := Error (message : string) | NonError.

(** Outcome of evaluating a statement sequence: normal or abrupt. *)
Inductive completion (A : Type) := Normal (a : A) | Throw (v : thrown).
Arguments Normal {A} a.
Arguments Throw {A} v.

(** Truthiness of a string: only [''] is falsy. *)
Definition truthy (s : string) : bool :=
  match s with EmptyString => false | _ => true end.

(** [s || d] on a string operand. *)
Definition or_else {A} (inj : string -> A) (s : string) (d : A) : A :=
  if truthy s then inj s else d.

(** [error instanceof Error ? error.message : d] *)
Definition message_of (v : thrown) (d : string) : string :=
  match v with Error m => m | NonError => d end.

(** [(e as Error).message || d]: a missing or empty message gives [d]. *)
Definition message_or (v : thrown) (d : string) : string :=
  match v with
  | Error m => if truthy m then m else d
  | NonError => d
  end.

End Js.

(** [a] comes before [b] in [l]. *)
Definition before {A} (a b : A) (l : list A) : Prop :=
  exists l1 l2 l3, l = (l1 ++ a :: l2 ++ b :: l3)%list.

(* ================================================================= *)
(** ** Sequencing, [throw] and [try]/[catch] over a world *)

Module Eff.

Section Monad.
Context {W : Type}.

(** A computation maps the world to a completion and the world it leaves
    behind; what was done before a [throw] stays done. *)
Definition M (A : Type) : Type := W -> Js.completion A * W.

Definition ret {A} (a : A) : M A := fun w => (Js.Normal a, w).

Definition throw {A} (v : Js.thrown) : M A := fun w => (Js.Throw v, w).

Definition bind {A B} (m : M A) (k : A -> M B) : M B :=
  fun w =>
    match m w with
    | (Js.Normal a, w') => k a w'
    | (Js.Throw v, w') => (Js.Throw v, w')
    end.

(** [try { body } catch (e) { handler }] *)
Definition try_catch {A} (body : M A) (handler : Js.thrown -> M A) : M A :=
  fun w =>
    match body w with
    | (Js.Normal a, w') => (Js.Normal a, w')
    | (Js.Throw v, w') => handler v w'
    end.

End Monad.

Arguments M W A : clear implicits.

Module Notations.
Notation "x <- m ;; k" := (bind m (fun x => k))
  (at level 61, m at next level, right associativity).
Notation "m ;;; k" := (bind m (fun _ => k))
  (at level 61, right associativity).
End Notations.

End Eff.

(* ================================================================= *)
(** ** types.ts *)

Record SessionRow := {
  id : string;
  session_date : string;
  session_type : string;        (* 'Green' | 'Yellow' | 'Red' at run time *)
  planned_minutes : Js.number;
  actual_minutes : Js.number;
  energy_after : string;        (* 'Better' | 'Same' | 'Worse' at run time *)
  notes : option string;        (* string | null *)
  created_at : string;
  user_id : string
}.

Record TaskRow := {
  task_id : string;
  session_id : string;
  task_name : string;
  sort_order : option Z;        (* number | null *)
  task_planned_minutes : option Z;
  completed : bool;
  task_created_at : string;
  task_user_id : string
}.

(** [interface SessionWithTasks extends SessionRow { tasks: TaskRow[] }] *)
Record SessionWithTasks := {
  row : SessionRow;
  tasks : list TaskRow
}.

(** [Omit<SessionRow, 'id' | 'created_at'>] *)
Record SessionData := {
  d_session_date : string;
  d_session_type : string;
  d_planned_minutes : Js.number;
  d_actual_minutes : option Js.number;   (* the entry's value, passed on *)
  d_energy_after : string;
  d_notes : option string;
  d_user_id : string
}.

(** [Omit<TaskRow, 'id' | 'session_id' | 'created_at'>] *)
Record TaskData := {
  t_task_name : string;
  t_sort_order : option Z;
  t_planned_minutes : option Z;
  t_completed : bool;
  t_user_id : string
}.

(** [{ ...task, session_id }]: an element of [tasksToInsert]. *)
Record TaskToInsert := {
  ti_task : TaskData;
  ti_session_id : string
}.

(** [interface SessionEntry] of both [App] variants; [e_id] and [notes_]
    are its [id] and [notes] (the row has fields of these names).
    [sessionType] and [energyAfter] are the run-time strings that
    [handleSave] tests for truthiness; [actualMinutes] is [None] for
    [null]/[undefined], which the declared type excludes and [handleSave]
    still checks. *)
Record SessionEntry := {
  e_id : string;
  date : string;
  sessionType : string;
  plannedMinutes : Js.number;
  actualMinutes : option Js.number;
  tasksCompleted : option Js.number;   (* number | null *)
  energyAfter : string;
  notes_ : string
}.

(* ================================================================= *)
(** ** What the two variants of the App component share *)

Module Form.

Definition defaultPlannedFor (t : string) : Z :=
  if (t =? "Green")%string then 90
  else if (t =? "Yellow")%string then 45
  else 15.

(** [{ ...initialForm, date }] *)
Definition initialForm (date : string) : SessionEntry :=
  {| e_id := "";
     date := date;
     sessionType := "Green";
     plannedMinutes := Js.Num (defaultPlannedFor "Green");
     actualMinutes := Some (Js.Num 0);
     tasksCompleted := None;
     energyAfter := "Same";
     notes_ := "" |}.

(** [x === null || x === undefined || isNaN(x)] *)
Definition not_a_number (x : option Js.number) : bool :=
  match x with
  | None => true
  | Some n => Js.isNaN n
  end.

(** [{ ...form, id }] *)
Definition with_id (id : string) (e : SessionEntry) : SessionEntry :=
  {| e_id := id; date := date e; sessionType := sessionType e;
     plannedMinutes := plannedMinutes e; actualMinutes := actualMinutes e;
     tasksCompleted := tasksCompleted e; energyAfter := energyAfter e;
     notes_ := notes_ e |}.

(** [setField('tasksCompleted', n)] *)
Definition with_tasksCompleted (n : option Js.number) (e : SessionEntry)
    : SessionEntry :=
  {| e_id := e_id e; date := date e; sessionType := sessionType e;
     plannedMinutes := plannedMinutes e; actualMinutes := actualMinutes e;
     tasksCompleted := n; energyAfter := energyAfter e;
     notes_ := notes_ e |}.

(** [handleSessionTypeChange]: the type, then the planned minutes that go
    with it. *)
Definition handleSessionTypeChange (value : string) (e : SessionEntry)
    : SessionEntry :=
  {| e_id := e_id e; date := date e; sessionType := value;
     plannedMinutes := Js.Num (defaultPlannedFor value);
     actualMinutes := actualMinutes e; tasksCompleted := tasksCompleted e;
     energyAfter := energyAfter e; notes_ := notes_ e |}.

End Form.

(* ================================================================= *)
(** ** The Supabase client, as seen from the sources *)

Module Supabase.

(** Only [message] is read from a store error. *)
Record PostgrestError := { message : string }.

(** The [{ data, error }] pair every query resolves to. *)
Record Response (D : Type) := {
  data : option D;
  error : option PostgrestError
}.
Arguments data {D} r.
Arguments error {D} r.

(** [supabase.auth.getSession()] yields [{ data: { session } }]; of the
    session only [session.user.id] is read. *)
Record AuthSession := { user : string }.

Inductive SessionColumn := c_session_date | c_created_at.
Inductive TaskColumn := c_sort_order.

(** [.order(col, { ascending })] *)
Record Order (C : Type) := { column : C; ascending : bool }.
Arguments column {C} o.
Arguments ascending {C} o.

(** The requests the sources build, one constructor per query shape. *)
Inductive Request :=
| AuthGetSession
| SelectSessions (order : list (Order SessionColumn))
| SelectTasks (eq_session_id : string) (order : list (Order TaskColumn))
| InsertSession (sessionData : SessionData)
| InsertTasks (tasksToInsert : list TaskToInsert)
| UpdateTask (eq_id : string) (set_completed : bool)
| DeleteSession (eq_id : string).

(** Everything but the identity lookup talks to a table. *)
Definition is_store_call (r : Request) : bool :=
  match r with AuthGetSession => false | _ => true end.

(** How a request settled, as recorded in the call log. *)
Inductive Outcome :=
| Succeeded
| Rejected (cause : string)      (* resolved with [error] set *)
| Raised (v : Js.thrown).        (* the promise rejected *)

Definition Event : Type := Request * Outcome.

(** A client over a backend state [S]: each awaited call either resolves
    to a response or rejects, and moves the backend to a new state. *)
Class Client (S : Type) := {
  auth_getSession : S -> Js.completion (option AuthSession) * S;
  select_sessions :
    list (Order SessionColumn) -> S ->
    Js.completion (Response (list SessionRow)) * S;
  select_tasks :
    string -> list (Order TaskColumn) -> S ->
    Js.completion (Response (list TaskRow)) * S;
  insert_session :
    SessionData -> S -> Js.completion (Response SessionRow) * S;
  insert_tasks :
    list TaskToInsert -> S -> Js.completion (Response (list TaskRow)) * S;
  update_task : string -> bool -> S -> Js.completion (Response TaskRow) * S;
  delete_session : string -> S -> Js.completion (Response unit) * S
}.

End Supabase.


(* ================================================================= *)
(** ** Remote variant: supabase.ts and the App component built on it *)

Module Remote.
Import Supabase Eff Eff.Notations Form.

Section WithClient.
Context {S : Type} {client : Client S}.

(** What a run can observe and change: the backend behind the client, the
    log of awaited calls with their outcomes, the lines written with
    [console.error], and the day [today()] reports. *)
Record World := {
  backend : S;
  calls : list Event;
  console : list string;
  today : string
}.

(** Async functions are run to completion, one awaited call after the
    other. *)
Definition M (A : Type) : Type := Eff.M World A.

Definition outcome_of {D} (c : Js.completion (Response D)) : Outcome :=
  match c with
  | Js.Throw v => Raised v
  | Js.Normal r =>
      match error r with
      | Some e => Rejected (message e)
      | None => Succeeded
      end
  end.

(** [await] of a query: the backend answers and the call is logged. *)
Definition await {D} (req : Request)
    (call : S -> Js.completion (Response D) * S) : M (Response D) :=
  fun w =>
    let (c, s') := call (backend w) in
    (c, {| backend := s';
           calls := calls w ++ [(req, outcome_of c)];
           console := console w;
           today := today w |}).

(** [await supabase.auth.getSession()] *)
Definition getSession : M (option AuthSession) :=
  fun w =>
    let (c, s') := auth_getSession (backend w) in
    (c, {| backend := s';
           calls := calls w ++
             [(AuthGetSession,
               match c with Js.Throw v => Raised v | Js.Normal _ => Succeeded end)];
           console := console w;
           today := today w |}).

Definition console_error (line : string) : M unit :=
  fun w =>
    (Js.Normal tt,
     {| backend := backend w; calls := calls w;
        console := console w ++ [line]; today := today w |}).

Definition get_today : M string := fun w => (Js.Normal (today w), w).

(** The calls made between two worlds of one run. *)
Definition issued (w w' : World) : list Event :=
  skipn (List.length (calls w)) (calls w').

Definition desc {C} (c : C) : Order C := {| column := c; ascending := false |}.
Definition asc {C} (c : C) : Order C := {| column := c; ascending := true |}.

(** The [.order] clauses of the two queries of [fetchSessionsWithTasks]. *)
Definition sessions_order : list (Order SessionColumn) :=
  [desc c_session_date; desc c_created_at].

Definition tasks_order : list (Order TaskColumn) := [asc c_sort_order].

(** [(x as T[]) || []] *)
Definition or_empty {A} (x : option (list A)) : list A :=
  match x with Some l => l | None => [] end.

(** *** supabase.ts *)

(** The body of [for (const session of sessions)], with [acc] the array
    [sessionsWithTasks] built so far. *)
Fixpoint fetch_tasks_loop (sessions : list SessionRow)
    (acc : list SessionWithTasks) : M (list SessionWithTasks) :=
  match sessions with
  | [] => ret acc
  | session :: rest =>
      r <- await (SelectTasks (id session) tasks_order)
             (select_tasks (id session) tasks_order) ;;
      match error r with
      | Some tasksError =>
          throw (Js.Error ("Failed to fetch tasks for session " ++ id session
                           ++ ": " ++ message tasksError))
      | None =>
          fetch_tasks_loop rest
            (acc ++ [{| row := session; tasks := or_empty (data r) |}])
      end
  end.

Definition fetchSessionsWithTasks : M (list SessionWithTasks) :=
  try_catch
    (r <- await (SelectSessions sessions_order)
            (select_sessions sessions_order) ;;
     match error r with
     | Some sessionsError =>
         throw (Js.Error ("Failed to fetch sessions: " ++ message sessionsError))
     | None =>
         match data r with
         | None => ret []
         | Some [] => ret []
         | Some sessions => fetch_tasks_loop sessions []
         end
     end)
    (fun error =>
       throw (Js.Error ("fetchSessionsWithTasks failed: "
                        ++ Js.message_of error "Unknown error"))).

Definition stamp (session_id : string) (task : TaskData) : TaskToInsert :=
  {| ti_task := task; ti_session_id := session_id |}.

Definition createSessionWithTasks (sessionData : SessionData)
    (tasks : list TaskData) : M SessionWithTasks :=
  try_catch
    (r <- await (InsertSession sessionData) (insert_session sessionData) ;;
     match error r with
     | Some sessionError =>
         throw (Js.Error ("Failed to create session: " ++ message sessionError))
     | None =>
         match data r with
         | None => throw (Js.Error "Session creation returned no data")
         | Some session =>
             let tasksToInsert := map (stamp (id session)) tasks in
             insertedTasks <-
               (if (0 <? List.length tasksToInsert)%nat then
                  r2 <- await (InsertTasks tasksToInsert)
                          (insert_tasks tasksToInsert) ;;
                  match error r2 with
                  | Some tasksError =>
                      throw (Js.Error ("Failed to create tasks: "
                                       ++ message tasksError))
                  | None => ret (or_empty (data r2))
                  end
                else ret []) ;;
             ret {| row := session; tasks := insertedTasks |}
         end
     end)
    (fun error =>
       throw (Js.Error ("createSessionWithTasks failed: "
                        ++ Js.message_of error "Unknown error"))).

Definition updateTaskCompleted (taskId : string) (completed : bool)
    : M TaskRow :=
  try_catch
    (r <- await (UpdateTask taskId completed) (update_task taskId completed) ;;
     match error r with
     | Some e => throw (Js.Error ("Failed to update task: " ++ message e))
     | None =>
         match data r with
         | None => throw (Js.Error "Task update returned no data")
         | Some task => ret task
         end
     end)
    (fun error =>
       throw (Js.Error ("updateTaskCompleted failed: "
                        ++ Js.message_of error "Unknown error"))).

(** *** App (remote): the mapping layer *)

(** The object literal [loadSessions] maps over the fetched rows. *)
Definition toEntry (s : SessionWithTasks) : SessionEntry :=
  {| e_id := id (row s);
     date := session_date (row s);
     sessionType := session_type (row s);
     plannedMinutes := planned_minutes (row s);
     actualMinutes := Some (actual_minutes (row s));
     tasksCompleted := None;
     energyAfter := energy_after (row s);
     notes_ := match notes (row s) with
               | Some n => Js.or_else (fun x => x) n ""
               | None => ""
               end |}.

(** The object literal [saveSessions] passes to [createSessionWithTasks]. *)
Definition toRow (entry : SessionEntry) (ownerId : string) : SessionData :=
  {| d_session_date := date entry;
     d_session_type := sessionType entry;
     d_planned_minutes := plannedMinutes entry;
     d_actual_minutes := actualMinutes entry;
     d_energy_after := energyAfter entry;
     d_notes := Js.or_else Some (notes_ entry) None;
     d_user_id := ownerId |}.

Definition loadSessions : M (list SessionEntry) :=
  try_catch
    (session <- getSession ;;
     match session with
     | None => ret []
     | Some _ =>
         sessionsWithTasks <- fetchSessionsWithTasks ;;
         ret (map toEntry sessionsWithTasks)
     end)
    (fun e =>
       console_error "Failed to load sessions from Supabase" ;;;
       ret []).

Definition saveSessions (entry : SessionEntry) : M unit :=
  try_catch
    (session <- getSession ;;
     match session with
     | None => throw (Js.Error "Not authenticated")
     | Some session =>
         createSessionWithTasks (toRow entry (user session)) [] ;;;
         ret tt
     end)
    (fun e =>
       console_error "Failed to save session to Supabase" ;;;
       throw e).

(** *** App (remote): the entry workflow *)

(** The component state the handlers read and set. *)
Record AppState := {
  st_sessions : list SessionEntry;
  st_isAuthenticated : bool;
  st_isLoading : bool;
  st_form : SessionEntry;
  st_error : option string
}.

Definition setError (e : option string) (st : AppState) : AppState :=
  {| st_sessions := st_sessions st;
     st_isAuthenticated := st_isAuthenticated st;
     st_isLoading := st_isLoading st;
     st_form := st_form st;
     st_error := e |}.

Definition setSessions (l : list SessionEntry) (st : AppState) : AppState :=
  {| st_sessions := l;
     st_isAuthenticated := st_isAuthenticated st;
     st_isLoading := st_isLoading st;
     st_form := st_form st;
     st_error := st_error st |}.

Definition setForm (f : SessionEntry) (st : AppState) : AppState :=
  {| st_sessions := st_sessions st;
     st_isAuthenticated := st_isAuthenticated st;
     st_isLoading := st_isLoading st;
     st_form := f;
     st_error := st_error st |}.

Definition handleSave (st0 : AppState) : M AppState :=
  let st := setError None st0 in
  if negb (Js.truthy (sessionType (st_form st))) then
    ret (setError (Some "Session type is required") st)
  else if negb (Js.truthy (energyAfter (st_form st))) then
    ret (setError (Some "Energy after is required") st)
  else if not_a_number (actualMinutes (st_form st)) then
    ret (setError (Some "Actual minutes is required") st)
  else
    try_catch
      (saveSessions (st_form st) ;;;
       loaded <- loadSessions ;;
       day <- get_today ;;
       ret (setForm (initialForm day) (setSessions loaded st)))
      (fun e =>
         ret (setError (Some (Js.message_or e "Failed to save session")) st)).

Definition handleDelete (id : string) (st : AppState) : M AppState :=
  try_catch
    (await (DeleteSession id) (delete_session id) ;;;
     loaded <- loadSessions ;;
     ret (setSessions loaded st))
    (fun e =>
       console_error "Failed to delete session" ;;;
       ret st).

End WithClient.
End Remote.

Arguments Remote.World S : clear implicits.
Arguments Remote.M S A : clear implicits.

(** *** The orders of the remote store's contract *)

(** Most recent first: a later date, or the same date and a creation
    time that is not earlier. *)
Definition newest_first (a b : SessionRow) : Prop :=
  String.ltb (session_date b) (session_date a) = true \/
  (session_date a = session_date b /\
   String.leb (created_at b) (created_at a) = true).

(** Ascending [sort_order], a null after every number. *)
Definition sort_order_le (a b : TaskRow) : Prop :=
  match sort_order a, sort_order b with
  | Some x, Some y => (x <= y)%Z
  | Some _, None => True
  | None, Some _ => False
  | None, None => True
  end.

Definition tasks_sorted (s : SessionWithTasks) : Prop :=
  StronglySorted sort_order_le (tasks s).

(** *** Reading the call log *)

Definition succeeded (ev : Supabase.Event) : Prop :=
  snd ev = Supabase.Succeeded.

(** How the loop of [fetchSessionsWithTasks] can end, as the log shows it:
    every task query succeeded and the loop returned, or the last query
    failed and the loop threw what that failure gives. *)
Definition loop_outcome (c : Js.completion (list SessionWithTasks))
    (evs : list Supabase.Event) : Prop :=
  match c with
  | Js.Normal _ => Forall succeeded evs
  | Js.Throw v =>
      exists oks sid o,
        evs = (oks ++ [(Supabase.SelectTasks sid Remote.tasks_order, o)])%list
        /\ Forall succeeded oks /\
        match o with
        | Supabase.Succeeded => False
        | Supabase.Rejected cause =>
            v = Js.Error ("Failed to fetch tasks for session " ++ sid
                          ++ ": " ++ cause)
        | Supabase.Raised v' => v = v'
        end
  end.

(* ================================================================= *)
(** ** A reference backend: two tables behind the client *)

Module PgStore.
Import Supabase.

(** What can go wrong with the next call, whatever the reason (network,
    policy, constraint): the call resolves with an error, or rejects. *)
Inductive Fault := Reject (cause : string) | Raise (v : Js.thrown).

(** The backend: the signed-in identity, the two tables, the faults that
    the coming calls will meet (one slot per call, [None] for a call that
    goes through; calls past the end go through) and the counter behind
    generated ids and timestamps.  Row-level scoping is left to the
    tables' contents: they hold the rows visible to the caller. *)
Record Db := {
  auth : option AuthSession;
  sessions : list SessionRow;
  session_tasks : list TaskRow;
  faults : list (option Fault);
  serial : nat
}.

Definition with_faults (f : list (option Fault)) (db : Db) : Db :=
  {| auth := auth db; sessions := sessions db;
     session_tasks := session_tasks db; faults := f; serial := serial db |}.

(** Takes the fault slot of the call being made. *)
Definition next_fault (db : Db) : option Fault * Db :=
  match faults db with
  | [] => (None, db)
  | f :: rest => (f, with_faults rest db)
  end.

Definition failed {D} (cause : string) : Response D :=
  {| data := None; error := Some {| message := cause |} |}.

Definition ok {D} (d : D) : Response D :=
  {| data := Some d; error := None |}.

(** A call that meets a fault leaves the tables alone. *)
Definition guarded {D} (run : Db -> Response D * Db) (db : Db)
    : Js.completion (Response D) * Db :=
  match next_fault db with
  | (Some (Reject cause), db') => (Js.Normal (failed cause), db')
  | (Some (Raise v), db') => (Js.Throw v, db')
  | (None, db') => let (r, db'') := run db' in (Js.Normal r, db'')
  end.

(** *** Ordering *)

(** Postgres treats NULL as larger than every value. *)
Definition compare_nullable (a b : option Z) : comparison :=
  match a, b with
  | Some x, Some y => Z.compare x y
  | Some _, None => Lt
  | None, Some _ => Gt
  | None, None => Eq
  end.

(** Dates and timestamps are kept in ISO form, which compares as text
    the way the moments compare in time. *)
Definition compare_session_column (c : SessionColumn) (a b : SessionRow)
    : comparison :=
  match c with
  | c_session_date => String.compare (session_date a) (session_date b)
  | c_created_at => String.compare (created_at a) (created_at b)
  end.

Definition compare_task_column (c : TaskColumn) (a b : TaskRow) : comparison :=
  match c with
  | c_sort_order => compare_nullable (sort_order a) (sort_order b)
  end.

(** Lexicographic comparison along a chain of [.order] clauses. *)
Fixpoint compare_by {C R} (cmp : C -> R -> R -> comparison)
    (order : list (Order C)) (a b : R) : comparison :=
  match order with
  | [] => Eq
  | o :: rest =>
      match (if ascending o then cmp (column o) a b
             else CompOpp (cmp (column o) a b)) with
      | Eq => compare_by cmp rest a b
      | c => c
      end
  end.

Definition leb_by {C R} (cmp : C -> R -> R -> comparison)
    (order : list (Order C)) (a b : R) : bool :=
  match compare_by cmp order a b with Gt => false | _ => true end.

Fixpoint insert_sorted {R} (leb : R -> R -> bool) (x : R) (l : list R)
    : list R :=
  match l with
  | [] => [x]
  | y :: l' => if leb x y then x :: l else y :: insert_sorted leb x l'
  end.

Fixpoint sort_rows {R} (leb : R -> R -> bool) (l : list R) : list R :=
  match l with
  | [] => []
  | x :: l' => insert_sorted leb x (sort_rows leb l')
  end.

(** *** Generated columns *)

Definition decimal (n : nat) : string :=
  NilEmpty.string_of_uint (Nat.to_uint n).

Definition gen_id (n : nat) : string := "id-" ++ decimal n.
Definition gen_timestamp (n : nat) : string := "t-" ++ decimal n.

(** *** The queries *)

Definition run_select_sessions (order : list (Order SessionColumn)) (db : Db)
    : Response (list SessionRow) * Db :=
  (ok (sort_rows (leb_by compare_session_column order) (sessions db)), db).

Definition run_select_tasks (sid : string) (order : list (Order TaskColumn))
    (db : Db) : Response (list TaskRow) * Db :=
  (ok (sort_rows (leb_by compare_task_column order)
         (filter (fun t => (session_id t =? sid)%string) (session_tasks db))),
   db).

(** A number travels as JSON, where NaN and null are the same. *)
Definition number_or_NaN (x : option Js.number) : Js.number :=
  match x with Some n => n | None => Js.NaN end.

Definition new_session_row (n : nat) (d : SessionData) : SessionRow :=
  {| id := gen_id n;
     session_date := d_session_date d;
     session_type := d_session_type d;
     planned_minutes := d_planned_minutes d;
     actual_minutes := number_or_NaN (d_actual_minutes d);
     energy_after := d_energy_after d;
     notes := d_notes d;
     created_at := gen_timestamp n;
     user_id := d_user_id d |}.

Definition run_insert_session (d : SessionData) (db : Db)
    : Response SessionRow * Db :=
  let r := new_session_row (serial db) d in
  (ok r,
   {| auth := auth db; sessions := sessions db ++ [r];
      session_tasks := session_tasks db; faults := faults db;
      serial := serial db + 1 |}).

Definition new_task_row (n : nat) (t : TaskToInsert) : TaskRow :=
  {| task_id := gen_id n;
     session_id := ti_session_id t;
     task_name := t_task_name (ti_task t);
     sort_order := t_sort_order (ti_task t);
     task_planned_minutes := t_planned_minutes (ti_task t);
     completed := t_completed (ti_task t);
     task_created_at := gen_timestamp n;
     task_user_id := t_user_id (ti_task t) |}.

Fixpoint new_task_rows (n : nat) (l : list TaskToInsert) : list TaskRow :=
  match l with
  | [] => []
  | t :: l' => new_task_row n t :: new_task_rows (n + 1) l'
  end.

Definition run_insert_tasks (l : list TaskToInsert) (db : Db)
    : Response (list TaskRow) * Db :=
  let rows := new_task_rows (serial db) l in
  (ok rows,
   {| auth := auth db; sessions := sessions db;
      session_tasks := session_tasks db ++ rows; faults := faults db;
      serial := serial db + List.length l |}).

Definition set_completed (c : bool) (t : TaskRow) : TaskRow :=
  {| task_id := task_id t; session_id := session_id t;
     task_name := task_name t; sort_order := sort_order t;
     task_planned_minutes := task_planned_minutes t; completed := c;
     task_created_at := task_created_at t; task_user_id := task_user_id t |}.

(** [.update(..).eq('id', ..).select('*').single()]: an error unless
    exactly one row matches. *)
Definition run_update_task (tid : string) (c : bool) (db : Db)
    : Response TaskRow * Db :=
  match filter (fun t => (task_id t =? tid)%string) (session_tasks db) with
  | [t] =>
      (ok (set_completed c t),
       {| auth := auth db; sessions := sessions db;
          session_tasks :=
            map (fun t => if (task_id t =? tid)%string
                          then set_completed c t else t) (session_tasks db);
          faults := faults db; serial := serial db |})
  | _ => (failed "JSON object requested, multiple (or no) rows returned", db)
  end.

Definition run_delete_session (sid : string) (db : Db) : Response unit * Db :=
  ({| data := None; error := None |},
   {| auth := auth db;
      sessions := filter (fun s => negb (id s =? sid)%string) (sessions db);
      session_tasks := session_tasks db; faults := faults db;
      serial := serial db |}).

#[export] Instance client : Client Db := {
  auth_getSession db := (Js.Normal (auth db), db);
  select_sessions order := guarded (run_select_sessions order);
  select_tasks sid order := guarded (run_select_tasks sid order);
  insert_session d := guarded (run_insert_session d);
  insert_tasks l := guarded (run_insert_tasks l);
  update_task tid c := guarded (run_update_task tid c);
  delete_session sid := guarded (run_delete_session sid)
}.

(** Two states of the backend with the same identity and rows. *)
Definition same_tables (db db' : Db) : Prop :=
  auth db' = auth db /\
  sessions db' = sessions db /\
  session_tasks db' = session_tasks db.

(** A backend on which every coming call goes through. *)
Definition healthy (db : Db) : bool :=
  forallb (fun f => match f with None => true | Some _ => false end)
    (faults db).

(** A world over this backend with nothing logged yet. *)
Definition world (db : Db) (day : string) : Remote.World Db :=
  {| Remote.backend := db; Remote.calls := []; Remote.console := [];
     Remote.today := day |}.

End PgStore.

#[export] Existing Instance PgStore.client.

(* ================================================================= *)
(** ** JSON text, as [JSON.stringify] writes and [JSON.parse] reads it *)

Module JSON.

(** The values the persisted schema is made of.  A string is a sequence of
    one-byte code units and a number is an integer or NaN.  An object is
    the list of its properties in the order they were defined; names that
    read as array indices, which JavaScript would enumerate first, do not
    occur in the schema and get no special treatment. *)
Inductive value :=
| Null
| Bool (b : bool)
| Number (n : Js.number)
| Str (s : string)
| Array (elements : list value)
| Object (members : list (string * value)).

(** The two functions of the global [JSON] object that the local variant
    calls; [parse] answers [None] where it raises a SyntaxError. *)
Class Codec := {
  stringify : value -> string;
  parse : string -> option value
}.

Definition dquote : ascii := "034"%char.
Definition backslash : ascii := "092"%char.

Definition char (c : ascii) : string := String c EmptyString.

(** *** Writing *)

Definition hex_digit (n : N) : ascii :=
  ascii_of_N (if (n <? 10)%N then 48 + n else 87 + n).

Definition is_control (c : ascii) : bool := (N_of_ascii c <? 32)%N.

(** QuoteJSONString, one code unit at a time. *)
Definition escape (c : ascii) : string :=
  if (c =? dquote)%char then String backslash (char dquote)
  else if (c =? backslash)%char then String backslash (char backslash)
  else if (c =? "008")%char then String backslash "b"
  else if (c =? "012")%char then String backslash "f"
  else if (c =? "010")%char then String backslash "n"
  else if (c =? "013")%char then String backslash "r"
  else if (c =? "009")%char then String backslash "t"
  else if is_control c then
    String backslash
      (String "u" (String "0" (String "0"
         (String (hex_digit (N_of_ascii c / 16))
            (char (hex_digit (N_of_ascii c mod 16)))))))
  else char c.

Fixpoint escape_string (s : string) : string :=
  match s with
  | EmptyString => EmptyString
  | String c s' => escape c ++ escape_string s'
  end.

Definition quote (s : string) : string :=
  String dquote (escape_string s ++ char dquote).

Definition digits (n : N) : string := NilEmpty.string_of_uint (N.to_uint n).

(** Number::toString on an integer; NaN is written as [null]. *)
Definition write_number (n : Js.number) : string :=
  match n with
  | Js.NaN => "null"
  | Js.Num z =>
      if (z <? 0)%Z then String "-" (digits (Z.to_N (- z)))
      else digits (Z.to_N z)
  end.

(** [a,b,c] from the written pieces. *)
Fixpoint join (pieces : list string) : string :=
  match pieces with
  | [] => EmptyString
  | [p] => p
  | p :: rest => p ++ String "," (join rest)
  end.

Fixpoint write (v : value) : string :=
  match v with
  | Null => "null"
  | Bool true => "true"
  | Bool false => "false"
  | Number n => write_number n
  | Str s => quote s
  | Array l => String "[" (join (map write l) ++ "]")
  | Object ms =>
      String "{"
        (join (map (fun m => quote (fst m) ++ String ":" (write (snd m))) ms)
         ++ "}")
  end.

(** *** Reading *)

Definition is_ws (c : ascii) : bool :=
  (c =? " ")%char || (c =? "009")%char || (c =? "010")%char
  || (c =? "013")%char.

Fixpoint skip_ws (s : string) : string :=
  match s with
  | String c s' => if is_ws c then skip_ws s' else s
  | EmptyString => EmptyString
  end.

(** [strip p s] is what follows [p] at the start of [s]. *)
Fixpoint strip (p s : string) : option string :=
  match p, s with
  | EmptyString, _ => Some s
  | String a p', String b s' => if (a =? b)%char then strip p' s' else None
  | String _ _, EmptyString => None
  end.

Definition is_digit (c : ascii) : bool :=
  (48 <=? N_of_ascii c)%N && (N_of_ascii c <=? 57)%N.

(** The longest prefix of digits, and what follows it. *)
Fixpoint take_digits (s : string) : string * string :=
  match s with
  | String c s' =>
      if is_digit c then
        let (ds, rest) := take_digits s' in (String c ds, rest)
      else (EmptyString, s)
  | EmptyString => (EmptyString, EmptyString)
  end.

Definition hex_value (c : ascii) : option N :=
  let n := N_of_ascii c in
  if is_digit c then Some (n - 48)%N
  else if (97 <=? n)%N && (n <=? 102)%N then Some (n - 87)%N
  else if (65 <=? n)%N && (n <=? 70)%N then Some (n - 55)%N
  else None.

(** The code unit named by four hex digits, when it fits the one-byte
    code units of this model. *)
Definition unicode_escape (a b c d : ascii) : option ascii :=
  match hex_value a, hex_value b, hex_value c, hex_value d with
  | Some x, Some y, Some z, Some t =>
      let n := (((x * 16 + y) * 16 + z) * 16 + t)%N in
      if (n <? 256)%N then Some (ascii_of_N n) else None
  | _, _, _, _ => None
  end.

Definition cons_char (c : ascii) (r : option (string * string))
    : option (string * string) :=
  match r with
  | Some (s, rest) => Some (String c s, rest)
  | None => None
  end.

(** A string body, read from just after its opening quote up to and
    including its closing quote. *)
Fixpoint read_string (s : string) : option (string * string) :=
  match s with
  | EmptyString => None
  | String c rest =>
      if (c =? dquote)%char then Some (EmptyString, rest)
      else if (c =? backslash)%char then
        match rest with
        | EmptyString => None
        | String e rest' =>
            if (e =? dquote)%char then cons_char dquote (read_string rest')
            else if (e =? backslash)%char then
              cons_char backslash (read_string rest')
            else if (e =? "/")%char then cons_char "/" (read_string rest')
            else if (e =? "b")%char then cons_char "008" (read_string rest')
            else if (e =? "f")%char then cons_char "012" (read_string rest')
            else if (e =? "n")%char then cons_char "010" (read_string rest')
            else if (e =? "r")%char then cons_char "013" (read_string rest')
            else if (e =? "t")%char then cons_char "009" (read_string rest')
            else if (e =? "u")%char then
              match rest' with
              | String h1 (String h2 (String h3 (String h4 rest''))) =>
                  match unicode_escape h1 h2 h3 h4 with
                  | Some u => cons_char u (read_string rest'')
                  | None => None
                  end
              | _ => None
              end
            else None
        end
      else if is_control c then None
      else cons_char c (read_string rest)
  end.

Definition starts_fraction_or_exponent (s : string) : bool :=
  match s with
  | String c _ => (c =? ".")%char || (c =? "e")%char || (c =? "E")%char
  | EmptyString => false
  end.

(** An integer literal: an optional minus sign and digits in canonical
    form (no leading zero); a fraction or an exponent is outside the
    numbers of this model and is refused. *)
Definition read_number (s : string) : option (Js.number * string) :=
  let (negative, s1) :=
    match s with
    | String c r => if (c =? "-")%char then (true, r) else (false, s)
    | EmptyString => (false, s)
    end in
  let (ds, rest) := take_digits s1 in
  match NilEmpty.uint_of_string ds with
  | Some u =>
      let n := N.of_uint u in
      if negb (digits n =? ds)%string then None
      else if starts_fraction_or_exponent rest then None
      else Some (Js.Num (if negative then - Z.of_N n else Z.of_N n), rest)
  | None => None
  end.

(** Defining a property on an object: a repeated name overwrites the
    value where the name first appeared. *)
Fixpoint define (k : string) (v : value) (ms : list (string * value))
    : list (string * value) :=
  match ms with
  | [] => [(k, v)]
  | (k', v') :: ms' =>
      if (k' =? k)%string then (k, v) :: ms' else (k', v') :: define k v ms'
  end.

Definition object_of (ms : list (string * value)) : value :=
  Object (fold_left (fun o m => define (fst m) (snd m) o) ms []).

Definition head_is (c : ascii) (s : string) : option string :=
  match s with
  | String c' rest => if (c' =? c)%char then Some rest else None
  | EmptyString => None
  end.

(** Recursive descent; [fuel] bounds the nesting and the number of
    elements, and the length of the text is always enough. *)
Fixpoint read_value (fuel : nat) (s : string) {struct fuel}
    : option (value * string) :=
  match fuel with
  | O => None
  | S fuel' =>
      let s := skip_ws s in
      match strip "null" s, strip "true" s, strip "false" s with
      | Some rest, _, _ => Some (Null, rest)
      | _, Some rest, _ => Some (Bool true, rest)
      | _, _, Some rest => Some (Bool false, rest)
      | None, None, None =>
          match head_is dquote s, head_is "[" s, head_is "{" s with
          | Some rest, _, _ =>
              match read_string rest with
              | Some (str, rest') => Some (Str str, rest')
              | None => None
              end
          | _, Some rest, _ =>
              match head_is "]" (skip_ws rest) with
              | Some rest' => Some (Array [], rest')
              | None =>
                  match read_elements fuel' rest with
                  | Some (l, rest') => Some (Array l, rest')
                  | None => None
                  end
              end
          | _, _, Some rest =>
              match head_is "}" (skip_ws rest) with
              | Some rest' => Some (Object [], rest')
              | None =>
                  match read_members fuel' rest with
                  | Some (ms, rest') => Some (object_of ms, rest')
                  | None => None
                  end
              end
          | None, None, None =>
              match read_number s with
              | Some (n, rest) => Some (Number n, rest)
              | None => None
              end
          end
      end
  end

with read_elements (fuel : nat) (s : string) {struct fuel}
    : option (list value * string) :=
  match fuel with
  | O => None
  | S fuel' =>
      match read_value fuel' s with
      | Some (v, rest) =>
          let rest := skip_ws rest in
          match head_is "," rest, head_is "]" rest with
          | Some rest', _ =>
              match read_elements fuel' rest' with
              | Some (l, rest'') => Some (v :: l, rest'')
              | None => None
              end
          | _, Some rest' => Some ([v], rest')
          | None, None => None
          end
      | None => None
      end
  end

with read_members (fuel : nat) (s : string) {struct fuel}
    : option (list (string * value) * string) :=
  match fuel with
  | O => None
  | S fuel' =>
      match head_is dquote (skip_ws s) with
      | Some s1 =>
          match read_string s1 with
          | Some (k, s2) =>
              match head_is ":" (skip_ws s2) with
              | Some s3 =>
                  match read_value fuel' s3 with
                  | Some (v, rest) =>
                      let rest := skip_ws rest in
                      match head_is "," rest, head_is "}" rest with
                      | Some rest', _ =>
                          match read_members fuel' rest' with
                          | Some (ms, rest'') => Some ((k, v) :: ms, rest'')
                          | None => None
                          end
                      | _, Some rest' => Some ([(k, v)], rest')
                      | None, None => None
                      end
                  | None => None
                  end
              | None => None
              end
          | None => None
          end
      | None => None
      end
  end.

(** The whole text must be one value, with white space around it at most. *)
Definition read (s : string) : option value :=
  match read_value (String.length s) s with
  | Some (v, rest) =>
      match skip_ws rest with
      | EmptyString => Some v
      | String _ _ => None
      end
  | None => None
  end.

(** The codec of this model. *)
Definition codec : Codec := {| stringify := write; parse := read |}.

(** *** What can be stored and read back *)

Definition is_array (v : value) : bool :=
  match v with Array _ => true | _ => false end.

Fixpoint distinct (keys : list string) : bool :=
  match keys with
  | [] => true
  | k :: rest =>
      negb (existsb (fun k' => (k' =? k)%string) rest) && distinct rest
  end.

(** Values that keep everything when written: no NaN (it is written as
    null), and no property name twice in an object. *)
Fixpoint storable (v : value) : bool :=
  match v with
  | Number Js.NaN => false
  | Array l => forallb storable l
  | Object ms =>
      distinct (map fst ms) && forallb (fun m => storable (snd m)) ms
  | _ => true
  end.

(** What may follow a value inside a text: nothing, or the punctuation of
    the enclosing array or object. *)
Definition delimited (s : string) : Prop :=
  match s with
  | EmptyString => True
  | String c _ => c = ","%char \/ c = "]"%char \/ c = "}"%char
  end.

Definition starts_with_digit (s : string) : bool :=
  match s with String c _ => is_digit c | EmptyString => false end.

(** The characters a written value can start with. *)
Definition opens_value (c : ascii) : bool :=
  is_digit c || (c =? "-")%char || (c =? "n")%char || (c =? "t")%char
  || (c =? "f")%char || (c =? dquote)%char || (c =? "[")%char
  || (c =? "{")%char.

Definition member_text (m : string * value) : string :=
  quote (fst m) ++ String ":" (write (snd m)).

(** Induction on values, through the lists they nest in. *)
Section ValueInduction.
Variable P : value -> Prop.
Hypothesis HNull : P Null.
Hypothesis HBool : forall b, P (Bool b).
Hypothesis HNumber : forall n, P (Number n).
Hypothesis HStr : forall s, P (Str s).
Hypothesis HArray : forall l, Forall P l -> P (Array l).
Hypothesis HObject : forall ms, Forall (fun m => P (snd m)) ms -> P (Object ms).

Fixpoint value_induction (v : value) : P v :=
  match v with
  | Null => HNull
  | Bool b => HBool b
  | Number n => HNumber n
  | Str s => HStr s
  | Array l =>
      HArray l
        ((fix all (l : list value) : Forall P l :=
            match l with
            | [] => Forall_nil _
            | x :: l' => Forall_cons x (value_induction x) (all l')
            end) l)
  | Object ms =>
      HObject ms
        ((fix all (ms : list (string * value))
            : Forall (fun m => P (snd m)) ms :=
            match ms with
            | [] => Forall_nil _
            | m :: ms' => Forall_cons m (value_induction (snd m)) (all ms')
            end) ms)
  end.

End ValueInduction.

(** A written value is read back, whatever delimiter follows it. *)
Definition reads_back (v : value) : Prop :=
  forall fuel rest,
    String.length (write v) <= fuel -> delimited rest ->
    read_value fuel (write v ++ rest) = Some (v, rest).

End JSON.

(* ================================================================= *)
(** ** Local variant: the App component that persists to localStorage *)

Module Local.
Import Eff Eff.Notations Form.

Definition STORAGE_KEY : string := "sessionTrackerEntries".

(** [window.localStorage]: the stored items and, since [setItem] may
    raise (quota, disabled storage), which writes the browser accepts. *)
Record Storage := {
  items : list (string * string);
  accepts : string -> string -> bool
}.

Fixpoint lookup (key : string) (l : list (string * string)) : option string :=
  match l with
  | [] => None
  | (k, v) :: l' => if (k =? key)%string then Some v else lookup key l'
  end.

Fixpoint update (key value : string) (l : list (string * string))
    : list (string * string) :=
  match l with
  | [] => [(key, value)]
  | (k, v) :: l' =>
      if (k =? key)%string then (key, value) :: l'
      else (k, v) :: update key value l'
  end.

(** The world of the local variant: the storage, the console, the day
    [today()] reports and the ids that [crypto.randomUUID()] (or
    [Date.now()]) will hand out. *)
Record World := {
  localStorage : Storage;
  console : list string;
  today : string;
  fresh : nat -> string;
  drawn : nat
}.

Definition M (A : Type) : Type := Eff.M World A.

Definition getItem (key : string) : M (option string) :=
  fun w => (Js.Normal (lookup key (items (localStorage w))), w).

Definition setItem (key value : string) : M unit :=
  fun w =>
    if accepts (localStorage w) key value then
      (Js.Normal tt,
       {| localStorage :=
            {| items := update key value (items (localStorage w));
               accepts := accepts (localStorage w) |};
          console := console w; today := today w;
          fresh := fresh w; drawn := drawn w |})
    else (Js.Throw (Js.Error "QuotaExceededError"), w).

Definition console_error (line : string) : M unit :=
  fun w =>
    (Js.Normal tt,
     {| localStorage := localStorage w; console := console w ++ [line];
        today := today w; fresh := fresh w; drawn := drawn w |}).

Definition get_today : M string := fun w => (Js.Normal (today w), w).

(** The id of a new entry. *)
Definition new_id : M string :=
  fun w =>
    (Js.Normal (fresh w (drawn w)),
     {| localStorage := localStorage w; console := console w;
        today := today w; fresh := fresh w; drawn := S (drawn w) |}).

Definition nullable (x : option Js.number) : JSON.value :=
  match x with Some n => JSON.Number n | None => JSON.Null end.

(** A [SessionEntry] object, with its properties in the order the form
    defines them. *)
Definition entry_value (e : SessionEntry) : JSON.value :=
  JSON.Object
    [("id", JSON.Str (e_id e));
     ("date", JSON.Str (date e));
     ("sessionType", JSON.Str (sessionType e));
     ("plannedMinutes", JSON.Number (plannedMinutes e));
     ("actualMinutes", nullable (actualMinutes e));
     ("tasksCompleted", nullable (tasksCompleted e));
     ("energyAfter", JSON.Str (energyAfter e));
     ("notes", JSON.Str (notes_ e))].

Definition is_number (n : Js.number) : bool := negb (Js.isNaN n).

(** An entry as the data model has it: its planned and actual minutes are
    numbers, and [tasksCompleted] is a number or null. *)
Definition valid_entry (e : SessionEntry) : bool :=
  is_number (plannedMinutes e)
  && match actualMinutes e with Some n => is_number n | None => false end
  && match tasksCompleted e with Some n => is_number n | None => true end.

Section WithCodec.
Context {json : JSON.Codec}.

(** [JSON.parse(raw)] *)
Definition JSON_parse (raw : string) : M JSON.value :=
  match JSON.parse raw with
  | Some v => ret v
  | None => throw (Js.Error "SyntaxError")
  end.

(** The result is the parsed array itself: [as SessionEntry[]] checks
    nothing. *)
Definition loadSessions : M (list JSON.value) :=
  raw <- getItem STORAGE_KEY ;;
  match raw with
  | None => ret []
  | Some raw =>
      if negb (Js.truthy raw) then ret []
      else
        try_catch
          (parsed <- JSON_parse raw ;;
           match parsed with
           | JSON.Array l => ret l
           | _ => ret []
           end)
          (fun e => ret [])
  end.

Definition saveSessions (entries : list JSON.value) : M unit :=
  try_catch
    (setItem STORAGE_KEY (JSON.stringify (JSON.Array entries)))
    (fun e => console_error "Failed to save sessions to localStorage").

(** *** The entry workflow *)

(** The component state.  [sessions_ref] stands for the identity of the
    [sessions] array, which is what the effect's dependency list
    compares: every [setSessions] installs a new array. *)
Record AppState := {
  st_sessions : list JSON.value;
  sessions_ref : nat;
  st_form : SessionEntry;
  st_error : option string
}.

Definition setError (e : option string) (st : AppState) : AppState :=
  {| st_sessions := st_sessions st; sessions_ref := sessions_ref st;
     st_form := st_form st; st_error := e |}.

Definition setSessions (l : list JSON.value) (st : AppState) : AppState :=
  {| st_sessions := l; sessions_ref := S (sessions_ref st);
     st_form := st_form st; st_error := st_error st |}.

Definition setForm (f : SessionEntry) (st : AppState) : AppState :=
  {| st_sessions := st_sessions st; sessions_ref := sessions_ref st;
     st_form := f; st_error := st_error st |}.

Definition handleSave (st0 : AppState) : M AppState :=
  let st := setError None st0 in
  if negb (Js.truthy (sessionType (st_form st))) then
    ret (setError (Some "Session type is required") st)
  else if negb (Js.truthy (energyAfter (st_form st))) then
    ret (setError (Some "Energy after is required") st)
  else if not_a_number (actualMinutes (st_form st)) then
    ret (setError (Some "Actual minutes is required") st)
  else
    id <- new_id ;;
    let entry := with_id id (st_form st) in
    let next := entry_value entry :: st_sessions st in
    saveSessions next ;;;
    day <- get_today ;;
    ret (setForm (initialForm day) (setSessions next st)).

(** [useEffect(() => saveSessions(sessions), [sessions])], run after a
    render that follows state [prev]. *)
Definition sessions_effect (prev next : AppState) : M unit :=
  if (sessions_ref prev =? sessions_ref next)%nat then ret tt
  else saveSessions (st_sessions next).

(** A click on Save: the handler, then the effects of the render it
    causes. *)
Definition click_save (st : AppState) : M AppState :=
  st' <- handleSave st ;;
  sessions_effect st st' ;;;
  ret st'.


End WithCodec.

(** The item kept under the storage key. *)
Definition persisted (w : World) : option string :=
  lookup STORAGE_KEY (items (localStorage w)).

End Local.

(* ================================================================= *)
(** ** Sample data *)

Module Sample.
Import Supabase.

Definition session (id date created : string) (n : option string)
    : SessionRow :=
  {| id := id; session_date := date; session_type := "Red";
     planned_minutes := Js.Num 15; actual_minutes := Js.Num 10;
     energy_after := "Worse"; notes := n; created_at := created;
     user_id := "u1" |}.

Definition task (id sid : string) (order : option Z) : TaskRow :=
  {| task_id := id; session_id := sid; task_name := "read";
     sort_order := order; task_planned_minutes := None; completed := false;
     task_created_at := "2024-01-02T08:00:00Z"; task_user_id := "u1" |}.

(** Three sessions, two of them on the same day, and three tasks of the
    first one, stored out of order. *)
Definition db : PgStore.Db :=
  {| PgStore.auth := Some {| user := "u1" |};
     PgStore.sessions :=
       [session "a" "2024-01-02" "2024-01-02T09:00:00Z" None;
        session "b" "2024-01-03" "2024-01-03T07:00:00Z" (Some "late");
        session "c" "2024-01-02" "2024-01-02T18:00:00Z" (Some "")];
     PgStore.session_tasks :=
       [task "t1" "a" None; task "t2" "a" (Some 2%Z); task "t3" "a" (Some 1%Z)];
     PgStore.faults := [];
     PgStore.serial := 7 |}.

Definition signed_out : PgStore.Db :=
  {| PgStore.auth := None;
     PgStore.sessions := PgStore.sessions db;
     PgStore.session_tasks := PgStore.session_tasks db;
     PgStore.faults := [];
     PgStore.serial := 7 |}.

Definition day : string := "2024-01-04".

Definition sessionData : SessionData :=
  {| d_session_date := "2024-01-04"; d_session_type := "Green";
     d_planned_minutes := Js.Num 90; d_actual_minutes := Some (Js.Num 75);
     d_energy_after := "Better"; d_notes := None; d_user_id := "u1" |}.


(** The scenario entry of the specification. *)
Definition entry : SessionEntry :=
  {| e_id := "e1"; date := "2024-01-01"; sessionType := "Red";
     plannedMinutes := Js.Num 15; actualMinutes := Some (Js.Num 10);
     tasksCompleted := None; energyAfter := "Worse"; notes_ := "" |}.


(** A draft whose Actual Minutes input was emptied. *)
Definition draft : SessionEntry :=
  {| e_id := ""; date := "2024-01-01"; sessionType := "Green";
     plannedMinutes := Js.Num 90; actualMinutes := Some Js.NaN;
     tasksCompleted := None; energyAfter := "Same"; notes_ := "" |}.

Definition remote_state : Remote.AppState :=
  {| Remote.st_sessions := []; Remote.st_isAuthenticated := true;
     Remote.st_isLoading := false; Remote.st_form := Form.initialForm day;
     Remote.st_error := None |}.

Definition local_state : Local.AppState :=
  {| Local.st_sessions := []; Local.sessions_ref := 0;
     Local.st_form := Form.initialForm day; Local.st_error := None |}.

(** A browser whose storage holds [items] and accepts every write. *)
Definition browser (items : list (string * string)) : Local.World :=
  {| Local.localStorage :=
       {| Local.items := items; Local.accepts := fun _ _ => true |};
     Local.console := []; Local.today := day;
     Local.fresh := fun n => PgStore.gen_id n; Local.drawn := 0 |}.

End Sample.
(* ================================================================= *)
(** ** Handlers of a component *)

Module Component.

Section WithState.
Context {W St : Type}.

(** A handler runs over the world and the state of its component, so
    that a state update made before an awaited call rejects stays made. *)
Definition C (A : Type) : Type := Eff.M (W * St) A.

(** A computation over the world alone, run inside a handler. *)
Definition lift {A} (m : Eff.M W A) : C A :=
  fun u => let (c, w') := m (fst u) in (c, (w', snd u)).

(** A call of a state setter. *)
Definition set (f : St -> St) : C unit :=
  fun u => (Js.Normal tt, (fst u, f (snd u))).

(** The state of the render a handler was created in, which is the
    current one when the handler starts. *)
Definition get : C St := fun u => (Js.Normal (snd u), u).

(** [try { body } finally { fin }] *)
Definition finally {A} (body : C A) (fin : C unit) : C A :=
  fun u =>
    let (c, u') := body u in
    match fin u' with
    | (Js.Normal _, u'') => (c, u'')
    | (Js.Throw v, u'') => (Js.Throw v, u'')
    end.

(** A call of an async function whose promise nobody awaits: a rejection
    reaches no caller. *)
Definition detached (m : C unit) : C unit :=
  Eff.try_catch m (fun _ => Eff.ret tt).

End WithState.

Arguments C W St A : clear implicits.

End Component.

(* ================================================================= *)
(** ** The form inputs of both App variants *)

Module Input.
Import Form.

(** [setField('plannedMinutes', n)] *)
Definition with_plannedMinutes (n : Js.number) (e : SessionEntry)
    : SessionEntry :=
  {| e_id := e_id e; date := date e; sessionType := sessionType e;
     plannedMinutes := n; actualMinutes := actualMinutes e;
     tasksCompleted := tasksCompleted e; energyAfter := energyAfter e;
     notes_ := notes_ e |}.

(** [setField('actualMinutes', n)] *)
Definition with_actualMinutes (n : Js.number) (e : SessionEntry)
    : SessionEntry :=
  {| e_id := e_id e; date := date e; sessionType := sessionType e;
     plannedMinutes := plannedMinutes e; actualMinutes := Some n;
     tasksCompleted := tasksCompleted e; energyAfter := energyAfter e;
     notes_ := notes_ e |}.

(** [setField('notes', s)] *)
Definition with_notes (s : string) (e : SessionEntry) : SessionEntry :=
  {| e_id := e_id e; date := date e; sessionType := sessionType e;
     plannedMinutes := plannedMinutes e; actualMinutes := actualMinutes e;
     tasksCompleted := tasksCompleted e; energyAfter := energyAfter e;
     notes_ := s |}.

(** [setField('date', s)] *)
Definition with_date (s : string) (e : SessionEntry) : SessionEntry :=
  {| e_id := e_id e; date := s; sessionType := sessionType e;
     plannedMinutes := plannedMinutes e; actualMinutes := actualMinutes e;
     tasksCompleted := tasksCompleted e; energyAfter := energyAfter e;
     notes_ := notes_ e |}.

(** [handleEnergyChange] *)
Definition handleEnergyChange (value : string) (e : SessionEntry)
    : SessionEntry :=
  {| e_id := e_id e; date := date e; sessionType := sessionType e;
     plannedMinutes := plannedMinutes e; actualMinutes := actualMinutes e;
     tasksCompleted := tasksCompleted e; energyAfter := value;
     notes_ := notes_ e |}.

Section WithNumber.

(** [Number(value)] on the text of an input: the conversion belongs to
    the runtime. *)
Variable Number : string -> Js.number.

(** [handleInputChange], on the [name] and [value] of the event's
    target; the form is the one the pending update finds. *)
Definition handleInputChange (name value : string) (form : SessionEntry)
    : SessionEntry :=
  if (name =? "plannedMinutes")%string || (name =? "actualMinutes")%string
     || (name =? "tasksCompleted")%string then
    let num := if (value =? "")%string then Js.NaN else Number value in
    if (name =? "tasksCompleted")%string then
      with_tasksCompleted (if (value =? "")%string then None else Some num)
        form
    else if (name =? "plannedMinutes")%string then
      with_plannedMinutes num form
    else with_actualMinutes num form
  else if (name =? "notes")%string || (name =? "date")%string then
    if (name =? "notes")%string then with_notes value form
    else with_date value form
  else form.

End WithNumber.

End Input.

(* ================================================================= *)
(** ** The table of saved sessions *)

Module View.

(** [Array.prototype.sort] is stable: an element moves in front of
    another only when the comparator asks for it.  With a comparator
    that is an order, the result is the one insertion gives. *)
Fixpoint insert {A} (cmp : A -> A -> comparison) (x : A) (l : list A)
    : list A :=
  match l with
  | [] => [x]
  | y :: l' =>
      match cmp x y with
      | Gt => y :: insert cmp x l'
      | _ => x :: l
      end
  end.

Fixpoint sort {A} (cmp : A -> A -> comparison) (l : list A) : list A :=
  match l with
  | [] => []
  | x :: l' => insert cmp x (sort cmp l')
  end.

Section WithCollation.

(** [a.localeCompare(b)]: negative, zero or positive, as the collation
    of the browser's locale decides. *)
Variable localeCompare : string -> string -> comparison.

(** [(a, b) => b.date.localeCompare(a.date)] *)
Definition by_date_desc (a b : SessionEntry) : comparison :=
  localeCompare (date b) (date a).

(** [[...sessions].sort(...)], the rows of the table. *)
Definition rows (sessions : list SessionEntry) : list SessionEntry :=
  sort by_date_desc sessions.

(** What the remote [App] renders. *)
Inductive Page :=
| Loading
| PleaseSignIn
| Tracker (error : option string) (form : SessionEntry)
    (table : list SessionEntry).

(** [{error && ...}]: a null or empty error is not shown. *)
Definition shown (error : option string) : option string :=
  match error with
  | Some e => if Js.truthy e then Some e else None
  | None => None
  end.

Definition render (st : Remote.AppState) : Page :=
  if Remote.st_isLoading st then Loading
  else if negb (Remote.st_isAuthenticated st) then PleaseSignIn
  else Tracker (shown (Remote.st_error st)) (Remote.st_form st)
         (rows (Remote.st_sessions st)).

End WithCollation.

(** A comparator that orders: comparing the other way round gives the
    opposite answer, and not-after is transitive. *)
Definition is_order {A} (cmp : A -> A -> comparison) : Prop :=
  (forall a b, cmp b a = CompOpp (cmp a b)) /\
  (forall a b c, cmp a b <> Gt -> cmp b c <> Gt -> cmp a c <> Gt).

(** [a] is listed no later than [b] wants: [b]'s date does not come
    after [a]'s. *)
Definition not_older (localeCompare : string -> string -> comparison)
    (a b : SessionEntry) : Prop :=
  localeCompare (date a) (date b) <> Lt.

End View.

(* ================================================================= *)
(** ** App (remote): start-up and the authentication listener *)

Module RemoteApp.
Import Supabase Eff Eff.Notations Form Remote Component.

Section WithClient.
Context {S : Type} {client : Client S}.

Definition setIsAuthenticated (b : bool) (st : AppState) : AppState :=
  {| st_sessions := st_sessions st;
     st_isAuthenticated := b;
     st_isLoading := st_isLoading st;
     st_form := st_form st;
     st_error := st_error st |}.

Definition setIsLoading (b : bool) (st : AppState) : AppState :=
  {| st_sessions := st_sessions st;
     st_isAuthenticated := st_isAuthenticated st;
     st_isLoading := b;
     st_form := st_form st;
     st_error := st_error st |}.

(** The state of the first render. *)
Definition initial (day : string) : AppState :=
  {| st_sessions := [];
     st_isAuthenticated := false;
     st_isLoading := true;
     st_form := initialForm day;
     st_error := None |}.

(** [!!session] *)
Definition present {A} (x : option A) : bool :=
  match x with Some _ => true | None => false end.

Definition Handler (A : Type) : Type :=
  Component.C (Remote.World S) AppState A.

Definition initializeApp : Handler unit :=
  finally
    (try_catch
       (session <- lift getSession ;;
        set (setIsAuthenticated (present session)) ;;;
        match session with
        | Some _ =>
            loaded <- lift loadSessions ;;
            set (setSessions loaded)
        | None => ret tt
        end)
       (fun e => lift (console_error "Failed to initialize app")))
    (set (setIsLoading false)).

(** The callback registered with [supabase.auth.onAuthStateChange]. *)
Definition onAuthStateChange (session : option AuthSession) : Handler unit :=
  set (setIsAuthenticated (present session)) ;;;
  match session with
  | Some _ =>
      detached (loaded <- lift loadSessions ;; set (setSessions loaded))
  | None => set (setSessions [])
  end.

End WithClient.
End RemoteApp.

(* ================================================================= *)
(** ** App (local): start-up and deletion *)

Module LocalApp.
Import Eff Eff.Notations Form Local.

(** The own property [name] of an object. *)
Fixpoint property (name : string) (ms : list (string * JSON.value))
    : option JSON.value :=
  match ms with
  | [] => None
  | (k, v) :: ms' => if (k =? name)%string then Some v else property name ms'
  end.

(** [s.id !== id] for an element [s] of the loaded array, which may be
    any JSON value: reading a property of [null] raises a TypeError, and
    a number, a string, a boolean or an array has no [id]. *)
Definition id_differs (id : string) (s : JSON.value) : Js.completion bool :=
  match s with
  | JSON.Null => Js.Throw (Js.Error "TypeError")
  | JSON.Object ms =>
      match property "id" ms with
      | Some (JSON.Str x) => Js.Normal (negb (x =? id)%string)
      | _ => Js.Normal true
      end
  | _ => Js.Normal true
  end.

(** [sessions.filter((s) => s.id !== id)] *)
Fixpoint filter_out (id : string) (sessions : list JSON.value)
    : Js.completion (list JSON.value) :=
  match sessions with
  | [] => Js.Normal []
  | s :: rest =>
      match id_differs id s with
      | Js.Throw v => Js.Throw v
      | Js.Normal keep =>
          match filter_out id rest with
          | Js.Throw v => Js.Throw v
          | Js.Normal next => Js.Normal (if keep then s :: next else next)
          end
      end
  end.

Definition handleDelete (id : string) (st : AppState) : M AppState :=
  match filter_out id (st_sessions st) with
  | Js.Normal next => ret (setSessions next st)
  | Js.Throw v => throw v
  end.

Section WithCodec.
Context {json : JSON.Codec}.

(** A click on Delete: the handler, then the effects of the render it
    causes. *)
Definition click_delete (id : string) (st : AppState) : M AppState :=
  st' <- handleDelete id st ;;
  sessions_effect st st' ;;;
  ret st'.

(** The state of the first render. *)
Definition initial (day : string) : AppState :=
  {| st_sessions := []; sessions_ref := 0;
     st_form := initialForm day; st_error := None |}.

(** Mounting the component: the first render is followed by its two
    effects, in the order they are declared.  The first loads and asks
    for the loaded list to be installed; the second saves the list of the
    render it belongs to, which is still the empty one.  The render that
    installs the loaded list then runs the second effect again. *)
Definition mount : M AppState :=
  day <- get_today ;;
  let st := initial day in
  loaded <- loadSessions ;;
  saveSessions (st_sessions st) ;;;
  let st' := setSessions loaded st in
  sessions_effect st st' ;;;
  ret st'.

(** The storage holds the text of the list on the screen. *)
Definition in_sync (st : AppState) (w : World) : Prop :=
  persisted w = Some (JSON.stringify (JSON.Array (st_sessions st))).

End WithCodec.

(** A storage that takes every write of the tracker's item. *)
Definition roomy (w : World) : Prop :=
  forall text, accepts (localStorage w) STORAGE_KEY text = true.

End LocalApp.

(* ================================================================= *)
(** ** The Auth component *)

Module AuthUi.
Import Supabase Eff Eff.Notations Component.

(** The calls of [supabase.auth] that the component makes. *)
Inductive Call :=
| GetSession
| SignInWithOtp (email : string)
| SignInWithOAuth (provider redirectTo : string)
| SignOut.

(** The authentication side of the client, over a backend state [S]. *)
Class Api (S : Type) := {
  getSession : S -> Js.completion (option AuthSession) * S;
  signInWithOtp : string -> S -> Js.completion (Response unit) * S;
  signInWithOAuth : string -> string -> S -> Js.completion (Response unit) * S;
  signOut : S -> Js.completion (Response unit) * S
}.

Section WithApi.
Context {S : Type} {api : Api S}.

(** What the component can observe and change outside its own state. *)
Record World := {
  backend : S;
  requests : list Call;
  console : list string;
  origin : string;            (* window.location.origin *)
  BASE_URL : string           (* import.meta.env.BASE_URL *)
}.

Definition await {D} (req : Call) (call : S -> Js.completion D * S)
    : Eff.M World D :=
  fun w =>
    let (c, s') := call (backend w) in
    (c, {| backend := s'; requests := requests w ++ [req];
           console := console w; origin := origin w;
           BASE_URL := BASE_URL w |}).

Definition console_error (line : string) : Eff.M World unit :=
  fun w =>
    (Js.Normal tt,
     {| backend := backend w; requests := requests w;
        console := console w ++ [line]; origin := origin w;
        BASE_URL := BASE_URL w |}).

(** [`${window.location.origin}${import.meta.env.BASE_URL}`] *)
Definition get_redirectTo : Eff.M World string :=
  fun w => (Js.Normal (origin w ++ BASE_URL w), w).

End WithApi.

Arguments World S : clear implicits.

(** [{text && <p>...</p>}] *)
Definition shown (text : string) : option string :=
  if Js.truthy text then Some text else None.

(** [`Auth error: ${err.message}`]; a value without a message reads as
    undefined. *)
Definition auth_error (err : Js.thrown) : string :=
  "Auth error: " ++ Js.message_of err "undefined".

(** *** Sign-in with Google *)

Module Google.

Record State := {
  session : option AuthSession;
  loading : bool;
  error_ : string
}.

Definition initial : State :=
  {| session := None; loading := true; error_ := "" |}.

Definition setSession (s : option AuthSession) (st : State) : State :=
  {| session := s; loading := loading st; error_ := error_ st |}.

Definition setLoading (b : bool) (st : State) : State :=
  {| session := session st; loading := b; error_ := error_ st |}.

Definition setError (e : string) (st : State) : State :=
  {| session := session st; loading := loading st; error_ := e |}.

Inductive Screen :=
| Loading
| SignIn (error : option string)
| Children.

Definition render (st : State) : Screen :=
  if loading st then Loading
  else match session st with
       | None => SignIn (shown (error_ st))
       | Some _ => Children
       end.

Section WithApi.
Context {S : Type} {api : Api S}.

Definition Handler (A : Type) : Type := Component.C (World S) State A.

(** [supabase.auth.getSession().then(...).catch(...)] of the effect. *)
Definition on_mount : Handler unit :=
  try_catch
    (s <- lift (await GetSession getSession) ;;
     set (setSession s) ;;;
     set (setLoading false))
    (fun err =>
       lift (console_error "Failed to get session:") ;;;
       set (setError (auth_error err)) ;;;
       set (setLoading false)).

(** The callback registered with [onAuthStateChange]. *)
Definition onAuthStateChange (s : option AuthSession) : Handler unit :=
  set (setSession s) ;;;
  set (setLoading false).

Definition handleGoogleSignIn : Handler unit :=
  set (setLoading true) ;;;
  set (setError "") ;;;
  redirectTo <- lift get_redirectTo ;;
  r <- lift (await (SignInWithOAuth "google" redirectTo)
               (signInWithOAuth "google" redirectTo)) ;;
  match error r with
  | Some signInError =>
      set (setError (message signInError)) ;;;
      set (setLoading false)
  | None => ret tt
  end.

Definition handleSignOut : Handler unit :=
  set (setLoading true) ;;;
  lift (await SignOut signOut) ;;;
  set (setSession None) ;;;
  set (setLoading false).

End WithApi.

End Google.

(** *** Sign-in with a magic link *)

Module MagicLink.

Record State := {
  email : string;
  session : option AuthSession;
  loading : bool;
  message_ : string;
  error_ : string
}.

Definition initial : State :=
  {| email := ""; session := None; loading := false; message_ := "";
     error_ := "" |}.

Definition setEmail (e : string) (st : State) : State :=
  {| email := e; session := session st; loading := loading st;
     message_ := message_ st; error_ := error_ st |}.

Definition setSession (s : option AuthSession) (st : State) : State :=
  {| email := email st; session := s; loading := loading st;
     message_ := message_ st; error_ := error_ st |}.

Definition setLoading (b : bool) (st : State) : State :=
  {| email := email st; session := session st; loading := b;
     message_ := message_ st; error_ := error_ st |}.

Definition setMessage (m : string) (st : State) : State :=
  {| email := email st; session := session st; loading := loading st;
     message_ := m; error_ := error_ st |}.

Definition setError (e : string) (st : State) : State :=
  {| email := email st; session := session st; loading := loading st;
     message_ := message_ st; error_ := e |}.

(** The sign-in form: its input and button are disabled while loading. *)
Record SignInForm := {
  input_value : string;
  disabled : bool;
  button : string;
  shown_message : option string;
  shown_error : option string
}.

Inductive Screen :=
| SignIn (form : SignInForm)
| Children (sign_out_disabled : bool).

Definition render (st : State) : Screen :=
  match session st with
  | None =>
      SignIn {| input_value := email st;
                disabled := loading st;
                button := if loading st then "Sending..."
                          else "Send Magic Link";
                shown_message := shown (message_ st);
                shown_error := shown (error_ st) |}
  | Some _ => Children (loading st)
  end.

Section WithApi.
Context {S : Type} {api : Api S}.

Definition Handler (A : Type) : Type := Component.C (World S) State A.

(** [supabase.auth.getSession().then(...).catch(...)] of the effect. *)
Definition on_mount : Handler unit :=
  try_catch
    (s <- lift (await GetSession getSession) ;;
     set (setSession s))
    (fun err =>
       lift (console_error "Failed to get session:") ;;;
       set (setError (auth_error err))).

(** The callback registered with [onAuthStateChange]. *)
Definition onAuthStateChange (s : option AuthSession) : Handler unit :=
  set (setSession s).

(** [handleSignIn]; the address sent is the one of the render the
    handler belongs to. *)
Definition handleSignIn : Handler unit :=
  st0 <- get ;;
  set (setLoading true) ;;;
  set (setError "") ;;;
  set (setMessage "") ;;;
  r <- lift (await (SignInWithOtp (email st0)) (signInWithOtp (email st0))) ;;
  match error r with
  | Some signInError => set (setError (message signInError))
  | None =>
      set (setMessage "Check your email for the magic link!") ;;;
      set (setEmail "")
  end ;;;
  set (setLoading false).

Definition handleSignOut : Handler unit :=
  set (setLoading true) ;;;
  lift (await SignOut signOut) ;;;
  set (setLoading false).

End WithApi.

End MagicLink.

End AuthUi.

(* ================================================================= *)
(** ** What a fetch is expected to return, read off the tables *)

Module Expected.
Import Supabase.

(** The tasks of a session row, as the tasks query orders them. *)
Definition tasks_of (db : PgStore.Db) (r : SessionRow) : list TaskRow :=
  PgStore.sort_rows (PgStore.leb_by PgStore.compare_task_column
                       Remote.tasks_order)
    (filter (fun t => (session_id t =? id r)%string)
       (PgStore.session_tasks db)).

Definition with_tasks (db : PgStore.Db) (r : SessionRow) : SessionWithTasks :=
  {| row := r; tasks := tasks_of db r |}.

(** The rows of the sessions table, as the sessions query orders them. *)
Definition ordered_sessions (db : PgStore.Db) : list SessionRow :=
  PgStore.sort_rows (PgStore.leb_by PgStore.compare_session_column
                       Remote.sessions_order)
    (PgStore.sessions db).

Definition fetched (db : PgStore.Db) : list SessionWithTasks :=
  map (with_tasks db) (ordered_sessions db).

(** The queries of a fetch: one for the sessions, then one per session. *)
Definition queries (db : PgStore.Db) : list Event :=
  (SelectSessions Remote.sessions_order, Succeeded)
  :: map (fun r => (SelectTasks (id r) Remote.tasks_order, Succeeded))
       (ordered_sessions db).

(** The rows a create adds: the session takes the next serial number,
    the tasks the ones after it. *)
Definition created_tasks (db : PgStore.Db) (ts : list TaskData)
    : list TaskRow :=
  PgStore.new_task_rows (PgStore.serial db + 1)
    (map (Remote.stamp (PgStore.gen_id (PgStore.serial db))) ts).

Definition created (db : PgStore.Db) (d : SessionData) (ts : list TaskData)
    : SessionWithTasks :=
  {| row := PgStore.new_session_row (PgStore.serial db) d;
     tasks := created_tasks db ts |}.

(** The calls of a create. *)
Definition inserts (db : PgStore.Db) (d : SessionData) (ts : list TaskData)
    : list Event :=
  (InsertSession d, Succeeded)
  :: match ts with
     | [] => []
     | _ :: _ =>
         [(InsertTasks (map (Remote.stamp (PgStore.gen_id (PgStore.serial db)))
                          ts),
           Succeeded)]
     end.

(** A run that found the backend healthy and left it so, with the same
    rows, the same console and the same day. *)
Definition read_only (w w' : Remote.World PgStore.Db) : Prop :=
  PgStore.healthy (Remote.backend w') = true /\
  PgStore.same_tables (Remote.backend w) (Remote.backend w') /\
  PgStore.serial (Remote.backend w') = PgStore.serial (Remote.backend w) /\
  Remote.console w' = Remote.console w /\
  Remote.today w' = Remote.today w.

End Expected.

(* ================================================================= *)
(** ** More sample data *)

Module Scenario.
Import Supabase.

(** A day's draft, ready to be saved. *)
Definition draft : SessionEntry :=
  {| e_id := ""; date := "2024-01-04"; sessionType := "Yellow";
     plannedMinutes := Js.Num 45; actualMinutes := Some (Js.Num 40);
     tasksCompleted := Some (Js.Num 3); energyAfter := "Better";
     notes_ := "deep work" |}.

Definition remote_state : Remote.AppState :=
  {| Remote.st_sessions := []; Remote.st_isAuthenticated := true;
     Remote.st_isLoading := false; Remote.st_form := draft;
     Remote.st_error := None |}.


Definition tasks : list TaskData :=
  [ {| t_task_name := "write"; t_sort_order := Some 2%Z;
       t_planned_minutes := None; t_completed := false; t_user_id := "u1" |};
    {| t_task_name := "read"; t_sort_order := Some 1%Z;
       t_planned_minutes := Some 20%Z; t_completed := true;
       t_user_id := "u1" |} ].

(** A browser that refuses every write to its storage. *)
Definition full_browser (items : list (string * string)) : Local.World :=
  {| Local.localStorage :=
       {| Local.items := items; Local.accepts := fun _ _ => false |};
     Local.console := []; Local.today := Sample.day;
     Local.fresh := fun n => PgStore.gen_id n; Local.drawn := 0 |}.

Definition local_state (E : list SessionEntry) : Local.AppState :=
  {| Local.st_sessions := map Local.entry_value E; Local.sessions_ref := 4;
     Local.st_form := draft; Local.st_error := None |}.

(** [Number] on the decimal text of a natural number, which is all the
    examples type. *)
Definition Number (text : string) : Js.number :=
  match NilEmpty.uint_of_string text with
  | Some u => Js.Num (Z.of_N (N.of_uint u))
  | None => Js.NaN
  end.

End Scenario.


(* ================================================================= *)
(** * Properties *)

(** ** Runs and their call logs *)

Import Supabase.

Lemma issued_app {S} (w w' : Remote.World S) (l : list Event) :
  Remote.calls w' = (Remote.calls w ++ l)%list -> Remote.issued w w' = l.
Proof.
  intros E. unfold Remote.issued. rewrite E.
  rewrite skipn_app, Nat.sub_diag, skipn_all. reflexivity.
Qed.

Ltac unfold_run :=
  unfold Remote.handleDelete, Remote.loadSessions, Remote.saveSessions,
    Remote.createSessionWithTasks, Remote.fetchSessionsWithTasks,
    Remote.getSession, Remote.console_error, Remote.get_today,
    Eff.try_catch, Eff.bind, Eff.throw, Eff.ret, Remote.await in *.

(** The three ways the next call of the reference backend can go. *)
Lemma guarded_cases {D} (run : PgStore.Db -> Response D * PgStore.Db)
    (db : PgStore.Db) :
  (exists cause rest,
      PgStore.faults db = Some (PgStore.Reject cause) :: rest /\
      PgStore.guarded run db
      = (Js.Normal (PgStore.failed cause), PgStore.with_faults rest db)) \/
  (exists v rest,
      PgStore.faults db = Some (PgStore.Raise v) :: rest /\
      PgStore.guarded run db = (Js.Throw v, PgStore.with_faults rest db)) \/
  (exists db',
      (PgStore.faults db = [] /\ db' = db \/
       exists rest, PgStore.faults db = None :: rest /\
                    db' = PgStore.with_faults rest db) /\
      PgStore.guarded run db = (Js.Normal (fst (run db')), snd (run db'))).
Proof.
  unfold PgStore.guarded, PgStore.next_fault.
  destruct (PgStore.faults db) as [|[[cause|v]|] rest] eqn:F.
  - right; right. exists db. split; [left; auto|]. destruct (run db); reflexivity.
  - left. eauto.
  - right; left. eauto.
  - right; right. exists (PgStore.with_faults rest db).
    split; [right; eauto|]. destruct (run _); reflexivity.
Qed.

(** ** Creating a session with its tasks *)





(** C2. Whatever the payload, [createSessionWithTasks] with no tasks
    returns normally once the store has accepted the session insert: the
    result carries the inserted row, with the id and creation time the
    store assigned, and an empty task list, and no task insert is issued. *)
Theorem create_without_tasks_succeeds :
  forall (S : Type) (client : Client S) (w : Remote.World S)
         (sessionData : SessionData) (session : SessionRow) (s' : S),
    insert_session sessionData (Remote.backend w)
    = (Js.Normal {| data := Some session; error := None |}, s') ->
    let run := Remote.createSessionWithTasks sessionData [] w in
    (exists result,
        fst run = Js.Normal result /\
        tasks result = [] /\
        row result = session /\
        id (row result) = id session /\
        created_at (row result) = created_at session) /\
    Remote.issued w (snd run) = [(InsertSession sessionData, Succeeded)] /\
    Remote.backend (snd run) = s'.
Proof.
  intros S client w d session s' E run. subst run. unfold_run.
  rewrite E. cbn. split; [eexists; repeat split|].
  split; [apply issued_app|]; reflexivity.
Qed.

Lemma create_without_tasks_on_sample :
  let run :=
    Remote.createSessionWithTasks Sample.sessionData []
      (PgStore.world Sample.db Sample.day) in
  (exists result,
      fst run = Js.Normal result /\
      tasks result = [] /\
      row result = PgStore.new_session_row 7 Sample.sessionData /\
      id (row result) = "id-7" /\
      created_at (row result) = "t-7") /\
  Remote.issued (PgStore.world Sample.db Sample.day) (snd run)
  = [(InsertSession Sample.sessionData, Succeeded)] /\
  Remote.backend (snd run)
  = snd (PgStore.run_insert_session Sample.sessionData Sample.db).
Proof.
  exact (create_without_tasks_succeeds PgStore.Db PgStore.client
           (PgStore.world Sample.db Sample.day) Sample.sessionData
           (PgStore.new_session_row 7 Sample.sessionData)
           (snd (PgStore.run_insert_session Sample.sessionData Sample.db))
           eq_refl).
Defined.

(** ** Sorting rows *)

Lemma before_cons_inv {A} (a b x : A) (l : list A) :
  before a b (x :: l) -> (a = x /\ In b l) \/ before a b l.
Proof.
  intros (l1 & l2 & l3 & E). destruct l1 as [|y l1]; cbn in E.
  - injection E as <- ->. left. split; auto.
    apply in_or_app. right. left. reflexivity.
  - injection E as <- ->. right. exists l1, l2, l3. reflexivity.
Qed.

Lemma StronglySorted_before {A} (R : A -> A -> Prop) (l : list A) :
  StronglySorted R l -> forall a b, before a b l -> R a b.
Proof.
  induction 1 as [|x l Hl IH Hx]; intros a b Hb.
  - destruct Hb as (l1 & l2 & l3 & E). destruct l1; discriminate.
  - apply before_cons_inv in Hb. destruct Hb as [[-> Hin] | Hb].
    + rewrite Forall_forall in Hx. auto.
    + auto.
Qed.

Lemma before_map {A B} (f : A -> B) (a b : A) (l : list A) :
  before a b l -> before (f a) (f b) (map f l).
Proof.
  intros (l1 & l2 & l3 & ->). exists (map f l1), (map f l2), (map f l3).
  rewrite map_app. cbn. rewrite map_app. reflexivity.
Qed.

Lemma Sorted_impl {A} (P Q : A -> A -> Prop) (l : list A) :
  (forall a b, P a b -> Q a b) -> Sorted P l -> Sorted Q l.
Proof.
  intros PQ. induction 1 as [|x l Hl IH Hx]; constructor; auto.
  destruct Hx; constructor; auto.
Qed.

Section InsertionSort.
Context {R : Type} (leb : R -> R -> bool).
Hypothesis leb_total : forall a b, leb a b = true \/ leb b a = true.

Let le (a b : R) : Prop := leb a b = true.

Lemma insert_sorted_HdRel (a x : R) (l : list R) :
  le a x -> HdRel le a l -> HdRel le a (PgStore.insert_sorted leb x l).
Proof.
  intros Hax Hl. destruct l as [|y l]; cbn.
  - constructor. exact Hax.
  - destruct (leb x y); constructor; auto. inversion Hl; auto.
Qed.

Lemma insert_sorted_Sorted (x : R) (l : list R) :
  Sorted le l -> Sorted le (PgStore.insert_sorted leb x l).
Proof.
  induction 1 as [|y l Hl IH Hy]; cbn.
  - repeat constructor.
  - destruct (leb x y) eqn:E.
    + constructor; [constructor; auto|]. constructor. exact E.
    + constructor; [exact IH|]. apply insert_sorted_HdRel; auto.
      destruct (leb_total x y) as [H|H]; [congruence|exact H].
Qed.

Lemma sort_rows_Sorted (l : list R) : Sorted le (PgStore.sort_rows leb l).
Proof.
  induction l as [|x l IH]; cbn; [constructor|].
  apply insert_sorted_Sorted. exact IH.
Qed.

End InsertionSort.

Lemma In_insert_sorted {R} (leb : R -> R -> bool) (x y : R) (l : list R) :
  In y (PgStore.insert_sorted leb x l) <-> y = x \/ In y l.
Proof.
  induction l as [|z l IH]; cbn.
  - intuition.
  - destruct (leb x z); cbn; rewrite ?IH; intuition.
Qed.

Lemma In_sort_rows {R} (leb : R -> R -> bool) (y : R) (l : list R) :
  In y (PgStore.sort_rows leb l) <-> In y l.
Proof.
  induction l as [|x l IH]; cbn; [tauto|].
  rewrite In_insert_sorted, IH. intuition.
Qed.

(** ** The order on strings *)

Lemma compare_Lt_trans (a b c : string) :
  String.compare a b = Lt -> String.compare b c = Lt -> String.compare a c = Lt.
Proof.
  intros H1 H2. apply String_as_OT.cmp_lt.
  apply String_as_OT.cmp_lt in H1. apply String_as_OT.cmp_lt in H2.
  eapply String_as_OT.lt_trans; eauto.
Qed.

Lemma compare_Eq (a b : string) : String.compare a b = Eq <-> a = b.
Proof. apply String_as_OT.cmp_eq. Qed.

Lemma ltb_Lt (a b : string) : String.ltb a b = true <-> String.compare a b = Lt.
Proof. unfold String.ltb. destruct (String.compare a b); split; congruence. Qed.

Lemma leb_not_Gt (a b : string) :
  String.leb a b = true <-> String.compare a b <> Gt.
Proof. unfold String.leb. destruct (String.compare a b); split; congruence. Qed.

Lemma leb_trans (a b c : string) :
  String.leb a b = true -> String.leb b c = true -> String.leb a c = true.
Proof.
  rewrite !leb_not_Gt. intros H1 H2.
  destruct (String.compare a b) eqn:E1; try congruence.
  - apply compare_Eq in E1. subst. exact H2.
  - destruct (String.compare b c) eqn:E2; try congruence.
    + apply compare_Eq in E2. subst. rewrite E1. congruence.
    + rewrite (compare_Lt_trans _ _ _ E1 E2). congruence.
Qed.

(** ** The orders [fetchSessionsWithTasks] asks for *)

Lemma sessions_order_newest_first (a b : SessionRow) :
  PgStore.leb_by PgStore.compare_session_column Remote.sessions_order a b = true
  <-> newest_first a b.
Proof.
  unfold PgStore.leb_by, newest_first. cbn.
  rewrite ltb_Lt, leb_not_Gt.
  rewrite (String.compare_antisym (session_date a) (session_date b)).
  rewrite (String.compare_antisym (created_at a) (created_at b)).
  destruct (String.compare (session_date b) (session_date a)) eqn:Ed; cbn.
  - apply compare_Eq in Ed.
    destruct (String.compare (created_at b) (created_at a)); cbn;
      split; intros H; try congruence; auto.
    + right. split; congruence.
    + right. split; congruence.
    + destruct H as [H|[_ H]]; congruence.
  - split; auto.
  - split; try congruence. intros [H|[H _]]; try congruence.
    rewrite H in Ed. rewrite (proj2 (compare_Eq _ _) eq_refl) in Ed. congruence.
Qed.

Lemma sessions_order_total (a b : SessionRow) :
  PgStore.leb_by PgStore.compare_session_column Remote.sessions_order a b = true
  \/ PgStore.leb_by PgStore.compare_session_column Remote.sessions_order b a
     = true.
Proof.
  unfold PgStore.leb_by. cbn.
  rewrite (String.compare_antisym (session_date a) (session_date b)).
  rewrite (String.compare_antisym (created_at a) (created_at b)).
  destruct (String.compare (session_date b) (session_date a)); cbn; auto.
  destruct (String.compare (created_at b) (created_at a)); cbn; auto.
Qed.

Lemma newest_first_trans : Transitive newest_first.
Proof.
  intros a b c [H1|[E1 H1]] [H2|[E2 H2]]; unfold newest_first.
  - left. rewrite ltb_Lt in *. eapply compare_Lt_trans; eauto.
  - left. rewrite <- E2. exact H1.
  - left. rewrite E1. exact H2.
  - right. split; [congruence|]. eapply leb_trans; eauto.
Qed.

Lemma tasks_order_le (a b : TaskRow) :
  PgStore.leb_by PgStore.compare_task_column Remote.tasks_order a b = true
  <-> sort_order_le a b.
Proof.
  unfold PgStore.leb_by, sort_order_le. cbn.
  unfold PgStore.compare_nullable.
  destruct (sort_order a) as [x|], (sort_order b) as [y|]; cbn;
    try (intuition congruence).
  destruct (Z.compare_spec x y); intuition (try congruence; try lia).
Qed.

Lemma tasks_order_total (a b : TaskRow) :
  PgStore.leb_by PgStore.compare_task_column Remote.tasks_order a b = true \/
  PgStore.leb_by PgStore.compare_task_column Remote.tasks_order b a = true.
Proof.
  rewrite !tasks_order_le. unfold sort_order_le.
  destruct (sort_order a), (sort_order b); auto. lia.
Qed.

Lemma sort_order_le_trans : Transitive sort_order_le.
Proof.
  intros a b c. unfold sort_order_le.
  destruct (sort_order a), (sort_order b), (sort_order c);
    intuition (try lia).
Qed.

Lemma sorted_sessions (l : list SessionRow) :
  StronglySorted newest_first
    (PgStore.sort_rows
       (PgStore.leb_by PgStore.compare_session_column Remote.sessions_order) l).
Proof.
  apply Sorted_StronglySorted; [exact newest_first_trans|].
  eapply Sorted_impl; [|apply sort_rows_Sorted, sessions_order_total].
  intros a b. apply sessions_order_newest_first.
Qed.

Lemma sorted_tasks (l : list TaskRow) :
  StronglySorted sort_order_le
    (PgStore.sort_rows
       (PgStore.leb_by PgStore.compare_task_column Remote.tasks_order) l).
Proof.
  apply Sorted_StronglySorted; [exact sort_order_le_trans|].
  eapply Sorted_impl; [|apply sort_rows_Sorted, tasks_order_total].
  intros a b. apply tasks_order_le.
Qed.

(** ** What the reference backend answers to the two queries *)

Lemma pg_select_tasks_sorted (sid : string) (db db' : PgStore.Db)
    (r : Response (list TaskRow)) :
  select_tasks sid Remote.tasks_order db = (Js.Normal r, db') ->
  error r = None ->
  StronglySorted sort_order_le (Remote.or_empty (data r)).
Proof.
  cbn [select_tasks PgStore.client]. intros E He.
  destruct (guarded_cases (PgStore.run_select_tasks sid Remote.tasks_order) db)
    as [(cause & rest & F & G) | [(v & rest & F & G) | (db1 & Hdb1 & G)]];
    rewrite G in E; try discriminate; injection E as Hr Hdb; subst r;
    try discriminate.
  cbn. apply sorted_tasks.
Qed.

Lemma pg_select_sessions_sorted (db db' : PgStore.Db)
    (r : Response (list SessionRow)) (rows : list SessionRow) :
  select_sessions Remote.sessions_order db = (Js.Normal r, db') ->
  error r = None -> data r = Some rows ->
  StronglySorted newest_first rows.
Proof.
  cbn [select_sessions PgStore.client]. intros E He Hd.
  destruct (guarded_cases (PgStore.run_select_sessions Remote.sessions_order) db)
    as [(cause & rest & F & G) | [(v & rest & F & G) | (db1 & Hdb1 & G)]];
    rewrite G in E; try discriminate; injection E as Hr Hdb; subst r;
    try discriminate.
  cbn in Hd. injection Hd as <-. apply sorted_sessions.
Qed.

(** Whatever the store, the loop keeps the rows in the order it was given
    them. *)
Lemma fetch_tasks_loop_rows {S : Type} {client : Client S}
    (sessions : list SessionRow) :
  forall (acc : list SessionWithTasks) (w : Remote.World S)
         (l : list SessionWithTasks),
    fst (Remote.fetch_tasks_loop sessions acc w) = Js.Normal l ->
    map row l = (map row acc ++ sessions)%list.
Proof.
  induction sessions as [|session rest IH]; intros acc w l.
  - cbn. intros E. injection E as <-. rewrite app_nil_r. reflexivity.
  - cbn [Remote.fetch_tasks_loop]. unfold_run.
    destruct (select_tasks (id session) Remote.tasks_order (Remote.backend w))
      as [[r|v] s1]; [|discriminate].
    destruct (error r) as [e|]; [discriminate|].
    intros R. apply IH in R. rewrite map_app in R. cbn in R.
    rewrite <- app_assoc in R. exact R.
Qed.

(** On the reference backend, it attaches to each row tasks in ascending
    order. *)
Lemma pg_fetch_tasks_loop_sorted (sessions : list SessionRow) :
  forall (acc : list SessionWithTasks) (w : Remote.World PgStore.Db)
         (l : list SessionWithTasks),
    fst (Remote.fetch_tasks_loop sessions acc w) = Js.Normal l ->
    Forall tasks_sorted acc -> Forall tasks_sorted l.
Proof.
  induction sessions as [|session rest IH]; intros acc w l.
  - cbn. intros E. injection E as <-. auto.
  - cbn [Remote.fetch_tasks_loop]. unfold_run.
    destruct (select_tasks (id session) Remote.tasks_order (Remote.backend w))
      as [[r|v] s1] eqn:E; [|discriminate].
    destruct (error r) as [e|] eqn:He; [discriminate|].
    intros R Hacc. apply (IH _ _ _ R).
    apply Forall_app. split; [exact Hacc|]. constructor; [|constructor].
    unfold tasks_sorted. cbn. eapply pg_select_tasks_sorted; eauto.
Qed.

(** Whatever the store, the sessions come back in the order in which the
    store delivered them. *)
Lemma fetch_rows_in_store_order {S : Type} {client : Client S}
    (w : Remote.World S) (l : list SessionWithTasks)
    (r : Response (list SessionRow)) (s1 : S) :
  fst (Remote.fetchSessionsWithTasks w) = Js.Normal l ->
  select_sessions [Remote.desc c_session_date; Remote.desc c_created_at]
    (Remote.backend w) = (Js.Normal r, s1) ->
  map row l = Remote.or_empty (data r).
Proof.
  intros R E. unfold_run. unfold Remote.sessions_order in R.
  rewrite E in R. destruct (error r) as [e|]; [discriminate|].
  destruct (data r) as [[|session rest]|].
  1,3: cbn in R; injection R as <-; reflexivity.
  match type of R with
  | context [Remote.fetch_tasks_loop ?ss ?a ?x] =>
      pose proof (fetch_tasks_loop_rows ss a x) as Lrows;
      destruct (Remote.fetch_tasks_loop ss a x) as [[l'|v] w2]
  end; [|discriminate].
  cbn in R. injection R as ->. exact (Lrows l eq_refl).
Qed.

Lemma pg_fetch_sorted :
  forall (w : Remote.World PgStore.Db) (l : list SessionWithTasks),
    fst (Remote.fetchSessionsWithTasks w) = Js.Normal l ->
    (forall a b, before a b l -> newest_first (row a) (row b)) /\
    (forall s, In s l ->
       forall t1 t2, before t1 t2 (tasks s) -> sort_order_le t1 t2).
Proof.
  intros w l. unfold_run.
  destruct (select_sessions Remote.sessions_order (Remote.backend w))
    as [[r|v] s1] eqn:E; [|discriminate].
  destruct (error r) as [e|] eqn:He; [discriminate|].
  destruct (data r) as [[|session rest]|] eqn:Hd.
  1,3: cbn; intros R; injection R as <-; split;
    [intros a b (l1 & l2 & l3 & H); destruct l1; discriminate
    |intros s []].
  match goal with
  | |- context [Remote.fetch_tasks_loop ?ss ?a ?x] =>
      pose proof (fetch_tasks_loop_rows ss a x) as Lrows;
      pose proof (pg_fetch_tasks_loop_sorted ss a x) as Lsorted;
      destruct (Remote.fetch_tasks_loop ss a x) as [[l'|v] w2]
  end; [|discriminate].
  cbn. intros R. injection R as ->.
  pose proof (Lrows l eq_refl) as Hrows. cbn in Hrows.
  pose proof (Lsorted l eq_refl) as Hsorted.
  pose proof (pg_select_sessions_sorted _ _ _ _ E He Hd) as Hs.
  rewrite <- Hrows in Hs. split.
  - intros a b Hab. apply (StronglySorted_before _ _ Hs).
    apply before_map. exact Hab.
  - intros s Hin t1 t2 Ht.
    specialize (Hsorted (Forall_nil _)). rewrite Forall_forall in Hsorted.
    apply (StronglySorted_before _ _ (Hsorted s Hin)). exact Ht.
Qed.


(** C3. [fetchSessionsWithTasks] asks the store for the sessions by date,
    latest first, then by creation time, latest first, and for the tasks
    of each session by ascending [sort_order], and it returns the sessions
    in the order in which the store delivered them.  So against a store
    that orders as asked, here the reference backend, of two returned
    entries the earlier one has the later date, or the same date and a
    creation time that is not earlier; and the tasks of each returned
    session are in ascending [sort_order] (a null after every number). *)
Theorem fetchAll_newest_first_tasks_ascending :
  (forall (S : Type) (client : Client S) (w : Remote.World S)
          (l : list SessionWithTasks) (r : Response (list SessionRow))
          (s1 : S),
      fst (Remote.fetchSessionsWithTasks w) = Js.Normal l ->
      select_sessions [Remote.desc c_session_date; Remote.desc c_created_at]
        (Remote.backend w) = (Js.Normal r, s1) ->
      map row l = Remote.or_empty (data r)) /\
  (forall (w : Remote.World PgStore.Db) (l : list SessionWithTasks),
      fst (Remote.fetchSessionsWithTasks w) = Js.Normal l ->
      (forall a b, before a b l -> newest_first (row a) (row b)) /\
      (forall s, In s l ->
         forall t1 t2, before t1 t2 (tasks s) -> sort_order_le t1 t2)).
Proof.
  split.
  - intros S client. apply fetch_rows_in_store_order.
  - apply pg_fetch_sorted.
Qed.

(** On the sample backend the sessions come back as b, c, a and the tasks
    of a as t3, t2, t1. *)
Lemma fetchAll_sorted_on_sample :
  exists l,
    fst (Remote.fetchSessionsWithTasks (PgStore.world Sample.db Sample.day))
    = Js.Normal l /\
    map (fun s => id (row s)) l = ["b"; "c"; "a"] /\
    map (fun s => map task_id (tasks s)) l = [[]; []; ["t3"; "t2"; "t1"]] /\
    (forall a b, before a b l -> newest_first (row a) (row b)) /\
    (forall s, In s l ->
       forall t1 t2, before t1 t2 (tasks s) -> sort_order_le t1 t2).
Proof.
  eexists. split; [reflexivity|]. split; [reflexivity|].
  split; [reflexivity|].
  exact (proj2 fetchAll_newest_first_tasks_ascending
           (PgStore.world Sample.db Sample.day) _ eq_refl).
Defined.

(** ** Failures of the fetch *)

Section Loop.
Context {S : Type} {client : Client S}.

Lemma fetch_tasks_loop_log (sessions : list SessionRow) :
  forall (acc : list SessionWithTasks) (w : Remote.World S),
    exists evs,
      Remote.calls (snd (Remote.fetch_tasks_loop sessions acc w))
      = (Remote.calls w ++ evs)%list /\
      loop_outcome (fst (Remote.fetch_tasks_loop sessions acc w)) evs.
Proof.
  induction sessions as [|session rest IH]; intros acc w.
  - exists []. cbn. rewrite app_nil_r. split; [reflexivity|constructor].
  - cbn [Remote.fetch_tasks_loop]. unfold_run.
    destruct (select_tasks (id session) Remote.tasks_order (Remote.backend w))
      as [[r|v] s1] eqn:E.
    + destruct (error r) as [e|] eqn:He.
      * cbn. rewrite He. eexists. split; [reflexivity|].
        exists [], (id session), (Rejected (message e)).
        split; [reflexivity|]. split; [constructor|reflexivity].
      * cbn [Remote.outcome_of]. rewrite He.
        match goal with
        | |- context [Remote.fetch_tasks_loop rest ?a ?x] =>
            destruct (IH a x) as (evs & Hc & Ho)
        end.
        eexists. split.
        { rewrite Hc. cbn [Remote.calls]. rewrite <- app_assoc. reflexivity. }
        destruct (fst (Remote.fetch_tasks_loop rest _ _)) as [l|v];
          cbn [loop_outcome] in *.
        -- constructor; [reflexivity|exact Ho].
        -- destruct Ho as (oks & sid & o & -> & Hoks & Hv).
           exists ((SelectTasks (id session) Remote.tasks_order, Succeeded)
                   :: oks), sid, o.
           split; [reflexivity|]. split; [|exact Hv].
           constructor; [reflexivity|exact Hoks].
    + cbn. eexists. split; [reflexivity|].
      exists [], (id session), (Raised v).
      split; [reflexivity|]. split; [constructor|reflexivity].
Qed.

End Loop.

Lemma succeeded_not_failed (evs : list Event) (req : Request) (o : Outcome) :
  Forall succeeded evs -> In (req, o) evs -> o = Succeeded.
Proof.
  intros H Hin. rewrite Forall_forall in H. apply (H _ Hin).
Qed.

(** C4. When the session query is rejected, or the task query of any one
    session is rejected, [fetchSessionsWithTasks] throws: it returns no
    list at all, and the message of the error it throws ends with the
    cause the store gave (after the function's name, what was being
    fetched and, for tasks, the session's id).  A query whose promise
    rejects with an error aborts the call in the same way. *)
Theorem fetch_failure_aborts_with_cause :
  forall (S : Type) (client : Client S) (w : Remote.World S),
    let run := Remote.fetchSessionsWithTasks w in
    (forall order cause,
        In (SelectSessions order, Rejected cause) (Remote.issued w (snd run)) ->
        fst run = Js.Throw
                    (Js.Error ("fetchSessionsWithTasks failed: "
                               ++ "Failed to fetch sessions: " ++ cause))) /\
    (forall sid order cause,
        In (SelectTasks sid order, Rejected cause)
           (Remote.issued w (snd run)) ->
        fst run = Js.Throw
                    (Js.Error ("fetchSessionsWithTasks failed: "
                               ++ "Failed to fetch tasks for session " ++ sid
                               ++ ": " ++ cause))) /\
    (forall req v,
        In (req, Raised v) (Remote.issued w (snd run)) ->
        fst run = Js.Throw
                    (Js.Error ("fetchSessionsWithTasks failed: "
                               ++ Js.message_of v "Unknown error"))).
Proof.
  intros S client w run. subst run. unfold_run.
  destruct (select_sessions Remote.sessions_order (Remote.backend w))
    as [[r|v] s1] eqn:E.
  - destruct (error r) as [e|] eqn:He.
    + cbn. erewrite issued_app by reflexivity. rewrite He.
      repeat split.
      * intros order cause [H|[]]. injection H as _ <-. reflexivity.
      * intros sid order cause [H|[]]. discriminate.
      * intros req v [H|[]]. discriminate.
    + destruct (data r) as [[|session rest]|] eqn:Hd.
      1,3: cbn; erewrite issued_app by reflexivity; rewrite He;
        repeat split;
        [intros order cause [H|[]]|intros sid order cause [H|[]]
         |intros req v [H|[]]]; discriminate.
      match goal with
      | |- context [Remote.fetch_tasks_loop ?l ?a ?x] =>
          destruct (fetch_tasks_loop_log l a x) as (evs & Hc & Ho);
          destruct (Remote.fetch_tasks_loop l a x) as [c w2] eqn:R
      end.
      cbn [fst snd] in Hc, Ho. cbn [Remote.calls] in Hc.
      rewrite <- app_assoc in Hc. cbn [Remote.outcome_of] in Hc.
      rewrite ?He in Hc.
      destruct c as [l|v]; cbn [fst snd loop_outcome] in *.
      * rewrite (issued_app _ _ _ Hc); cbn [app In].
        repeat split.
        -- intros order cause [H|H]; [discriminate|].
           pose proof (succeeded_not_failed _ _ _ Ho H). discriminate.
        -- intros sid order cause [H|H]; [discriminate|].
           pose proof (succeeded_not_failed _ _ _ Ho H). discriminate.
        -- intros req v [H|H]; [discriminate|].
           pose proof (succeeded_not_failed _ _ _ Ho H). discriminate.
      * destruct Ho as (oks & sid0 & o & -> & Hoks & Hv).
        rewrite (issued_app _ _ _ Hc); cbn [app In].
        repeat split.
        -- intros order cause [H|H]; [discriminate|].
           apply in_app_or in H. destruct H as [H|[H|[]]].
           ++ pose proof (succeeded_not_failed _ _ _ Hoks H). discriminate.
           ++ discriminate.
        -- intros sid order cause [H|H]; [discriminate|].
           apply in_app_or in H. destruct H as [H|[H|[]]].
           ++ pose proof (succeeded_not_failed _ _ _ Hoks H). discriminate.
           ++ injection H as Hsid _ Ho. subst sid0 o v. reflexivity.
        -- intros req v' [H|H]; [discriminate|].
           apply in_app_or in H. destruct H as [H|[H|[]]].
           ++ pose proof (succeeded_not_failed _ _ _ Hoks H). discriminate.
           ++ injection H as _ Ho. subst o v. reflexivity.
  - cbn. erewrite issued_app by reflexivity.
    repeat split.
    + intros order cause [H|[]]. discriminate.
    + intros sid order cause [H|[]]. discriminate.
    + intros req v' [H|[]]. injection H as _ <-. reflexivity.
Qed.

(** The task query of the second session fails: two sessions had been
    fetched by then, and nothing is returned. *)
Lemma fetch_aborts_on_second_task_query :
  let w :=
    PgStore.world
      (PgStore.with_faults [None; None; Some (PgStore.Reject "timeout")]
         Sample.db)
      Sample.day in
  In (SelectTasks "c" Remote.tasks_order, Rejected "timeout")
     (Remote.issued w (snd (Remote.fetchSessionsWithTasks w))) /\
  fst (Remote.fetchSessionsWithTasks w)
  = Js.Throw
      (Js.Error
         "fetchSessionsWithTasks failed: Failed to fetch tasks for session c: timeout").
Proof.
  cbv zeta.
  assert (H : In (SelectTasks "c" Remote.tasks_order, Rejected "timeout")
                (Remote.issued
                   (PgStore.world
                      (PgStore.with_faults
                         [None; None; Some (PgStore.Reject "timeout")]
                         Sample.db) Sample.day)
                   (snd (Remote.fetchSessionsWithTasks
                           (PgStore.world
                              (PgStore.with_faults
                                 [None; None; Some (PgStore.Reject "timeout")]
                                 Sample.db) Sample.day))))).
  { right. right. left. reflexivity. }
  split; [exact H|].
  exact (proj1 (proj2 (fetch_failure_aborts_with_cause PgStore.Db
                         PgStore.client _)) "c" Remote.tasks_order "timeout" H).
Defined.

(** ** Identity *)

(** C5 as the claim states it fails for loading: with nobody signed in,
    [loadSessions] does not reject, it answers the empty list. *)
Lemma load_signed_out_answers_empty_list :
  PgStore.auth Sample.signed_out = None /\
  fst (Remote.loadSessions (PgStore.world Sample.signed_out Sample.day))
  = Js.Normal [] /\
  (forall v,
      fst (Remote.loadSessions (PgStore.world Sample.signed_out Sample.day))
      <> Js.Throw v).
Proof.
  split; [reflexivity|]. split; [reflexivity|]. intros v. discriminate.
Qed.

(** C5, amended. With nobody signed in, [saveSessions] throws the error
    "Not authenticated" and [loadSessions] returns the empty list; in both
    cases the identity lookup is the only call made, so no table is read
    or written. *)
Theorem signed_out_save_rejects_and_load_is_empty :
  forall (S : Type) (client : Client S) (w : Remote.World S) (s' : S),
    auth_getSession (Remote.backend w) = (Js.Normal None, s') ->
    (forall entry,
        fst (Remote.saveSessions entry w)
        = Js.Throw (Js.Error "Not authenticated") /\
        Remote.issued w (snd (Remote.saveSessions entry w))
        = [(AuthGetSession, Succeeded)]) /\
    fst (Remote.loadSessions w) = Js.Normal [] /\
    Remote.issued w (snd (Remote.loadSessions w))
    = [(AuthGetSession, Succeeded)] /\
    is_store_call AuthGetSession = false.
Proof.
  intros S client w s' E.
  unfold Remote.loadSessions, Remote.saveSessions, Remote.getSession,
    Remote.console_error, Eff.try_catch, Eff.bind, Eff.throw, Eff.ret.
  rewrite E. cbn. repeat split; try apply issued_app; reflexivity.
Qed.

Lemma signed_out_on_sample :
  (forall entry,
      fst (Remote.saveSessions entry
             (PgStore.world Sample.signed_out Sample.day))
      = Js.Throw (Js.Error "Not authenticated") /\
      Remote.issued (PgStore.world Sample.signed_out Sample.day)
        (snd (Remote.saveSessions entry
                (PgStore.world Sample.signed_out Sample.day)))
      = [(AuthGetSession, Succeeded)]) /\
  fst (Remote.loadSessions (PgStore.world Sample.signed_out Sample.day))
  = Js.Normal [] /\
  Remote.issued (PgStore.world Sample.signed_out Sample.day)
    (snd (Remote.loadSessions (PgStore.world Sample.signed_out Sample.day)))
  = [(AuthGetSession, Succeeded)] /\
  is_store_call AuthGetSession = false.
Proof.
  exact (signed_out_save_rejects_and_load_is_empty PgStore.Db PgStore.client
           (PgStore.world Sample.signed_out Sample.day) Sample.signed_out
           eq_refl).
Defined.

(** ** The mapping layer *)



(** ** Deleting *)

Lemma guarded_healthy {D} (run : PgStore.Db -> Response D * PgStore.Db)
    (db : PgStore.Db) :
  PgStore.healthy db = true ->
  exists db',
    PgStore.healthy db' = true /\ PgStore.same_tables db db' /\
    PgStore.serial db' = PgStore.serial db /\
    PgStore.guarded run db = (Js.Normal (fst (run db')), snd (run db')).
Proof.
  unfold PgStore.healthy, PgStore.guarded, PgStore.next_fault. intros H.
  destruct (PgStore.faults db) as [|[f|] rest] eqn:F; cbn in H;
    try discriminate.
  - exists db. unfold PgStore.healthy, PgStore.same_tables. rewrite F.
    destruct (run db). auto.
  - exists (PgStore.with_faults rest db). unfold PgStore.same_tables.
    destruct (run _). auto.
Qed.

Lemma healthy_fetch_tasks_loop (sessions : list SessionRow) :
  forall (acc : list SessionWithTasks) (w : Remote.World PgStore.Db),
    PgStore.healthy (Remote.backend w) = true ->
    exists l,
      fst (Remote.fetch_tasks_loop sessions acc w) = Js.Normal l /\
      map row l = (map row acc ++ sessions)%list /\
      Remote.console (snd (Remote.fetch_tasks_loop sessions acc w))
      = Remote.console w.
Proof.
  induction sessions as [|session rest IH]; intros acc w H.
  - exists acc. cbn. rewrite app_nil_r. auto.
  - cbn [Remote.fetch_tasks_loop]. unfold_run.
    cbn [select_tasks PgStore.client].
    destruct (guarded_healthy
                (PgStore.run_select_tasks (id session) Remote.tasks_order)
                _ H) as (db1 & H1 & _ & _ & ->).
    cbn [PgStore.run_select_tasks fst snd PgStore.ok error data].
    match goal with
    | |- context [Remote.fetch_tasks_loop rest ?a ?x] =>
        destruct (IH a x H1) as (l & E & Hrows & Hcons)
    end.
    exists l. split; [exact E|]. split; [|exact Hcons].
    rewrite Hrows, map_app. cbn. rewrite <- app_assoc. reflexivity.
Qed.

(** On a healthy backend with somebody signed in, a reload shows every
    row of the table. *)
Lemma healthy_load_shows_table (w : Remote.World PgStore.Db) (s : SessionRow) :
  PgStore.healthy (Remote.backend w) = true ->
  PgStore.auth (Remote.backend w) <> None ->
  In s (PgStore.sessions (Remote.backend w)) ->
  exists l e,
    fst (Remote.loadSessions w) = Js.Normal l /\ In e l /\ e_id e = id s /\
    Remote.console (snd (Remote.loadSessions w)) = Remote.console w.
Proof.
  intros H Hauth Hin. unfold_run.
  cbn [auth_getSession select_sessions PgStore.client].
  destruct (PgStore.auth (Remote.backend w)) as [a|] eqn:A; [|congruence].
  cbn [Remote.backend].
  destruct (guarded_healthy
              (PgStore.run_select_sessions Remote.sessions_order)
              _ H) as (db1 & H1 & (_ & Hs1 & _) & _ & ->).
  cbn [PgStore.run_select_sessions fst snd PgStore.ok error data].
  set (rows := PgStore.sort_rows _ (PgStore.sessions db1)).
  assert (Hrows : In s rows).
  { subst rows. apply In_sort_rows. rewrite Hs1. exact Hin. }
  destruct rows as [|r0 rows'] eqn:Erows; [destruct Hrows|].
  match goal with
  | |- context [Remote.fetch_tasks_loop ?ss ?a ?x] =>
      destruct (healthy_fetch_tasks_loop ss a x H1) as (l & E & Hl & Hc);
      destruct (Remote.fetch_tasks_loop ss a x) as [c w2]
  end.
  cbn [fst snd] in E, Hc. subst c. cbn in Hl.
  assert (Hin' : In s (map row l)) by (rewrite Hl; exact Hrows).
  apply in_map_iff in Hin'. destruct Hin' as (x & Hx & Hxl).
  exists (map Remote.toEntry l), (Remote.toEntry x). cbn.
  split; [reflexivity|]. split; [apply in_map; exact Hxl|].
  split; [rewrite <- Hx; reflexivity|exact Hc].
Qed.

(** Read failures are absorbed: a reload always yields a list. *)
Lemma loadSessions_total {S : Type} {client : Client S} (w : Remote.World S) :
  exists loaded, fst (Remote.loadSessions w) = Js.Normal loaded.
Proof.
  unfold Remote.loadSessions, Remote.getSession, Remote.console_error,
    Eff.try_catch, Eff.bind, Eff.ret.
  destruct (auth_getSession (Remote.backend w)) as [[[a|]|v] s1];
    cbn; eauto.
  destruct (Remote.fetchSessionsWithTasks _) as [[l|v] w2]; cbn; eauto.
Qed.

(** C10. [handleDelete] never throws and never touches the error the
    form shows, whatever the client does.  The answer of the delete call
    is not looked at: whether it carries an error or not, the handler
    reloads the list and installs what the reload returned.  When the
    delete call itself raises, the exception is written to the console and
    the state is left as it was.  So on the reference backend a rejected
    delete leaves the entry in the table and therefore in the reloaded
    list, with no error shown and nothing on the console. *)
Theorem delete_never_surfaces_a_failure :
  (forall (S : Type) (client : Client S) (w : Remote.World S) (sid : string)
          (st : Remote.AppState),
      let run := Remote.handleDelete sid st w in
      (exists st',
          fst run = Js.Normal st' /\
          Remote.st_error st' = Remote.st_error st /\
          Remote.st_form st' = Remote.st_form st) /\
      (forall resp s1,
          delete_session sid (Remote.backend w) = (Js.Normal resp, s1) ->
          let reload :=
            Remote.loadSessions
              {| Remote.backend := s1;
                 Remote.calls :=
                   Remote.calls w
                   ++ [(DeleteSession sid,
                        Remote.outcome_of (Js.Normal resp))];
                 Remote.console := Remote.console w;
                 Remote.today := Remote.today w |} in
          exists loaded,
            fst reload = Js.Normal loaded /\
            fst run = Js.Normal (Remote.setSessions loaded st) /\
            snd run = snd reload) /\
      (forall v s1,
          delete_session sid (Remote.backend w) = (Js.Throw v, s1) ->
          fst run = Js.Normal st /\
          Remote.console (snd run)
          = (Remote.console w ++ ["Failed to delete session"])%list /\
          Remote.issued w (snd run) = [(DeleteSession sid, Raised v)])) /\
  (forall (db : PgStore.Db) (day sid cause : string)
          (rest : list (option PgStore.Fault)) (st : Remote.AppState)
          (s : SessionRow),
      let run := Remote.handleDelete sid st (PgStore.world db day) in
      PgStore.faults db = Some (PgStore.Reject cause) :: rest ->
      PgStore.healthy (PgStore.with_faults rest db) = true ->
      PgStore.auth db <> None ->
      In s (PgStore.sessions db) -> id s = sid ->
      exists st' e,
        fst run = Js.Normal st' /\ In e (Remote.st_sessions st') /\
        e_id e = sid /\ Remote.st_error st' = Remote.st_error st /\
        Remote.console (snd run) = []).
Proof.
  split.
  - intros S client w sid st run. subst run.
    unfold Remote.handleDelete, Eff.try_catch, Eff.bind, Remote.await.
    destruct (delete_session sid (Remote.backend w)) as [[resp|v] s1] eqn:E.
    + match goal with
      | |- context [Remote.loadSessions ?x] =>
          destruct (loadSessions_total x) as (loaded & El);
          destruct (Remote.loadSessions x) as [c w2] eqn:R
      end.
      cbn [fst snd] in *. subst c. cbn [Eff.ret fst snd].
      split; [eexists; split; [reflexivity|split; reflexivity]|].
      split.
      * intros resp' s1' E'. injection E' as <- <-. cbn zeta.
        rewrite R. exists loaded. repeat split.
      * intros v s1' E'. discriminate.
    + cbn. split; [eexists; split; [reflexivity|split; reflexivity]|].
      split.
      * intros resp s1' E'. discriminate.
      * intros v' s1' E'. injection E' as <- <-.
        repeat split. apply issued_app. reflexivity.
  - intros db day sid cause rest st s run F Hrest Hauth Hin Hid. subst run.
    unfold Remote.handleDelete, Eff.try_catch, Eff.bind, Remote.await.
    cbn [PgStore.world Remote.backend Remote.calls Remote.console Remote.today
         delete_session PgStore.client app].
    destruct (guarded_cases (PgStore.run_delete_session sid) db)
      as [(cause' & rest' & F' & ->) | [(v & rest' & F' & ->)
                                       | (db1 & Hdb1 & ->)]].
    + rewrite F in F'. injection F' as <- <-.
      cbn [fst snd PgStore.failed error Remote.outcome_of message].
      match goal with
      | |- context [Remote.loadSessions ?x] =>
          destruct (healthy_load_shows_table x s Hrest Hauth Hin)
            as (l & e & El & Hel & He & Hc);
          destruct (Remote.loadSessions x) as [c w2] eqn:R
      end.
      cbn [fst snd] in *. subst c. cbn [Eff.ret fst snd].
      exists (Remote.setSessions l st), e. cbn.
      repeat split; auto; congruence.
    + rewrite F in F'. discriminate.
    + destruct Hdb1 as [[F' _]|(rest' & F' & _)]; rewrite F in F';
        discriminate.
Qed.

(** The store rejects the delete of session a: a is listed again, the
    form shows no error and the console is empty. *)
Lemma rejected_delete_is_silent_on_sample :
  let db := PgStore.with_faults [Some (PgStore.Reject "denied")] Sample.db in
  let run :=
    Remote.handleDelete "a" Sample.remote_state (PgStore.world db Sample.day) in
  exists st' e,
    fst run = Js.Normal st' /\ In e (Remote.st_sessions st') /\
    e_id e = "a" /\ Remote.st_error st' = None /\
    Remote.console (snd run) = [].
Proof.
  cbv zeta.
  refine (proj2 delete_never_surfaces_a_failure
            (PgStore.with_faults [Some (PgStore.Reject "denied")] Sample.db)
            Sample.day "a" "denied" [] Sample.remote_state
            (Sample.session "a" "2024-01-02" "2024-01-02T09:00:00Z" None)
            eq_refl eq_refl _ _ eq_refl).
  - discriminate.
  - left. reflexivity.
Defined.

(* ================================================================= *)
(** ** JSON: what is written is read back *)

Module JsonFacts.
Import JSON.

(** *** Strings *)

Lemma length_append (a b : string) :
  String.length (a ++ b) = String.length a + String.length b.
Proof. induction a as [|c a IH]; cbn; [reflexivity|]. rewrite IH. reflexivity. Qed.

Lemma append_assoc (a b c : string) : (a ++ b) ++ c = a ++ (b ++ c).
Proof. induction a as [|x a IH]; cbn; [reflexivity|]. rewrite IH. reflexivity. Qed.

Lemma append_nil (a : string) : a ++ "" = a.
Proof. induction a as [|x a IH]; cbn; [reflexivity|]. rewrite IH. reflexivity. Qed.

(** Reading back one escaped code unit. *)
Lemma read_string_escape (c : ascii) (tail : string) :
  read_string (escape c ++ tail) = cons_char c (read_string tail).
Proof.
  destruct c as [[] [] [] [] [] [] [] []]; reflexivity.
Qed.

Lemma read_string_escape_string (s rest : string) :
  read_string (escape_string s ++ String dquote rest) = Some (s, rest).
Proof.
  induction s as [|c s IH]; cbn [escape_string].
  - reflexivity.
  - rewrite append_assoc, read_string_escape, IH. reflexivity.
Qed.

Lemma read_string_quote (s rest : string) :
  head_is dquote (quote s ++ rest) = Some (escape_string s ++ String dquote rest)
  /\ read_string (escape_string s ++ String dquote rest) = Some (s, rest).
Proof.
  split; [|apply read_string_escape_string].
  unfold quote. cbn. rewrite append_assoc. reflexivity.
Qed.

(** *** Numbers *)

Lemma delimited_no_digit (rest : string) :
  delimited rest ->
  starts_with_digit rest = false /\ starts_fraction_or_exponent rest = false.
Proof.
  destruct rest as [|c rest]; cbn; [auto|].
  intros [-> | [-> | ->]]; split; reflexivity.
Qed.

Lemma take_digits_stop (rest : string) :
  starts_with_digit rest = false -> take_digits rest = (EmptyString, rest).
Proof.
  destruct rest as [|c rest]; cbn; [reflexivity|]. intros ->. reflexivity.
Qed.

Lemma take_digits_uint (d : Decimal.uint) (rest : string) :
  starts_with_digit rest = false ->
  take_digits (NilEmpty.string_of_uint d ++ rest)
  = (NilEmpty.string_of_uint d, rest).
Proof.
  intros H. induction d; cbn; [apply take_digits_stop; exact H|..];
    rewrite IHd; reflexivity.
Qed.

Lemma string_of_uint_head (d : Decimal.uint) :
  d <> Decimal.Nil ->
  exists c s, NilEmpty.string_of_uint d = String c s /\ is_digit c = true.
Proof.
  destruct d; [congruence|..]; intros _; cbn; eexists; eexists;
    split; reflexivity.
Qed.

Lemma to_uint_nonnil (n : N) : N.to_uint n <> Decimal.Nil.
Proof.
  destruct n; cbn; [discriminate|]. apply DecimalPos.Unsigned.to_uint_nonnil.
Qed.

Lemma digits_head (n : N) :
  exists c s, digits n = String c s /\ is_digit c = true.
Proof. apply string_of_uint_head, to_uint_nonnil. Qed.

Lemma digit_not_minus (c : ascii) :
  is_digit c = true -> (c =? "-")%char = false.
Proof.
  destruct c as [[] [] [] [] [] [] [] []]; cbn; congruence.
Qed.

Lemma read_number_digits (negative : bool) (n : N) (rest : string) :
  delimited rest ->
  (let (ds, rest') := take_digits (digits n ++ rest) in
   match NilEmpty.uint_of_string ds with
   | Some u =>
       let m := N.of_uint u in
       if negb (digits m =? ds)%string then None
       else if starts_fraction_or_exponent rest' then None
       else Some (Js.Num (if negative then - Z.of_N m else Z.of_N m), rest')
   | None => None
   end)
  = Some (Js.Num (if negative then - Z.of_N n else Z.of_N n), rest).
Proof.
  intros H. apply delimited_no_digit in H. destruct H as [Hd Hf].
  unfold digits. rewrite take_digits_uint by exact Hd.
  rewrite NilEmpty.usu. cbn zeta. rewrite DecimalN.Unsigned.of_to.
  rewrite String.eqb_refl. cbn. rewrite Hf. reflexivity.
Qed.

Lemma read_number_write (z : Z) (rest : string) :
  delimited rest ->
  read_number (write_number (Js.Num z) ++ rest) = Some (Js.Num z, rest).
Proof.
  intros H. unfold read_number, write_number.
  destruct (z <? 0)%Z eqn:Ez.
  - cbn [append]. cbn [Ascii.eqb Bool.eqb].
    rewrite (read_number_digits true) by exact H.
    apply Z.ltb_lt in Ez. rewrite Z2N.id by lia. do 3 f_equal. lia.
  - destruct (digits_head (Z.to_N z)) as (c & s & E & Hc).
    rewrite E. cbn [append]. rewrite (digit_not_minus c Hc).
    change (String c (s ++ rest)) with (String c s ++ rest). rewrite <- E.
    rewrite (read_number_digits false) by exact H.
    apply Z.ltb_ge in Ez. rewrite Z2N.id by lia. reflexivity.
Qed.

(** *** Values *)

Lemma write_opens (v : value) :
  exists c s, write v = String c s /\ opens_value c = true.
Proof.
  destruct v as [|[]|[|z]|s|l|ms]; cbn;
    try (eexists; eexists; split; reflexivity).
  destruct (z <? 0)%Z; [eexists; eexists; split; reflexivity|].
  destruct (digits_head (Z.to_N z)) as (c & s & -> & Hc).
  exists c, s. split; [reflexivity|]. unfold opens_value. rewrite Hc.
  reflexivity.
Qed.

Lemma opens_not_closing (c : ascii) (s : string) :
  opens_value c = true ->
  skip_ws (String c s) = String c s /\
  head_is "]" (String c s) = None /\ head_is "}" (String c s) = None.
Proof.
  destruct c as [[] [] [] [] [] [] [] []]; cbn; intros H;
    try discriminate; auto.
Qed.

Lemma read_value_string (fuel : nat) (body : string) :
  read_value (S fuel) (String dquote body)
  = match read_string body with
    | Some (str, rest) => Some (Str str, rest)
    | None => None
    end.
Proof. reflexivity. Qed.

Lemma read_value_array (fuel : nat) (body : string) :
  read_value (S fuel) (String "[" body)
  = match head_is "]" (skip_ws body) with
    | Some rest => Some (Array [], rest)
    | None =>
        match read_elements fuel body with
        | Some (l, rest) => Some (Array l, rest)
        | None => None
        end
    end.
Proof. reflexivity. Qed.

Lemma read_value_object (fuel : nat) (body : string) :
  read_value (S fuel) (String "{" body)
  = match head_is "}" (skip_ws body) with
    | Some rest => Some (Object [], rest)
    | None =>
        match read_members fuel body with
        | Some (ms, rest) => Some (object_of ms, rest)
        | None => None
        end
    end.
Proof. reflexivity. Qed.

Lemma read_value_number (fuel : nat) (c : ascii) (s : string) :
  is_digit c = true \/ c = "-"%char ->
  read_value (S fuel) (String c s)
  = match read_number (String c s) with
    | Some (n, rest) => Some (Number n, rest)
    | None => None
    end.
Proof.
  intros [H| ->]; [|reflexivity].
  destruct c as [[] [] [] [] [] [] [] []]; cbn in H; try discriminate;
    reflexivity.
Qed.

Lemma read_elements_step (fuel : nat) (s : string) :
  read_elements (S fuel) s
  = match read_value fuel s with
    | Some (v, rest) =>
        match head_is "," (skip_ws rest), head_is "]" (skip_ws rest) with
        | Some rest', _ =>
            match read_elements fuel rest' with
            | Some (l, rest'') => Some (v :: l, rest'')
            | None => None
            end
        | _, Some rest' => Some ([v], rest')
        | None, None => None
        end
    | None => None
    end.
Proof. reflexivity. Qed.

Lemma read_members_step (fuel : nat) (s : string) :
  read_members (S fuel) s
  = match head_is dquote (skip_ws s) with
    | Some s1 =>
        match read_string s1 with
        | Some (k, s2) =>
            match head_is ":" (skip_ws s2) with
            | Some s3 =>
                match read_value fuel s3 with
                | Some (v, rest) =>
                    match head_is "," (skip_ws rest),
                          head_is "}" (skip_ws rest) with
                    | Some rest', _ =>
                        match read_members fuel rest' with
                        | Some (ms, rest'') => Some ((k, v) :: ms, rest'')
                        | None => None
                        end
                    | _, Some rest' => Some ([(k, v)], rest')
                    | None, None => None
                    end
                | None => None
                end
            | None => None
            end
        | None => None
        end
    | None => None
    end.
Proof. reflexivity. Qed.

Lemma join_cons2 (p q : string) (rest : list string) :
  join (p :: q :: rest) = p ++ String "," (join (q :: rest)).
Proof. reflexivity. Qed.

Lemma read_elements_join (l : list value) :
  l <> [] -> Forall reads_back l ->
  forall fuel rest,
    String.length (join (map write l)) + 1 <= fuel ->
    read_elements fuel (join (map write l) ++ String "]" rest) = Some (l, rest).
Proof.
  induction l as [|v l IH]; [congruence|]. intros _ Hall fuel rest Hfuel.
  inversion Hall as [|? ? Hv Hl]; subst.
  destruct fuel as [|fuel]; [lia|]. rewrite read_elements_step.
  destruct l as [|v' l].
  - cbn [map join] in *. rewrite Hv; [|lia|cbn; auto]. reflexivity.
  - cbn [map] in *. rewrite join_cons2 in *. rewrite length_append in Hfuel.
    cbn [String.length] in Hfuel. rewrite append_assoc. cbn [append].
    rewrite Hv; [|lia|cbn; auto]. cbn [skip_ws is_ws Ascii.eqb Bool.eqb orb
      head_is].
    rewrite IH; [reflexivity|discriminate|exact Hl|lia].
Qed.

Lemma length_quote (k : string) : 2 <= String.length (quote k).
Proof. unfold quote. cbn. rewrite length_append. cbn. lia. Qed.

Lemma read_members_join (ms : list (string * value)) :
  ms <> [] -> Forall (fun m => reads_back (snd m)) ms ->
  forall fuel rest,
    String.length (join (map member_text ms)) + 1 <= fuel ->
    read_members fuel (join (map member_text ms) ++ String "}" rest)
    = Some (ms, rest).
Proof.
  induction ms as [|[k v] ms IH]; [congruence|]. intros _ Hall fuel rest Hfuel.
  inversion Hall as [|? ? Hv Hl]; subst. cbn [snd] in Hv.
  destruct fuel as [|fuel]; [lia|]. rewrite read_members_step.
  pose proof (length_quote k) as Hk.
  destruct ms as [|m' ms].
  - cbn [map join] in *. unfold member_text in *. cbn [fst snd] in *.
    rewrite length_append in Hfuel. cbn [String.length] in Hfuel.
    rewrite append_assoc. unfold quote at 1. cbn [append skip_ws is_ws].
    change (is_ws dquote) with false. cbn [orb head_is].
    rewrite Ascii.eqb_refl. rewrite ?append_assoc.
    cbn [append char]. rewrite read_string_escape_string.
    cbn [skip_ws is_ws Ascii.eqb Bool.eqb orb head_is].
    rewrite Hv; [|lia|cbn; auto]. reflexivity.
  - cbn [map] in *. rewrite join_cons2 in *.
    unfold member_text at 1 in Hfuel. unfold member_text at 1.
    cbn [fst snd] in *.
    rewrite !length_append in Hfuel. cbn [String.length] in Hfuel.
    rewrite !append_assoc. unfold quote at 1. cbn [append skip_ws is_ws].
    change (is_ws dquote) with false. cbn [orb head_is].
    rewrite Ascii.eqb_refl. rewrite ?append_assoc.
    cbn [append char]. rewrite read_string_escape_string.
    cbn [skip_ws is_ws Ascii.eqb Bool.eqb orb head_is].
    rewrite ?append_assoc. cbn [append].
    rewrite Hv; [|lia|cbn; auto].
    cbn [skip_ws is_ws Ascii.eqb Bool.eqb orb head_is].
    rewrite IH; [reflexivity|discriminate|exact Hl|lia].
Qed.

(** Defining distinct names one after the other keeps them as they come. *)
Lemma define_fresh (k : string) (v : value) (ms : list (string * value)) :
  existsb (fun k' => (k' =? k)%string) (map fst ms) = false ->
  define k v ms = (ms ++ [(k, v)])%list.
Proof.
  induction ms as [|[k' v'] ms IH]; cbn; [reflexivity|].
  intros H. apply orb_false_elim in H. destruct H as [-> H].
  rewrite IH by exact H. reflexivity.
Qed.

Lemma existsb_app_false {A} (f : A -> bool) (l l' : list A) :
  existsb f l = false -> existsb f l' = false -> existsb f (l ++ l') = false.
Proof. intros H H'. rewrite existsb_app, H, H'. reflexivity. Qed.

Lemma fold_define (ms acc : list (string * value)) :
  distinct (map fst ms) = true ->
  (forall k, In k (map fst ms) ->
             existsb (fun k' => (k' =? k)%string) (map fst acc) = false) ->
  fold_left (fun o m => define (fst m) (snd m) o) ms acc = (acc ++ ms)%list.
Proof.
  revert acc. induction ms as [|[k v] ms IH]; intros acc Hd Hacc; cbn.
  - rewrite List.app_nil_r. reflexivity.
  - cbn in Hd. apply andb_prop in Hd. destruct Hd as [Hk Hd].
    apply negb_true_iff in Hk.
    rewrite define_fresh by (apply Hacc; left; reflexivity).
    rewrite IH; [rewrite <- List.app_assoc; reflexivity|exact Hd|].
    intros k0 Hk0. rewrite map_app. apply existsb_app_false.
    + apply Hacc. right. exact Hk0.
    + cbn. rewrite orb_false_r. apply String.eqb_neq. intros ->.
      rewrite (proj2 (existsb_exists _ _)) in Hk; [discriminate|].
      exists k0. split; [exact Hk0|apply String.eqb_refl].
Qed.

Lemma object_of_distinct (ms : list (string * value)) :
  distinct (map fst ms) = true -> object_of ms = Object ms.
Proof.
  intros H. unfold object_of. rewrite fold_define; auto.
Qed.

Lemma join_opens (l : list value) (tail : string) :
  l <> [] ->
  exists c s, join (map write l) ++ tail = String c s /\ opens_value c = true.
Proof.
  destruct l as [|v l]; [congruence|]. intros _.
  destruct (write_opens v) as (c & s & E & Hc).
  destruct l as [|v' l]; cbn [map]; [cbn [join]|rewrite join_cons2];
    rewrite E; cbn; eauto.
Qed.

Lemma write_array (l : list value) :
  write (Array l) = String "[" (join (map write l) ++ "]").
Proof. reflexivity. Qed.

Lemma write_object (ms : list (string * value)) :
  write (Object ms) = String "{" (join (map member_text ms) ++ "}").
Proof. reflexivity. Qed.

Lemma Forall_storable (P : value -> Prop) (l : list value) :
  Forall (fun v => storable v = true -> P v) l ->
  forallb storable l = true -> Forall P l.
Proof.
  induction 1 as [|v l Hv Hl IH]; cbn; [constructor|].
  intros H. apply andb_prop in H. destruct H. constructor; auto.
Qed.

Lemma Forall_storable_members (P : value -> Prop)
    (ms : list (string * value)) :
  Forall (fun m => storable (snd m) = true -> P (snd m)) ms ->
  forallb (fun m => storable (snd m)) ms = true ->
  Forall (fun m => P (snd m)) ms.
Proof.
  induction 1 as [|m ms Hm Hms IH]; cbn; [constructor|].
  intros H. apply andb_prop in H. destruct H. constructor; auto.
Qed.

Theorem read_value_write (v : value) : storable v = true -> reads_back v.
Proof.
  induction v as [|b|n|s|l IH|ms IH] using value_induction;
    intros Hs fuel rest Hfuel Hrest.
  - destruct fuel as [|fuel]; [cbn in Hfuel; lia|]. reflexivity.
  - destruct fuel as [|fuel]; [destruct b; cbn in Hfuel; lia|].
    destruct b; reflexivity.
  - destruct n as [|z]; [discriminate|].
    destruct (write_opens (Number (Js.Num z))) as (c & s & E & Hc).
    destruct fuel as [|fuel]; [rewrite E in Hfuel; cbn in Hfuel; lia|].
    assert (Hhead : is_digit c = true \/ c = "-"%char).
    { cbn [write] in E. unfold write_number in E.
      destruct (z <? 0)%Z.
      - injection E as <- _. right. reflexivity.
      - destruct (digits_head (Z.to_N z)) as (c' & s' & E' & Hc').
        rewrite E' in E. injection E as <- _. left. exact Hc'. }
    pose proof (read_number_write z rest Hrest) as R.
    cbn [write]. cbn [write] in E. rewrite E in *. cbn [append] in *.
    rewrite read_value_number by exact Hhead. rewrite R. reflexivity.
  - destruct fuel as [|fuel]; [cbn in Hfuel; lia|].
    cbn [write]. unfold quote. cbn [append]. rewrite read_value_string.
    rewrite append_assoc. cbn [append char].
    rewrite read_string_escape_string. reflexivity.
  - cbn [storable] in Hs. pose proof (Forall_storable _ _ IH Hs) as Hall.
    rewrite write_array in *. cbn [String.length] in Hfuel.
    rewrite length_append in Hfuel. cbn [String.length] in Hfuel.
    destruct fuel as [|fuel]; [lia|]. cbn [append].
    rewrite read_value_array. rewrite append_assoc. cbn [append].
    destruct l as [|v l].
    + reflexivity.
    + destruct (join_opens (v :: l) (String "]" rest)) as (c & s & E & Hc);
        [discriminate|].
      destruct (opens_not_closing c s Hc) as (Hws & Hclose & _).
      rewrite E, Hws, Hclose, <- E.
      rewrite read_elements_join; [reflexivity|discriminate|exact Hall|lia].
  - cbn [storable] in Hs. apply andb_prop in Hs. destruct Hs as [Hd Hs].
    pose proof (Forall_storable_members _ _ IH Hs) as Hall.
    rewrite write_object in *. cbn [String.length] in Hfuel.
    rewrite length_append in Hfuel. cbn [String.length] in Hfuel.
    destruct fuel as [|fuel]; [lia|]. cbn [append].
    rewrite read_value_object. rewrite append_assoc. cbn [append].
    destruct ms as [|[k v] ms].
    + reflexivity.
    + assert (E : exists s,
                 join (map member_text ((k, v) :: ms)) ++ String "}" rest
                 = String dquote s).
      { destruct ms; cbn [map]; [cbn [join]|rewrite join_cons2];
          unfold member_text at 1, quote; cbn; eauto. }
      destruct E as (s & E). rewrite E. cbn [skip_ws].
      change (is_ws dquote) with false. cbn [head_is].
      change (dquote =? "}")%char with false. cbn iota. rewrite <- E.
      rewrite read_members_join; [|discriminate|exact Hall|lia].
      rewrite object_of_distinct by exact Hd. reflexivity.
Qed.

(** What [JSON.parse] makes of what [JSON.stringify] wrote. *)
Theorem read_write (v : value) : storable v = true -> read (write v) = Some v.
Proof.
  intros H. unfold read.
  pose proof (read_value_write v H (String.length (write v)) ""
                (le_n _) I) as R.
  rewrite append_nil in R. rewrite R. reflexivity.
Qed.

End JsonFacts.

(* ================================================================= *)
(** ** The local store *)

Ltac unfold_local :=
  unfold Local.click_save, Local.sessions_effect, Local.handleSave,
    Local.loadSessions, Local.saveSessions, Local.JSON_parse,
    Local.getItem, Local.setItem, Local.console_error, Local.get_today,
    Local.new_id, Local.persisted,
    Eff.try_catch, Eff.bind, Eff.throw, Eff.ret in *.

(** C8. When nothing is stored under the key, or the empty string, or a
    text that [JSON.parse] refuses, or a text that parses to something
    other than an array, [loadSessions] returns the empty list, normally,
    and leaves the world as it was. *)
Theorem load_recovers_from_bad_payload :
  forall (json : JSON.Codec) (w : Local.World),
    (Local.persisted w = None \/
     Local.persisted w = Some "" \/
     (exists raw, Local.persisted w = Some raw /\ JSON.parse raw = None) \/
     (exists raw v, Local.persisted w = Some raw /\
                    JSON.parse raw = Some v /\ JSON.is_array v = false)) ->
    Local.loadSessions w = (Js.Normal [], w).
Proof.
  intros json w H. unfold_local.
  destruct H as [-> | [-> | [(raw & -> & Hp) | (raw & v & -> & Hp & Hv)]]].
  - reflexivity.
  - reflexivity.
  - destruct (Js.truthy raw); cbn; [|reflexivity]. rewrite Hp. reflexivity.
  - destruct (Js.truthy raw); cbn; [|reflexivity]. rewrite Hp.
    destruct v; cbn in *; try reflexivity. discriminate.
Qed.

(** A text that is not JSON, and an object where the array should be. *)
Lemma load_recovers_on_samples :
  Local.loadSessions (json := JSON.codec)
    (Sample.browser [(Local.STORAGE_KEY, "[{oops")])
  = (Js.Normal [], Sample.browser [(Local.STORAGE_KEY, "[{oops")]) /\
  Local.loadSessions (json := JSON.codec)
    (Sample.browser [(Local.STORAGE_KEY, "{}")])
  = (Js.Normal [], Sample.browser [(Local.STORAGE_KEY, "{}")]).
Proof.
  split.
  - apply (load_recovers_from_bad_payload JSON.codec).
    right. right. left. exists "[{oops". split; reflexivity.
  - apply (load_recovers_from_bad_payload JSON.codec).
    right. right. right. exists "{}", (JSON.Object []).
    repeat split; reflexivity.
Defined.

Lemma lookup_update (key value : string) (l : list (string * string)) :
  Local.lookup key (Local.update key value l) = Some value.
Proof.
  induction l as [|[k v] l IH]; cbn.
  - rewrite String.eqb_refl. reflexivity.
  - destruct (k =? key)%string eqn:E; cbn.
    + rewrite String.eqb_refl. reflexivity.
    + rewrite E. exact IH.
Qed.

Lemma update_same (key value : string) (l : list (string * string)) :
  Local.lookup key l = Some value -> Local.update key value l = l.
Proof.
  induction l as [|[k v] l IH]; cbn; [discriminate|].
  destruct (k =? key)%string eqn:E.
  - intros H. injection H as <-. apply String.eqb_eq in E. subst. reflexivity.
  - intros H. rewrite IH by exact H. reflexivity.
Qed.

Lemma entry_value_storable (e : SessionEntry) :
  Local.valid_entry e = true -> JSON.storable (Local.entry_value e) = true.
Proof.
  unfold Local.valid_entry, Local.is_number. intros H.
  apply andb_prop in H. destruct H as [H H3].
  apply andb_prop in H. destruct H as [H1 H2].
  cbn. destruct (plannedMinutes e); [discriminate|].
  destruct (actualMinutes e) as [[|a]|]; try discriminate.
  destruct (tasksCompleted e) as [[|t]|]; try discriminate; reflexivity.
Qed.

Lemma entries_storable (E : list SessionEntry) :
  forallb Local.valid_entry E = true ->
  JSON.storable (JSON.Array (map Local.entry_value E)) = true.
Proof.
  intros H. change (forallb JSON.storable (map Local.entry_value E) = true).
  induction E as [|e E IH]; [reflexivity|].
  cbn [forallb map] in *. apply andb_prop in H. destruct H as [He HE].
  rewrite (entry_value_storable e He). exact (IH HE).
Qed.

Lemma write_array_truthy (l : list JSON.value) :
  Js.truthy (JSON.write (JSON.Array l)) = true.
Proof. reflexivity. Qed.

(** Loading a payload that [saveSessions] wrote for valid entries. *)
Lemma load_written (E : list SessionEntry) (w : Local.World) :
  forallb Local.valid_entry E = true ->
  Local.persisted w
  = Some (JSON.write (JSON.Array (map Local.entry_value E))) ->
  Local.loadSessions (json := JSON.codec) w
  = (Js.Normal (map Local.entry_value E), w).
Proof.
  intros HE Hp. unfold_local. rewrite Hp.
  rewrite write_array_truthy. cbn [negb].
  cbn [JSON.parse JSON.codec].
  rewrite (JsonFacts.read_write _ (entries_storable E HE)). reflexivity.
Qed.




(** ** Validation *)

Lemma truthy_false (s : string) : Js.truthy s = false <-> s = "".
Proof. destruct s; cbn; split; congruence. Qed.

(** C9. A draft that fails a rule is turned down before anything else
    happens: in both variants the handler only sets the error message, and
    the world (call log, tables, console, storage) is what it was.  The
    message is that of the first failing rule, in the order session type,
    energy after, actual minutes; in particular every draft whose actual
    minutes are missing or NaN is turned down. *)
Theorem save_validates_before_any_io :
  forall (form : SessionEntry),
    (sessionType form = "" \/ energyAfter form = "" \/
     Form.not_a_number (actualMinutes form) = true) ->
    exists message,
      (sessionType form = "" -> message = "Session type is required") /\
      (sessionType form <> "" -> energyAfter form = "" ->
       message = "Energy after is required") /\
      (sessionType form <> "" -> energyAfter form <> "" ->
       message = "Actual minutes is required") /\
      (forall (S : Type) (client : Client S) (w : Remote.World S)
              (st : Remote.AppState),
          Remote.handleSave (Remote.setForm form st) w
          = (Js.Normal
               (Remote.setError (Some message) (Remote.setForm form st)),
             w)) /\
      (forall (json : JSON.Codec) (w : Local.World) (st : Local.AppState),
          Local.click_save (Local.setForm form st) w
          = (Js.Normal
               (Local.setError (Some message) (Local.setForm form st)),
             w)).
Proof.
  intros form H.
  destruct (Js.truthy (sessionType form)) eqn:T1.
  - destruct (Js.truthy (energyAfter form)) eqn:T2.
    + assert (T3 : Form.not_a_number (actualMinutes form) = true).
      { destruct H as [H|[H|H]]; [| |exact H];
          apply truthy_false in H; congruence. }
      exists "Actual minutes is required".
      split; [intros E; apply truthy_false in E; congruence|].
      split; [intros _ E; apply truthy_false in E; congruence|].
      split; [reflexivity|]. split.
      * intros S client w st. unfold Remote.handleSave. cbn.
        rewrite T1, T2, T3. reflexivity.
      * intros json w st. unfold Local.click_save, Local.handleSave,
          Local.sessions_effect, Eff.bind, Eff.ret. cbn.
        rewrite T1, T2, T3. cbn. rewrite Nat.eqb_refl. reflexivity.
    + exists "Energy after is required".
      split; [intros E; apply truthy_false in E; congruence|].
      split; [reflexivity|].
      split; [intros _ E; exfalso; apply E, truthy_false, T2|]. split.
      * intros S client w st. unfold Remote.handleSave. cbn.
        rewrite T1, T2. reflexivity.
      * intros json w st. unfold Local.click_save, Local.handleSave,
          Local.sessions_effect, Eff.bind, Eff.ret. cbn.
        rewrite T1, T2. cbn. rewrite Nat.eqb_refl. reflexivity.
  - exists "Session type is required".
    split; [reflexivity|].
    split; [intros E; exfalso; apply E, truthy_false, T1|].
    split; [intros E; exfalso; apply E, truthy_false, T1|]. split.
    + intros S client w st. unfold Remote.handleSave. cbn.
      rewrite T1. reflexivity.
    + intros json w st. unfold Local.click_save, Local.handleSave,
        Local.sessions_effect, Eff.bind, Eff.ret. cbn.
      rewrite T1. cbn. rewrite Nat.eqb_refl. reflexivity.
Qed.

(** The draft with its Actual Minutes input emptied, in both variants. *)
Lemma save_rejects_empty_actual_minutes :
  Remote.handleSave (Remote.setForm Sample.draft Sample.remote_state)
    (PgStore.world Sample.db Sample.day)
  = (Js.Normal
       (Remote.setError (Some "Actual minutes is required")
          (Remote.setForm Sample.draft Sample.remote_state)),
     PgStore.world Sample.db Sample.day) /\
  Local.click_save (json := JSON.codec)
    (Local.setForm Sample.draft Sample.local_state) (Sample.browser [])
  = (Js.Normal
       (Local.setError (Some "Actual minutes is required")
          (Local.setForm Sample.draft Sample.local_state)),
     Sample.browser []).
Proof.
  destruct (save_validates_before_any_io Sample.draft
              (or_intror (or_intror eq_refl)))
    as (message & _ & _ & Hm & Hremote & Hlocal).
  assert (E : message = "Actual minutes is required").
  { apply Hm; discriminate. }
  subst message. split; [apply Hremote|apply Hlocal].
Defined.

(* ================================================================= *)
(** * Further properties *)

(** ** A healthy backend, call by call *)

Lemma with_tasks_same (db db' : PgStore.Db) :
  PgStore.same_tables db db' ->
  Expected.with_tasks db' = Expected.with_tasks db.
Proof.
  intros (_ & _ & H). unfold Expected.with_tasks, Expected.tasks_of.
  rewrite H. reflexivity.
Qed.

Lemma healthy_loop_exact (sessions : list SessionRow) :
  forall (acc : list SessionWithTasks) (w : Remote.World PgStore.Db),
    PgStore.healthy (Remote.backend w) = true ->
    exists w',
      Remote.fetch_tasks_loop sessions acc w
      = (Js.Normal
           (acc ++ map (Expected.with_tasks (Remote.backend w)) sessions)%list,
         w') /\
      Expected.read_only w w' /\
      Remote.calls w'
      = (Remote.calls w
         ++ map (fun r => (SelectTasks (id r) Remote.tasks_order, Succeeded))
              sessions)%list.
Proof.
  induction sessions as [|session rest IH]; intros acc w H.
  - exists w. cbn. rewrite !app_nil_r.
    unfold Expected.read_only, PgStore.same_tables. auto 10.
  - cbn [Remote.fetch_tasks_loop]. unfold_run.
    cbn [select_tasks PgStore.client].
    destruct (guarded_healthy
                (PgStore.run_select_tasks (id session) Remote.tasks_order)
                _ H) as (db1 & H1 & Hsame & Hser & ->).
    cbn [PgStore.run_select_tasks fst snd PgStore.ok error data
         Remote.outcome_of Remote.or_empty].
    match goal with
    | |- context [Remote.fetch_tasks_loop rest ?a ?x] =>
        destruct (IH a x H1) as (w' & E & (Hh & Hs & Hn & Hc & Hd) & Hcalls)
    end.
    cbn [Remote.backend Remote.calls Remote.console Remote.today] in *.
    exists w'. rewrite E. split.
    + f_equal. rewrite <- app_assoc. cbn [app map].
      rewrite (with_tasks_same _ _ Hsame).
      unfold Expected.with_tasks at 2, Expected.tasks_of.
      destruct Hsame as (_ & _ & ->). reflexivity.
    + split.
      * unfold Expected.read_only, PgStore.same_tables in *.
        cbn [Remote.backend Remote.console Remote.today].
        intuition congruence.
      * rewrite Hcalls, <- app_assoc. reflexivity.
Qed.

(** On a healthy backend a fetch returns what the tables hold, and makes
    one query for the sessions and one per session. *)
Lemma healthy_fetch_exact (w : Remote.World PgStore.Db) :
  PgStore.healthy (Remote.backend w) = true ->
  exists w',
    Remote.fetchSessionsWithTasks w
    = (Js.Normal (Expected.fetched (Remote.backend w)), w') /\
    Expected.read_only w w' /\
    Remote.calls w'
    = (Remote.calls w ++ Expected.queries (Remote.backend w))%list.
Proof.
  intros H. unfold_run. cbn [select_sessions PgStore.client].
  destruct (guarded_healthy
              (PgStore.run_select_sessions Remote.sessions_order)
              _ H) as (db1 & H1 & Hsame & Hser & ->).
  cbn [PgStore.run_select_sessions fst snd PgStore.ok error data
       Remote.outcome_of].
  unfold Expected.fetched, Expected.queries, Expected.ordered_sessions.
  assert (Hs1 : PgStore.sessions db1 = PgStore.sessions (Remote.backend w))
    by (destruct Hsame as (_ & ? & _); assumption).
  rewrite <- Hs1.
  set (rows := PgStore.sort_rows _ (PgStore.sessions db1)).
  destruct rows as [|r0 rows'] eqn:Erows.
  - eexists. split; [reflexivity|]. split; [|reflexivity].
    unfold Expected.read_only, PgStore.same_tables in *. cbn.
    intuition congruence.
  - match goal with
    | |- context [Remote.fetch_tasks_loop ?ss ?a ?x] =>
        destruct (healthy_loop_exact ss a x H1)
          as (w' & E & (Hh & Hs & Hn & Hc & Hd) & Hcalls)
    end.
    cbn [Remote.backend Remote.calls Remote.console Remote.today] in *.
    rewrite E. exists w'. split.
    + cbn [app]. rewrite (with_tasks_same _ _ Hsame). reflexivity.
    + split.
      * unfold Expected.read_only, PgStore.same_tables in *.
        cbn [Remote.backend Remote.console Remote.today].
        intuition congruence.
      * rewrite Hcalls, <- app_assoc. reflexivity.
Qed.

Lemma healthy_create_exact (w : Remote.World PgStore.Db) (d : SessionData)
    (ts : list TaskData) :
  PgStore.healthy (Remote.backend w) = true ->
  exists w',
    Remote.createSessionWithTasks d ts w
    = (Js.Normal (Expected.created (Remote.backend w) d ts), w') /\
    PgStore.healthy (Remote.backend w') = true /\
    PgStore.auth (Remote.backend w') = PgStore.auth (Remote.backend w) /\
    PgStore.sessions (Remote.backend w')
    = (PgStore.sessions (Remote.backend w)
       ++ [row (Expected.created (Remote.backend w) d ts)])%list /\
    PgStore.session_tasks (Remote.backend w')
    = (PgStore.session_tasks (Remote.backend w)
       ++ tasks (Expected.created (Remote.backend w) d ts))%list /\
    PgStore.serial (Remote.backend w')
    = PgStore.serial (Remote.backend w) + 1 + List.length ts /\
    Remote.console w' = Remote.console w /\
    Remote.today w' = Remote.today w /\
    Remote.calls w'
    = (Remote.calls w ++ Expected.inserts (Remote.backend w) d ts)%list.
Proof.
  intros H. unfold_run. cbn [insert_session insert_tasks PgStore.client].
  destruct (guarded_healthy (PgStore.run_insert_session d) _ H)
    as (db1 & H1 & (Ha & Hs & Ht) & Hser & ->).
  cbn [PgStore.run_insert_session fst snd PgStore.ok error data
       Remote.outcome_of Remote.backend Remote.calls Remote.console
       Remote.today].
  unfold Expected.created, Expected.created_tasks, Expected.inserts.
  cbn [row tasks]. rewrite <- Hser.
  destruct ts as [|t ts].
  - cbn. eexists. split; [reflexivity|]. cbn.
    rewrite app_nil_r, Ha, Hs, Ht, Nat.add_0_r. auto 10.
  - cbn [map List.length Nat.ltb Nat.leb Remote.backend Remote.calls
         Remote.console Remote.today].
    set (l0 := Remote.stamp _ t :: map (Remote.stamp _) ts).
    set (db2 := {| PgStore.auth := PgStore.auth db1;
                   PgStore.sessions := _;
                   PgStore.session_tasks := PgStore.session_tasks db1;
                   PgStore.faults := PgStore.faults db1;
                   PgStore.serial := PgStore.serial db1 + 1 |}).
    assert (H2 : PgStore.healthy db2 = true) by exact H1.
    destruct (guarded_healthy (PgStore.run_insert_tasks l0) _ H2)
      as (db3 & H3 & (Ha3 & Hs3 & Ht3) & Hser3 & ->).
    cbn [PgStore.run_insert_tasks fst snd PgStore.ok error data
         Remote.outcome_of Remote.backend Remote.calls Remote.console
         Remote.today Remote.or_empty].
    rewrite Ha3, Hs3, Ht3, Hser3. subst db2 l0.
    cbn [PgStore.auth PgStore.sessions PgStore.session_tasks PgStore.serial
         PgStore.new_session_row id].
    eexists. split; [reflexivity|].
    cbn [Remote.backend Remote.calls Remote.console Remote.today
         PgStore.auth PgStore.sessions PgStore.session_tasks PgStore.serial].
    rewrite Ha, Hs, Ht, <- app_assoc. repeat split; auto.
    cbn [List.length]. rewrite length_map. reflexivity.
Qed.

Lemma healthy_load_exact (w : Remote.World PgStore.Db) (a : AuthSession) :
  PgStore.healthy (Remote.backend w) = true ->
  PgStore.auth (Remote.backend w) = Some a ->
  exists w',
    Remote.loadSessions w
    = (Js.Normal (map Remote.toEntry (Expected.fetched (Remote.backend w))),
       w') /\
    Expected.read_only w w' /\
    Remote.calls w'
    = (Remote.calls w
       ++ (AuthGetSession, Succeeded)
          :: Expected.queries (Remote.backend w))%list.
Proof.
  intros H Ha.
  unfold Remote.loadSessions, Remote.getSession, Eff.try_catch, Eff.bind,
    Eff.ret.
  cbn [auth_getSession PgStore.client]. rewrite Ha.
  match goal with
  | |- context [Remote.fetchSessionsWithTasks ?x] =>
      destruct (healthy_fetch_exact x H) as (w' & E & Hro & Hcalls)
  end.
  cbn [Remote.backend] in *. rewrite E. exists w'.
  split; [reflexivity|]. split.
  { unfold Expected.read_only, PgStore.same_tables in *.
    cbn [Remote.backend Remote.console Remote.today Remote.calls] in *.
    intuition congruence. }
  rewrite Hcalls. cbn [Remote.calls]. rewrite <- app_assoc. reflexivity.
Qed.

Lemma healthy_save_exact (w : Remote.World PgStore.Db) (a : AuthSession)
    (entry : SessionEntry) :
  PgStore.healthy (Remote.backend w) = true ->
  PgStore.auth (Remote.backend w) = Some a ->
  exists w',
    Remote.saveSessions entry w = (Js.Normal tt, w') /\
    PgStore.healthy (Remote.backend w') = true /\
    PgStore.auth (Remote.backend w') = Some a /\
    PgStore.sessions (Remote.backend w')
    = (PgStore.sessions (Remote.backend w)
       ++ [PgStore.new_session_row (PgStore.serial (Remote.backend w))
             (Remote.toRow entry (user a))])%list /\
    PgStore.session_tasks (Remote.backend w')
    = PgStore.session_tasks (Remote.backend w) /\
    Remote.console w' = Remote.console w /\
    Remote.today w' = Remote.today w /\
    Remote.calls w'
    = (Remote.calls w
       ++ [(AuthGetSession, Succeeded);
           (InsertSession (Remote.toRow entry (user a)), Succeeded)])%list.
Proof.
  intros H Ha.
  unfold Remote.saveSessions, Remote.getSession, Eff.try_catch, Eff.bind,
    Eff.ret.
  cbn [auth_getSession PgStore.client]. rewrite Ha.
  match goal with
  | |- context [Remote.createSessionWithTasks ?d ?ts ?x] =>
      destruct (healthy_create_exact x d ts H)
        as (w' & E & Hh & Hau & Hs & Ht & Hn & Hc & Hd & Hcalls)
  end.
  cbn [Remote.backend Remote.calls Remote.console Remote.today] in *.
  rewrite E. exists w'. split; [reflexivity|].
  rewrite Hau, Hs, Ht, Hcalls, <- app_assoc, app_nil_r.
  repeat split; auto.
Qed.

Lemma insert_sorted_Permutation {R} (leb : R -> R -> bool) (x : R)
    (l : list R) :
  Permutation (PgStore.insert_sorted leb x l) (x :: l).
Proof.
  induction l as [|y l IH]; cbn; [reflexivity|].
  destruct (leb x y); [reflexivity|].
  rewrite IH. apply perm_swap.
Qed.

Lemma sort_rows_Permutation {R} (leb : R -> R -> bool) (l : list R) :
  Permutation (PgStore.sort_rows leb l) l.
Proof.
  induction l as [|x l IH]; cbn; [reflexivity|].
  rewrite insert_sorted_Permutation, IH. reflexivity.
Qed.

Lemma map_row_fetched (db : PgStore.Db) :
  map row (Expected.fetched db) = Expected.ordered_sessions db.
Proof.
  unfold Expected.fetched. rewrite map_map. cbn. apply map_id.
Qed.

Lemma new_task_rows_stamped (sid : string) (ts : list TaskData) :
  forall n,
    Forall (fun t => session_id t = sid)
      (PgStore.new_task_rows n (map (Remote.stamp sid) ts)) /\
    map task_name (PgStore.new_task_rows n (map (Remote.stamp sid) ts))
    = map t_task_name ts /\
    map completed (PgStore.new_task_rows n (map (Remote.stamp sid) ts))
    = map t_completed ts.
Proof.
  induction ts as [|t ts IH]; intros n; cbn.
  - auto.
  - destruct (IH (n + 1)) as (A & B & C). rewrite B, C.
    repeat split; auto.
Qed.

Lemma filter_none {A} (f : A -> bool) (l : list A) :
  (forall x, In x l -> f x = false) -> filter f l = [].
Proof.
  induction l as [|x l IH]; cbn; intros H; [reflexivity|].
  rewrite (H x) by auto. apply IH. auto.
Qed.

Lemma filter_all {A} (f : A -> bool) (l : list A) :
  Forall (fun x => f x = true) l -> filter f l = l.
Proof.
  induction 1 as [|x l Hx _ IH]; cbn; [reflexivity|].
  rewrite Hx, IH. reflexivity.
Qed.

(** ** The store functions *)

(** X1. Whatever the client does, a failure of one of the three store
    functions is an [Error] whose message starts with the name of the
    function: an error answer, a missing row and a rejected promise are
    all wrapped, and a rejection with something that is not an [Error]
    is reported as an unknown error. *)
Theorem store_functions_wrap_every_failure :
  forall (S : Type) (client : Client S) (w : Remote.World S) (v : Js.thrown),
    (fst (Remote.fetchSessionsWithTasks w) = Js.Throw v ->
     exists m, v = Js.Error ("fetchSessionsWithTasks failed: " ++ m)) /\
    (forall d ts,
        fst (Remote.createSessionWithTasks d ts w) = Js.Throw v ->
        exists m, v = Js.Error ("createSessionWithTasks failed: " ++ m)) /\
    (forall tid c,
        fst (Remote.updateTaskCompleted tid c w) = Js.Throw v ->
        exists m, v = Js.Error ("updateTaskCompleted failed: " ++ m)) /\
    (forall tid c s1,
        update_task tid c (Remote.backend w) = (Js.Throw Js.NonError, s1) ->
        fst (Remote.updateTaskCompleted tid c w)
        = Js.Throw (Js.Error "updateTaskCompleted failed: Unknown error")).
Proof.
  intros S client w v. repeat split.
  - unfold Remote.fetchSessionsWithTasks, Eff.try_catch, Eff.throw.
    destruct (Eff.bind _ _ w) as [[l|e] w1]; cbn; [discriminate|].
    intros H. injection H as <-. eauto.
  - intros d ts.
    unfold Remote.createSessionWithTasks, Eff.try_catch, Eff.throw.
    destruct (Eff.bind _ _ w) as [[l|e] w1]; cbn; [discriminate|].
    intros H. injection H as <-. eauto.
  - intros tid c.
    unfold Remote.updateTaskCompleted, Eff.try_catch, Eff.throw.
    destruct (Eff.bind _ _ w) as [[l|e] w1]; cbn; [discriminate|].
    intros H. injection H as <-. eauto.
  - intros tid c s1 E.
    unfold Remote.updateTaskCompleted, Eff.try_catch, Eff.throw, Eff.bind,
      Remote.await.
    rewrite E. reflexivity.
Qed.

(** X2. On a backend whose calls go through, [fetchSessionsWithTasks]
    lists every row of the sessions table exactly once, each with exactly
    the tasks that carry its id, at the price of one query for the
    sessions and one more per session; the tables are left as they
    were. *)
Theorem fetch_lists_every_session_with_its_tasks :
  forall (db : PgStore.Db) (day : string),
    PgStore.healthy db = true ->
    exists l w',
      Remote.fetchSessionsWithTasks (PgStore.world db day)
      = (Js.Normal l, w') /\
      Permutation (map row l) (PgStore.sessions db) /\
      (forall s, In s l ->
         Permutation (tasks s)
           (filter (fun t => (session_id t =? id (row s))%string)
              (PgStore.session_tasks db))) /\
      List.length (Remote.calls w')
      = Datatypes.S (List.length (PgStore.sessions db)) /\
      Forall succeeded (Remote.calls w') /\
      PgStore.same_tables db (Remote.backend w').
Proof.
  intros db day H.
  destruct (healthy_fetch_exact (PgStore.world db day) H)
    as (w' & E & (Hh & Hs & Hn & Hc & Hd) & Hcalls).
  cbn [PgStore.world Remote.backend Remote.calls] in *.
  exists (Expected.fetched db), w'. split; [exact E|].
  split; [rewrite map_row_fetched; apply sort_rows_Permutation|].
  split.
  { intros s Hin. unfold Expected.fetched in Hin.
    apply in_map_iff in Hin. destruct Hin as (r & <- & _).
    cbn. apply sort_rows_Permutation. }
  split.
  { rewrite Hcalls. cbn [app Expected.queries List.length].
    rewrite length_map. f_equal.
    apply Permutation_length, sort_rows_Permutation. }
  split; [|exact Hs].
  rewrite Hcalls. cbn [app Expected.queries]. constructor; [reflexivity|].
  apply Forall_forall. intros ev Hev. apply in_map_iff in Hev.
  destruct Hev as (r & <- & _). reflexivity.
Qed.

(** Three sessions, three tasks: four queries and everything listed. *)
Lemma fetch_lists_the_sample_tables :
  PgStore.healthy Sample.db = true /\
  exists l w',
    Remote.fetchSessionsWithTasks (PgStore.world Sample.db Sample.day)
    = (Js.Normal l, w') /\
    Permutation (map row l) (PgStore.sessions Sample.db) /\
    (forall s, In s l ->
       Permutation (tasks s)
         (filter (fun t => (session_id t =? id (row s))%string)
            (PgStore.session_tasks Sample.db))) /\
    List.length (Remote.calls w')
    = Datatypes.S (List.length (PgStore.sessions Sample.db)) /\
    Forall succeeded (Remote.calls w') /\
    PgStore.same_tables Sample.db (Remote.backend w').
Proof.
  split; [reflexivity|].
  apply (fetch_lists_every_session_with_its_tasks Sample.db Sample.day).
  reflexivity.
Defined.

(** X3. Creating and then fetching: on a backend whose calls go through
    and that holds no task under the id the new session gets, the
    session returned by [createSessionWithTasks] carries one task row per
    task given, in the order given and all stamped with the session's
    id; a fetch then lists a session with the same row and the same
    tasks, in ascending [sort_order]. *)
Theorem created_session_is_fetched_with_its_tasks :
  forall (db : PgStore.Db) (day : string) (d : SessionData)
         (ts : list TaskData),
    PgStore.healthy db = true ->
    (forall t, In t (PgStore.session_tasks db) ->
       session_id t <> PgStore.gen_id (PgStore.serial db)) ->
    exists s w1 l w2,
      Remote.createSessionWithTasks d ts (PgStore.world db day)
      = (Js.Normal s, w1) /\
      session_date (row s) = d_session_date d /\
      map task_name (tasks s) = map t_task_name ts /\
      map completed (tasks s) = map t_completed ts /\
      Forall (fun t => session_id t = id (row s)) (tasks s) /\
      Remote.fetchSessionsWithTasks w1 = (Js.Normal l, w2) /\
      exists x,
        In x l /\ row x = row s /\ Permutation (tasks x) (tasks s) /\
        tasks_sorted x.
Proof.
  intros db day d ts H Hfresh.
  destruct (healthy_create_exact (PgStore.world db day) d ts H)
    as (w1 & E1 & H1 & Hau & Hs & Ht & Hn & Hc & Hd & Hcalls).
  destruct (healthy_fetch_exact w1 H1) as (w2 & E2 & _ & _).
  cbn [PgStore.world Remote.backend] in *.
  destruct (new_task_rows_stamped (PgStore.gen_id (PgStore.serial db)) ts
              (PgStore.serial db + 1)) as (Hst & Hnames & Hdone).
  exists (Expected.created db d ts), w1,
    (Expected.fetched (Remote.backend w1)), w2.
  split; [exact E1|]. split; [reflexivity|].
  split; [exact Hnames|]. split; [exact Hdone|]. split; [exact Hst|].
  split; [exact E2|].
  exists (Expected.with_tasks (Remote.backend w1)
            (row (Expected.created db d ts))).
  split.
  { unfold Expected.fetched. apply in_map.
    apply In_sort_rows. rewrite Hs. apply in_or_app. right. left.
    reflexivity. }
  split; [reflexivity|].
  assert (Etasks :
    filter
      (fun t => (session_id t =? id (row (Expected.created db d ts)))%string)
      (PgStore.session_tasks (Remote.backend w1))
    = tasks (Expected.created db d ts)).
  { rewrite Ht, filter_app. rewrite filter_none, filter_all; [reflexivity| |].
    - eapply Forall_impl; [|exact Hst]. cbn. intros t ->.
      apply String.eqb_refl.
    - intros t Hin. apply String.eqb_neq. exact (Hfresh t Hin). }
  split.
  - cbn [tasks Expected.with_tasks]. unfold Expected.tasks_of.
    rewrite Etasks. apply sort_rows_Permutation.
  - unfold tasks_sorted. cbn [tasks Expected.with_tasks].
    apply sorted_tasks.
Qed.

(** A session with two tasks, given out of order, comes back with both. *)
Lemma created_sample_is_fetched :
  (PgStore.healthy Sample.db = true /\
   forall t, In t (PgStore.session_tasks Sample.db) ->
     session_id t <> PgStore.gen_id (PgStore.serial Sample.db)) /\
  exists s w1 l w2,
    Remote.createSessionWithTasks Sample.sessionData Scenario.tasks
      (PgStore.world Sample.db Sample.day)
    = (Js.Normal s, w1) /\
    session_date (row s) = d_session_date Sample.sessionData /\
    map task_name (tasks s) = map t_task_name Scenario.tasks /\
    map completed (tasks s) = map t_completed Scenario.tasks /\
    Forall (fun t => session_id t = id (row s)) (tasks s) /\
    Remote.fetchSessionsWithTasks w1 = (Js.Normal l, w2) /\
    exists x,
      In x l /\ row x = row s /\ Permutation (tasks x) (tasks s) /\
      tasks_sorted x.
Proof.
  assert (Hfresh : forall t, In t (PgStore.session_tasks Sample.db) ->
            session_id t <> PgStore.gen_id (PgStore.serial Sample.db)).
  { cbn. intros t [<-|[<-|[<-|[]]]]; cbn; discriminate. }
  split; [split; [reflexivity|exact Hfresh]|].
  apply (created_session_is_fetched_with_its_tasks Sample.db Sample.day
           Sample.sessionData Scenario.tasks); [reflexivity|exact Hfresh].
Defined.

Lemma healthy_update_exact (w : Remote.World PgStore.Db) (tid : string)
    (c : bool) (t : TaskRow) :
  PgStore.healthy (Remote.backend w) = true ->
  filter (fun x => (task_id x =? tid)%string)
    (PgStore.session_tasks (Remote.backend w)) = [t] ->
  exists w',
    Remote.updateTaskCompleted tid c w
    = (Js.Normal (PgStore.set_completed c t), w') /\
    PgStore.healthy (Remote.backend w') = true /\
    PgStore.auth (Remote.backend w') = PgStore.auth (Remote.backend w) /\
    PgStore.sessions (Remote.backend w')
    = PgStore.sessions (Remote.backend w) /\
    PgStore.session_tasks (Remote.backend w')
    = map (fun x => if (task_id x =? tid)%string
                    then PgStore.set_completed c x else x)
        (PgStore.session_tasks (Remote.backend w)) /\
    Remote.calls w' = (Remote.calls w ++ [(UpdateTask tid c, Succeeded)])%list.
Proof.
  intros H Hone.
  unfold Remote.updateTaskCompleted, Eff.try_catch, Eff.bind, Eff.throw,
    Eff.ret, Remote.await.
  cbn [update_task PgStore.client].
  destruct (guarded_healthy (PgStore.run_update_task tid c) _ H)
    as (db1 & H1 & (Ha & Hs & Ht) & Hser & ->).
  unfold PgStore.run_update_task. rewrite Ht, Hone.
  cbn [fst snd PgStore.ok error data Remote.outcome_of].
  eexists. split; [reflexivity|].
  cbn [Remote.backend Remote.calls PgStore.auth PgStore.sessions
       PgStore.session_tasks].
  rewrite Ha, Hs. repeat split; auto.
Qed.

Lemma filter_map_flag (tid : string) (c : bool) (sid : string)
    (l : list TaskRow) :
  filter (fun t => (session_id t =? sid)%string)
    (map (fun x => if (task_id x =? tid)%string
                   then PgStore.set_completed c x else x) l)
  = map (fun x => if (task_id x =? tid)%string
                  then PgStore.set_completed c x else x)
      (filter (fun t => (session_id t =? sid)%string) l).
Proof.
  induction l as [|x l IH]; cbn [map filter]; [reflexivity|].
  rewrite IH.
  assert (E : session_id (if (task_id x =? tid)%string
                          then PgStore.set_completed c x else x)
              = session_id x)
    by (destruct (task_id x =? tid)%string; reflexivity).
  rewrite E. destruct (session_id x =? sid)%string; reflexivity.
Qed.

(** X4. Ticking a task: on a backend whose calls go through and where
    exactly one task has the id, [updateTaskCompleted] returns that task
    with the new flag and with every other column as it was, in a single
    call; the sessions table is untouched, and a fetch afterwards lists
    every session with the tasks it had, of which only the one with that
    id has changed. *)
Theorem task_update_changes_one_flag :
  forall (db : PgStore.Db) (day : string) (tid : string) (c : bool)
         (t : TaskRow),
    PgStore.healthy db = true ->
    filter (fun x => (task_id x =? tid)%string) (PgStore.session_tasks db)
    = [t] ->
    exists w1 l w2,
      Remote.updateTaskCompleted tid c (PgStore.world db day)
      = (Js.Normal (PgStore.set_completed c t), w1) /\
      Remote.calls w1 = [(UpdateTask tid c, Succeeded)] /\
      PgStore.sessions (Remote.backend w1) = PgStore.sessions db /\
      Remote.fetchSessionsWithTasks w1 = (Js.Normal l, w2) /\
      Permutation (map row l) (PgStore.sessions db) /\
      forall x, In x l ->
        Permutation (tasks x)
          (map (fun u => if (task_id u =? tid)%string
                         then PgStore.set_completed c u else u)
             (filter (fun u => (session_id u =? id (row x))%string)
                (PgStore.session_tasks db))).
Proof.
  intros db day tid c t H Hone.
  destruct (healthy_update_exact (PgStore.world db day) tid c t H Hone)
    as (w1 & E1 & H1 & Ha & Hs & Ht & Hcalls).
  destruct (healthy_fetch_exact w1 H1) as (w2 & E2 & _ & _).
  cbn [PgStore.world Remote.backend Remote.calls app] in *.
  exists w1, (Expected.fetched (Remote.backend w1)), w2.
  split; [exact E1|]. split; [exact Hcalls|]. split; [exact Hs|].
  split; [exact E2|]. split.
  - rewrite map_row_fetched. unfold Expected.ordered_sessions. rewrite Hs.
    apply sort_rows_Permutation.
  - intros x Hin. unfold Expected.fetched in Hin.
    apply in_map_iff in Hin. destruct Hin as (r & <- & _).
    cbn [tasks row Expected.with_tasks]. unfold Expected.tasks_of.
    rewrite Ht, filter_map_flag. apply sort_rows_Permutation.
Qed.

(** The second task of the sample is ticked. *)
Lemma sample_task_is_ticked :
  (PgStore.healthy Sample.db = true /\
   filter (fun x => (task_id x =? "t2")%string)
     (PgStore.session_tasks Sample.db)
   = [Sample.task "t2" "a" (Some 2%Z)]) /\
  exists w1 l w2,
    Remote.updateTaskCompleted "t2" true (PgStore.world Sample.db Sample.day)
    = (Js.Normal (PgStore.set_completed true (Sample.task "t2" "a" (Some 2%Z))),
       w1) /\
    Remote.calls w1 = [(UpdateTask "t2" true, Succeeded)] /\
    PgStore.sessions (Remote.backend w1) = PgStore.sessions Sample.db /\
    Remote.fetchSessionsWithTasks w1 = (Js.Normal l, w2) /\
    Permutation (map row l) (PgStore.sessions Sample.db) /\
    forall x, In x l ->
      Permutation (tasks x)
        (map (fun u => if (task_id u =? "t2")%string
                       then PgStore.set_completed true u else u)
           (filter (fun u => (session_id u =? id (row x))%string)
              (PgStore.session_tasks Sample.db))).
Proof.
  split; [split; reflexivity|].
  apply (task_update_changes_one_flag Sample.db Sample.day "t2" true
           (Sample.task "t2" "a" (Some 2%Z))); reflexivity.
Defined.

(** ** App (remote): saving and deleting *)

Lemma notes_survive (n : string) :
  match Js.or_else Some n None with
  | Some x => Js.or_else (fun y => y) x ""
  | None => ""
  end = n.
Proof.
  unfold Js.or_else. destruct (Js.truthy n) eqn:E.
  - rewrite E. reflexivity.
  - apply truthy_false in E. auto.
Qed.

(** A saved draft comes back as it was, but for the id it got and the
    count of completed tasks, which the store has no column for. *)
Lemma toEntry_new_row (db : PgStore.Db) (n : nat) (form : SessionEntry)
    (u : string) (x : Js.number) :
  actualMinutes form = Some x ->
  Remote.toEntry
    (Expected.with_tasks db (PgStore.new_session_row n (Remote.toRow form u)))
  = Form.with_tasksCompleted None (Form.with_id (PgStore.gen_id n) form).
Proof.
  intros Hx. unfold Remote.toEntry, Form.with_tasksCompleted, Form.with_id.
  cbn. rewrite notes_survive, Hx. reflexivity.
Qed.

(** X5. Saving a valid draft against a backend whose calls go through,
    with somebody signed in: the handler clears the error, resets the
    form to the initial one for the day and installs the reloaded list.
    That list has one entry per row of the table and one more, the draft
    itself under the id the store generated, with its count of completed
    tasks gone; the row is in the table and nothing is written to the
    console. *)
Theorem remote_save_shows_the_new_entry :
  forall (db : PgStore.Db) (day : string) (st : Remote.AppState)
         (a : AuthSession),
    PgStore.healthy db = true ->
    PgStore.auth db = Some a ->
    Js.truthy (sessionType (Remote.st_form st)) = true ->
    Js.truthy (energyAfter (Remote.st_form st)) = true ->
    Form.not_a_number (actualMinutes (Remote.st_form st)) = false ->
    exists st' w',
      Remote.handleSave st (PgStore.world db day) = (Js.Normal st', w') /\
      Remote.st_error st' = None /\
      Remote.st_form st' = Form.initialForm day /\
      In (Form.with_tasksCompleted None
            (Form.with_id (PgStore.gen_id (PgStore.serial db))
               (Remote.st_form st)))
         (Remote.st_sessions st') /\
      List.length (Remote.st_sessions st')
      = Datatypes.S (List.length (PgStore.sessions db)) /\
      (forall r, In r (PgStore.sessions db) ->
         exists e, In e (Remote.st_sessions st') /\ e_id e = id r) /\
      In (PgStore.new_session_row (PgStore.serial db)
            (Remote.toRow (Remote.st_form st) (user a)))
         (PgStore.sessions (Remote.backend w')) /\
      Remote.console w' = [].
Proof.
  intros db day st a H Ha Ht He Hm.
  destruct (healthy_save_exact (PgStore.world db day) a (Remote.st_form st)
              H Ha) as (w1 & E1 & H1 & Ha1 & Hs1 & Ht1 & Hc1 & Hd1 & _).
  destruct (healthy_load_exact w1 a H1 Ha1)
    as (w2 & E2 & (H2 & (_ & Hs2 & _) & _ & Hc2 & Hd2) & _).
  cbn [PgStore.world Remote.backend Remote.console Remote.today] in *.
  unfold Remote.handleSave.
  cbn [Remote.st_form Remote.setError]. rewrite Ht, He, Hm. cbn [negb].
  unfold Eff.try_catch, Eff.bind, Eff.ret, Remote.get_today.
  rewrite E1, E2. eexists. eexists. split; [reflexivity|].
  cbn [Remote.st_error Remote.st_form Remote.st_sessions Remote.setForm
       Remote.setSessions Remote.setError].
  assert (Hrows : forall r,
            In r (PgStore.sessions (Remote.backend w1)) ->
            In (Remote.toEntry (Expected.with_tasks (Remote.backend w1) r))
              (map Remote.toEntry (Expected.fetched (Remote.backend w1)))).
  { intros r Hr. apply in_map. unfold Expected.fetched. apply in_map.
    apply In_sort_rows. exact Hr. }
  split; [reflexivity|]. split; [congruence|]. split.
  { destruct (actualMinutes (Remote.st_form st)) as [x|] eqn:Hx;
      [|discriminate].
    erewrite <- toEntry_new_row by exact Hx.
    apply Hrows. rewrite Hs1. apply in_or_app. right. left. reflexivity. }
  split.
  { unfold Expected.fetched, Expected.ordered_sessions. rewrite !length_map.
    rewrite (Permutation_length (sort_rows_Permutation _ _)).
    rewrite Hs1, length_app. cbn. lia. }
  split.
  { intros r Hr. eexists. split.
    - apply Hrows. rewrite Hs1. apply in_or_app. left. exact Hr.
    - reflexivity. }
  split.
  { rewrite Hs2, Hs1. apply in_or_app. right. left. reflexivity. }
  congruence.
Qed.

(** The draft of the day is saved next to the three stored sessions. *)
Lemma remote_save_on_sample :
  (PgStore.healthy Sample.db = true /\
   PgStore.auth Sample.db = Some {| user := "u1" |} /\
   Js.truthy (sessionType (Remote.st_form Scenario.remote_state)) = true /\
   Js.truthy (energyAfter (Remote.st_form Scenario.remote_state)) = true /\
   Form.not_a_number (actualMinutes (Remote.st_form Scenario.remote_state))
   = false) /\
  exists st' w',
    Remote.handleSave Scenario.remote_state
      (PgStore.world Sample.db Sample.day) = (Js.Normal st', w') /\
    Remote.st_error st' = None /\
    Remote.st_form st' = Form.initialForm Sample.day /\
    In (Form.with_tasksCompleted None
          (Form.with_id (PgStore.gen_id (PgStore.serial Sample.db))
             (Remote.st_form Scenario.remote_state)))
       (Remote.st_sessions st') /\
    List.length (Remote.st_sessions st')
    = Datatypes.S (List.length (PgStore.sessions Sample.db)) /\
    (forall r, In r (PgStore.sessions Sample.db) ->
       exists e, In e (Remote.st_sessions st') /\ e_id e = id r) /\
    In (PgStore.new_session_row (PgStore.serial Sample.db)
          (Remote.toRow (Remote.st_form Scenario.remote_state)
             (user {| user := "u1" |})))
       (PgStore.sessions (Remote.backend w')) /\
    Remote.console w' = [].
Proof.
  split; [repeat split; reflexivity|].
  apply (remote_save_shows_the_new_entry Sample.db Sample.day
           Scenario.remote_state {| user := "u1" |}); reflexivity.
Defined.







(** X7. Deleting an entry against a backend whose calls go through, with
    somebody signed in: the row with that id leaves the table, the list
    installed afterwards has no entry with that id and still has one for
    every other row, and neither the form nor the error shown changes. *)
Theorem remote_delete_removes_the_entry :
  forall (db : PgStore.Db) (day : string) (st : Remote.AppState)
         (sid : string) (a : AuthSession),
    PgStore.healthy db = true ->
    PgStore.auth db = Some a ->
    exists st' w',
      Remote.handleDelete sid st (PgStore.world db day) = (Js.Normal st', w') /\
      (forall e, In e (Remote.st_sessions st') -> e_id e <> sid) /\
      (forall r, In r (PgStore.sessions db) -> id r <> sid ->
         exists e, In e (Remote.st_sessions st') /\ e_id e = id r) /\
      (forall r, In r (PgStore.sessions (Remote.backend w')) <->
                 In r (PgStore.sessions db) /\ id r <> sid) /\
      Remote.st_error st' = Remote.st_error st /\
      Remote.st_form st' = Remote.st_form st /\
      Remote.console w' = [].
Proof.
  intros db day st sid a H Ha.
  unfold Remote.handleDelete, Eff.try_catch, Eff.bind, Eff.ret, Remote.await.
  cbn [delete_session PgStore.client PgStore.world Remote.backend].
  destruct (guarded_healthy (PgStore.run_delete_session sid) _ H)
    as (db1 & H1 & (Ha1 & Hs1 & Ht1) & _ & ->).
  cbn [PgStore.run_delete_session fst snd].
  match goal with
  | |- context [Remote.loadSessions ?x] =>
      assert (Hx : PgStore.healthy (Remote.backend x) = true) by exact H1;
      assert (Hax : PgStore.auth (Remote.backend x) = Some a)
        by (cbn; congruence);
      destruct (healthy_load_exact x a Hx Hax)
        as (w2 & E2 & (H2 & (_ & Hs2 & _) & _ & Hc2 & _) & _)
  end.
  rewrite E2. eexists. exists w2.
  split; [reflexivity|].
  cbn [Remote.backend Remote.console Remote.st_sessions Remote.st_error
       Remote.st_form Remote.setSessions PgStore.sessions
       PgStore.session_tasks] in *.
  rewrite Hs1 in *.
  set (dbd := {| PgStore.auth := PgStore.auth db1;
                 PgStore.sessions := _;
                 PgStore.session_tasks := PgStore.session_tasks db1;
                 PgStore.faults := PgStore.faults db1;
                 PgStore.serial := PgStore.serial db1 |}) in *.
  assert (Hkept : forall r,
            In r (filter (fun s => negb (id s =? sid)%string)
                    (PgStore.sessions db))
            <-> In r (PgStore.sessions db) /\ id r <> sid).
  { intros r. rewrite filter_In, negb_true_iff, String.eqb_neq. tauto. }
  split.
  { intros e He. apply in_map_iff in He. destruct He as (x & <- & Hx').
    unfold Expected.fetched in Hx'. apply in_map_iff in Hx'.
    destruct Hx' as (r & <- & Hr). apply In_sort_rows in Hr.
    cbn. apply Hkept. exact Hr. }
  split.
  { intros r Hr Hne.
    exists (Remote.toEntry (Expected.with_tasks dbd r)). split; [|reflexivity].
    apply in_map. unfold Expected.fetched. apply in_map. apply In_sort_rows.
    apply Hkept. auto. }
  split.
  { intros r. rewrite Hs2. apply Hkept. }
  auto.
Qed.

(** Session b of the sample is deleted. *)
Lemma remote_delete_on_sample :
  (PgStore.healthy Sample.db = true /\
   PgStore.auth Sample.db = Some {| user := "u1" |}) /\
  exists st' w',
    Remote.handleDelete "b" Sample.remote_state
      (PgStore.world Sample.db Sample.day) = (Js.Normal st', w') /\
    (forall e, In e (Remote.st_sessions st') -> e_id e <> "b") /\
    (forall r, In r (PgStore.sessions Sample.db) -> id r <> "b" ->
       exists e, In e (Remote.st_sessions st') /\ e_id e = id r) /\
    (forall r, In r (PgStore.sessions (Remote.backend w')) <->
               In r (PgStore.sessions Sample.db) /\ id r <> "b") /\
    Remote.st_error st' = Remote.st_error Sample.remote_state /\
    Remote.st_form st' = Remote.st_form Sample.remote_state /\
    Remote.console w' = [].
Proof.
  split; [split; reflexivity|].
  apply (remote_delete_removes_the_entry Sample.db Sample.day
           Sample.remote_state "b" {| user := "u1" |}); reflexivity.
Defined.

(** ** App (remote): start-up and the authentication listener *)

(** X8. Start-up never throws and always ends the loading state,
    whatever the client does, and touches neither the form nor the error
    shown.  With nobody signed in it makes no store call and leaves the
    list alone, and the page asks to sign in; with somebody signed in it
    installs what [loadSessions] returned; when the identity lookup
    itself fails, the failure goes to the console and nothing else
    changes. *)
Theorem initialize_always_stops_loading :
  forall (S : Type) (client : Client S) (w : Remote.World S)
         (st : Remote.AppState),
    exists w' st',
      RemoteApp.initializeApp (w, st) = (Js.Normal tt, (w', st')) /\
      Remote.st_isLoading st' = false /\
      Remote.st_form st' = Remote.st_form st /\
      Remote.st_error st' = Remote.st_error st /\
      match auth_getSession (Remote.backend w) with
      | (Js.Normal None, _) =>
          Remote.st_isAuthenticated st' = false /\
          Remote.st_sessions st' = Remote.st_sessions st /\
          Remote.issued w w' = [(AuthGetSession, Succeeded)] /\
          Remote.console w' = Remote.console w /\
          forall localeCompare,
            View.render localeCompare st' = View.PleaseSignIn
      | (Js.Normal (Some _), _) =>
          Remote.st_isAuthenticated st' = true /\
          exists w1,
            Remote.issued w w1 = [(AuthGetSession, Succeeded)] /\
            Remote.loadSessions w1 = (Js.Normal (Remote.st_sessions st'), w')
      | (Js.Throw v, _) =>
          Remote.st_isAuthenticated st' = Remote.st_isAuthenticated st /\
          Remote.st_sessions st' = Remote.st_sessions st /\
          Remote.issued w w' = [(AuthGetSession, Raised v)] /\
          Remote.console w'
          = (Remote.console w ++ ["Failed to initialize app"])%list
      end.
Proof.
  intros S client w st.
  unfold RemoteApp.initializeApp.
  unfold Component.finally, Component.detached, Component.lift,
    Component.set, Component.get, Eff.try_catch, Eff.bind, Eff.throw,
    Eff.ret in *.
  unfold Remote.getSession at 1. cbn [fst snd].
  destruct (auth_getSession (Remote.backend w)) as [[[a|]|v] s1].
  - cbn [fst snd RemoteApp.present].
    match goal with
    | |- context [Remote.loadSessions ?x] =>
        destruct (loadSessions_total x) as (loaded & EL);
        destruct (Remote.loadSessions x) as [c w2] eqn:E
    end.
    cbn [fst] in EL. subst c. cbn [fst snd].
    eexists. eexists. split; [reflexivity|]. cbn.
    repeat split; auto.
    eexists. split; [|exact E]. apply issued_app. reflexivity.
  - cbn. eexists. eexists. split; [reflexivity|]. cbn.
    repeat split; auto. apply issued_app. reflexivity.
  - cbn. eexists. eexists. split; [reflexivity|]. cbn.
    repeat split; auto. apply issued_app. reflexivity.
Qed.

(** X9. The authentication listener never throws.  On a sign-out it
    empties the list without any call, so that the page, once loaded,
    asks to sign in and holds no entry of the previous user; on a
    sign-in it installs what [loadSessions] returns.  The form is left
    alone in both cases. *)
Theorem auth_listener_clears_or_reloads :
  forall (S : Type) (client : Client S) (w : Remote.World S)
         (st : Remote.AppState),
    (exists st',
        RemoteApp.onAuthStateChange None (w, st) = (Js.Normal tt, (w, st')) /\
        Remote.st_sessions st' = [] /\
        Remote.st_isAuthenticated st' = false /\
        Remote.st_form st' = Remote.st_form st /\
        forall localeCompare,
          Remote.st_isLoading st = false ->
          View.render localeCompare st' = View.PleaseSignIn) /\
    (forall a,
        exists w' st',
          RemoteApp.onAuthStateChange (Some a) (w, st)
          = (Js.Normal tt, (w', st')) /\
          Remote.loadSessions w = (Js.Normal (Remote.st_sessions st'), w') /\
          Remote.st_isAuthenticated st' = true /\
          Remote.st_form st' = Remote.st_form st).
Proof.
  intros S client w st. split.
  - eexists. split; [reflexivity|]. cbn. repeat split; auto.
    intros lc Hl. unfold View.render. cbn. rewrite Hl. reflexivity.
  - intros a. unfold RemoteApp.onAuthStateChange.
    unfold Component.finally, Component.detached, Component.lift,
    Component.set, Component.get, Eff.try_catch, Eff.bind, Eff.throw,
    Eff.ret in *.
    cbn [fst snd].
    destruct (loadSessions_total w) as (loaded & EL).
    destruct (Remote.loadSessions w) as [c w2] eqn:E.
    cbn [fst] in EL. subst c. cbn.
    eexists. eexists. split; [reflexivity|]. cbn. auto.
Qed.

(** ** The table of saved sessions *)

Section StableSort.
Context {A : Type} (cmp : A -> A -> comparison).

Lemma view_insert_Permutation (x : A) (l : list A) :
  Permutation (View.insert cmp x l) (x :: l).
Proof.
  induction l as [|y l IH]; cbn; [reflexivity|].
  destruct (cmp x y); try reflexivity.
  rewrite IH. apply perm_swap.
Qed.

Lemma view_sort_Permutation (l : list A) : Permutation (View.sort cmp l) l.
Proof.
  induction l as [|x l IH]; cbn; [reflexivity|].
  rewrite view_insert_Permutation, IH. reflexivity.
Qed.

(** Elements that compare equal among themselves keep their order. *)
Lemma view_insert_filter (p : A -> bool) (x : A) (l : list A) :
  (forall a b, p a = true -> p b = true -> cmp a b = Eq) ->
  filter p (View.insert cmp x l) = filter p (x :: l).
Proof.
  intros Hp. induction l as [|y l IH]; cbn [View.insert]; [reflexivity|].
  destruct (cmp x y) eqn:E; try reflexivity.
  cbn [filter] in *. rewrite IH.
  destruct (p x) eqn:Px; [|reflexivity].
  destruct (p y) eqn:Py; [|reflexivity].
  rewrite (Hp x y Px Py) in E. discriminate.
Qed.

Lemma view_sort_filter (p : A -> bool) (l : list A) :
  (forall a b, p a = true -> p b = true -> cmp a b = Eq) ->
  filter p (View.sort cmp l) = filter p l.
Proof.
  intros Hp. induction l as [|x l IH]; cbn [View.sort]; [reflexivity|].
  rewrite (view_insert_filter p x _ Hp). cbn [filter]. rewrite IH.
  reflexivity.
Qed.

Hypothesis cmp_order : View.is_order cmp.

Lemma view_insert_sorted (x : A) (l : list A) :
  StronglySorted (fun a b => cmp a b <> Gt) l ->
  StronglySorted (fun a b => cmp a b <> Gt) (View.insert cmp x l).
Proof.
  destruct cmp_order as (Hanti & Htrans).
  induction 1 as [|y l Hl IH Hy]; cbn [View.insert].
  - constructor; constructor.
  - assert (Hcase : cmp x y <> Gt \/ cmp x y = Gt)
      by (destruct (cmp x y); [left|left|right]; congruence).
    destruct Hcase as [Hle|Hgt].
    + assert (E : match cmp x y with
                  | Gt => y :: View.insert cmp x l
                  | _ => x :: y :: l
                  end = x :: y :: l)
        by (destruct (cmp x y); congruence).
      rewrite E. constructor; [constructor; assumption|].
      constructor; [exact Hle|].
      eapply Forall_impl; [|exact Hy]. intros z Hz. eapply Htrans; eauto.
    + rewrite Hgt. constructor; [exact IH|].
      assert (Hyx : cmp y x <> Gt) by (rewrite Hanti, Hgt; discriminate).
      apply Forall_forall. intros z Hz.
      apply (Permutation_in _ (view_insert_Permutation x l)) in Hz.
      destruct Hz as [<-|Hz]; [exact Hyx|].
      rewrite Forall_forall in Hy. auto.
Qed.

Lemma view_sort_sorted (l : list A) :
  StronglySorted (fun a b => cmp a b <> Gt) (View.sort cmp l).
Proof.
  induction l as [|x l IH]; cbn [View.sort]; [constructor|].
  apply view_insert_sorted. exact IH.
Qed.

End StableSort.

Lemma StronglySorted_impl {A} (P Q : A -> A -> Prop) (l : list A) :
  (forall a b, P a b -> Q a b) -> StronglySorted P l -> StronglySorted Q l.
Proof.
  intros H. induction 1 as [|x l Hl IH Hx]; constructor; [exact IH|].
  eapply Forall_impl; [|exact Hx]. auto.
Qed.

Lemma by_date_desc_is_order (localeCompare : string -> string -> comparison) :
  View.is_order localeCompare ->
  View.is_order (View.by_date_desc localeCompare).
Proof.
  intros (Hanti & Htrans). unfold View.by_date_desc. split.
  - intros a b. apply Hanti.
  - intros a b c Hab Hbc. eapply Htrans; eauto.
Qed.

Lemma string_compare_is_order : View.is_order String.compare.
Proof.
  split.
  - intros a b. apply String.compare_antisym.
  - intros a b c. rewrite <- !leb_not_Gt. apply leb_trans.
Qed.

(** X10. The table shows every saved session exactly once.  When the
    collation orders the dates, the rows are listed from the latest date
    to the earliest, and sessions of the same date stay in the order the
    list had them, which for the remote variant is the order the store
    delivered: latest creation first. *)
Theorem table_rows_are_sorted_and_stable :
  forall (localeCompare : string -> string -> comparison)
         (sessions : list SessionEntry),
    View.is_order localeCompare ->
    Permutation (View.rows localeCompare sessions) sessions /\
    StronglySorted (View.not_older localeCompare)
      (View.rows localeCompare sessions) /\
    forall d,
      filter (fun e => (date e =? d)%string) (View.rows localeCompare sessions)
      = filter (fun e => (date e =? d)%string) sessions.
Proof.
  intros lc sessions Hord. unfold View.rows. split.
  - apply view_sort_Permutation.
  - split.
    + eapply StronglySorted_impl;
        [|apply view_sort_sorted, by_date_desc_is_order, Hord].
      intros a b. unfold View.by_date_desc, View.not_older.
      destruct Hord as (Hanti & _). rewrite (Hanti (date b) (date a)).
      destruct (lc (date b) (date a)); cbn; congruence.
    + intros d. apply view_sort_filter.
      intros a b Ha Hb. apply String.eqb_eq in Ha, Hb.
      unfold View.by_date_desc. rewrite Ha, Hb.
      destruct Hord as (Hanti & _). specialize (Hanti d d).
      destruct (lc d d); cbn in Hanti; congruence.
Qed.

(** The three sample sessions, as loaded from the store, under the
    ordering of strings by code unit. *)
Lemma table_of_the_sample :
  View.is_order String.compare /\
  Permutation
    (View.rows String.compare
       (map Remote.toEntry (Expected.fetched Sample.db)))
    (map Remote.toEntry (Expected.fetched Sample.db)) /\
  StronglySorted (View.not_older String.compare)
    (View.rows String.compare
       (map Remote.toEntry (Expected.fetched Sample.db))) /\
  map e_id
    (View.rows String.compare
       (map Remote.toEntry (Expected.fetched Sample.db)))
  = ["b"; "c"; "a"].
Proof.
  split; [exact string_compare_is_order|].
  destruct (table_rows_are_sorted_and_stable String.compare
              (map Remote.toEntry (Expected.fetched Sample.db))
              string_compare_is_order) as (Hp & Hs & _).
  split; [exact Hp|]. split; [exact Hs|]. reflexivity.
Defined.

(** ** The form *)

Ltac name_cases n :=
  destruct (n =? "plannedMinutes")%string eqn:?;
  destruct (n =? "actualMinutes")%string eqn:?;
  destruct (n =? "tasksCompleted")%string eqn:?;
  destruct (n =? "notes")%string eqn:?;
  destruct (n =? "date")%string eqn:?.

Ltac same_name :=
  repeat match goal with
         | H : (_ =? _)%string = true |- _ => apply String.eqb_eq in H
         end;
  subst; try congruence; try discriminate.

(** X11. Edits of the form do not interfere.  Two change events on
    inputs of different names give the same form in either order; of two
    events on the same input the later one decides; no event changes the
    id, the session type or the energy of the draft, an event of an
    input the handler does not know changes nothing, and a change of the
    energy goes through in either order.  An emptied numeric
    input is not read as zero: Actual Minutes becomes NaN, which the
    save then turns down, and Tasks Completed becomes null. *)
Theorem input_edits_are_independent :
  forall (Number : string -> Js.number) (n1 v1 n2 v2 : string)
         (form : SessionEntry),
    n1 <> n2 ->
    Input.handleInputChange Number n1 v1
      (Input.handleInputChange Number n2 v2 form)
    = Input.handleInputChange Number n2 v2
        (Input.handleInputChange Number n1 v1 form) /\
    Input.handleInputChange Number n1 v1
      (Input.handleInputChange Number n1 v2 form)
    = Input.handleInputChange Number n1 v1 form /\
    e_id (Input.handleInputChange Number n1 v1 form) = e_id form /\
    sessionType (Input.handleInputChange Number n1 v1 form)
    = sessionType form /\
    energyAfter (Input.handleInputChange Number n1 v1 form)
    = energyAfter form /\
    (n1 = "sessionType" -> Input.handleInputChange Number n1 v1 form = form) /\
    Input.handleEnergyChange v2 (Input.handleInputChange Number n1 v1 form)
    = Input.handleInputChange Number n1 v1 (Input.handleEnergyChange v2 form)
    /\
    Form.not_a_number
      (actualMinutes (Input.handleInputChange Number "actualMinutes" "" form))
    = true /\
    tasksCompleted (Input.handleInputChange Number "tasksCompleted" "" form)
    = None.
Proof.
  intros Number n1 v1 n2 v2 form Hne.
  split; [|split; [|split; [|split; [|split; [|split; [|split; [|split]]]]]]];
    try reflexivity.
  - unfold Input.handleInputChange.
    name_cases n1; name_cases n2; cbn [orb]; try reflexivity; same_name.
  - unfold Input.handleInputChange.
    name_cases n1; cbn [orb]; try reflexivity; same_name.
  - unfold Input.handleInputChange.
    name_cases n1; cbn [orb]; reflexivity.
  - unfold Input.handleInputChange.
    name_cases n1; cbn [orb]; reflexivity.
  - unfold Input.handleInputChange.
    name_cases n1; cbn [orb]; reflexivity.
  - intros ->. reflexivity.
  - unfold Input.handleInputChange.
    name_cases n1; cbn [orb]; reflexivity.
Qed.

(** Typing the minutes and then the notes, or the other way round. *)
Lemma minutes_and_notes_in_either_order :
  "actualMinutes" <> "notes" /\
  Input.handleInputChange Scenario.Number "actualMinutes" "40"
    (Input.handleInputChange Scenario.Number "notes" "deep work"
       (Form.initialForm Sample.day))
  = Input.handleInputChange Scenario.Number "notes" "deep work"
      (Input.handleInputChange Scenario.Number "actualMinutes" "40"
         (Form.initialForm Sample.day)) /\
  actualMinutes
    (Input.handleInputChange Scenario.Number "actualMinutes" "40"
       (Form.initialForm Sample.day))
  = Some (Js.Num 40).
Proof.
  assert (Hne : "actualMinutes" <> "notes") by discriminate.
  split; [exact Hne|]. split; [|reflexivity].
  apply (input_edits_are_independent Scenario.Number "actualMinutes" "40"
           "notes" "deep work" (Form.initialForm Sample.day) Hne).
Defined.

(** X12. Choosing a session type decides the planned minutes: 90 for
    Green, 45 for Yellow, 15 for any other value, whatever the draft
    held.  A number typed into Planned Minutes before the choice leaves
    no trace, while one typed after the choice stays; nothing else of
    the draft changes, and choosing the same type twice is choosing it
    once. *)
Theorem session_type_decides_planned_minutes :
  forall (Number : string -> Js.number) (t v : string) (form : SessionEntry),
    Form.handleSessionTypeChange t
      (Input.handleInputChange Number "plannedMinutes" v form)
    = Form.handleSessionTypeChange t form /\
    plannedMinutes (Form.handleSessionTypeChange t form)
    = Js.Num (if (t =? "Green")%string then 90
              else if (t =? "Yellow")%string then 45 else 15) /\
    (v <> "" ->
     plannedMinutes
       (Input.handleInputChange Number "plannedMinutes" v
          (Form.handleSessionTypeChange t form))
     = Number v) /\
    Form.handleSessionTypeChange t (Form.handleSessionTypeChange t form)
    = Form.handleSessionTypeChange t form /\
    e_id (Form.handleSessionTypeChange t form) = e_id form /\
    date (Form.handleSessionTypeChange t form) = date form /\
    actualMinutes (Form.handleSessionTypeChange t form) = actualMinutes form /\
    tasksCompleted (Form.handleSessionTypeChange t form)
    = tasksCompleted form /\
    energyAfter (Form.handleSessionTypeChange t form) = energyAfter form /\
    notes_ (Form.handleSessionTypeChange t form) = notes_ form.
Proof.
  intros Number t v form.
  split; [reflexivity|]. split; [reflexivity|]. split.
  - intros Hv. unfold Input.handleInputChange. cbn.
    destruct (v =? "")%string eqn:E; [|reflexivity].
    apply String.eqb_eq in E. contradiction.
  - repeat split; reflexivity.
Qed.


(** ** App (local): saving, deleting and starting up *)

Lemma valid_entry_with_id (i : string) (e : SessionEntry) :
  Local.valid_entry (Form.with_id i e) = Local.valid_entry e.
Proof. reflexivity. Qed.

Lemma valid_entry_has_minutes (e : SessionEntry) :
  Local.valid_entry e = true -> Form.not_a_number (actualMinutes e) = false.
Proof.
  unfold Local.valid_entry, Local.is_number, Form.not_a_number. intros H.
  apply andb_prop in H. destruct H as [H _].
  apply andb_prop in H. destruct H as [_ H].
  destruct (actualMinutes e) as [n|]; [|discriminate].
  destruct (Js.isNaN n); [discriminate|reflexivity].
Qed.

(** What a click on Save does with a draft that passes the checks. *)
Lemma click_save_run {json : JSON.Codec} (w : Local.World)
    (st : Local.AppState) :
  Js.truthy (sessionType (Local.st_form st)) = true ->
  Js.truthy (energyAfter (Local.st_form st)) = true ->
  Form.not_a_number (actualMinutes (Local.st_form st)) = false ->
  let entry :=
    Form.with_id (Local.fresh w (Local.drawn w)) (Local.st_form st) in
  let next := Local.entry_value entry :: Local.st_sessions st in
  let text := JSON.stringify (JSON.Array next) in
  exists st' w',
    Local.click_save st w = (Js.Normal st', w') /\
    Local.st_sessions st' = next /\
    Local.st_form st' = Form.initialForm (Local.today w) /\
    Local.st_error st' = None /\
    Local.drawn w' = Datatypes.S (Local.drawn w) /\
    Local.today w' = Local.today w /\
    Local.accepts (Local.localStorage w')
    = Local.accepts (Local.localStorage w) /\
    if Local.accepts (Local.localStorage w) Local.STORAGE_KEY text then
      Local.items (Local.localStorage w')
      = Local.update Local.STORAGE_KEY text (Local.items (Local.localStorage w))
      /\ Local.console w' = Local.console w
    else
      Local.items (Local.localStorage w') = Local.items (Local.localStorage w)
      /\ Local.console w'
         = (Local.console w
            ++ ["Failed to save sessions to localStorage";
                "Failed to save sessions to localStorage"])%list.
Proof.
  intros Ht He Hm. cbv zeta. unfold_local.
  cbn [Local.st_form Local.setError Local.st_sessions]. rewrite Ht, He, Hm.
  cbn [negb Local.localStorage Local.accepts Local.items Local.fresh
       Local.drawn Local.today Local.console].
  destruct (Local.accepts (Local.localStorage w) Local.STORAGE_KEY _) eqn:A.
  - cbn [Local.sessions_ref Local.setForm Local.setSessions].
    rewrite (proj2 (Nat.eqb_neq _ _) (n_Sn _)).
    cbn [Local.st_sessions Local.setForm Local.setSessions Local.setError
         Local.localStorage Local.accepts Local.today].
    rewrite ?A. eexists. eexists. split; [reflexivity|].
    cbn. repeat split; auto.
    rewrite update_same; [reflexivity|]. apply lookup_update.
  - cbn [Local.sessions_ref Local.setForm Local.setSessions].
    rewrite (proj2 (Nat.eqb_neq _ _) (n_Sn _)).
    cbn [Local.st_sessions Local.setForm Local.setSessions Local.setError
         Local.localStorage Local.accepts Local.today].
    rewrite ?A. eexists. eexists. split; [reflexivity|].
    cbn. rewrite <- app_assoc. repeat split; auto.
Qed.

Lemma load_reads_items {json : JSON.Codec} (w1 w2 : Local.World) :
  Local.items (Local.localStorage w1) = Local.items (Local.localStorage w2) ->
  fst (Local.loadSessions w1) = fst (Local.loadSessions w2).
Proof.
  intros H. unfold_local. rewrite H.
  destruct (Local.lookup _ _) as [raw|]; [|reflexivity].
  destruct (Js.truthy raw); cbn [negb]; [|reflexivity].
  destruct (JSON.parse raw) as [[]|]; reflexivity.
Qed.

(** X13. Saving in the local variant, with a storage that takes the
    write: a draft that passes the checks is put in front of the list
    under a fresh id, the form is reset for the day and no error is
    shown; the storage then holds the text of the new list, and loading
    from it gives the new list back, the new entry first. *)
Theorem local_save_is_stored_and_reloaded :
  forall (w : Local.World) (E : list SessionEntry) (st : Local.AppState),
    Local.st_sessions st = map Local.entry_value E ->
    forallb Local.valid_entry E = true ->
    Local.valid_entry (Local.st_form st) = true ->
    Js.truthy (sessionType (Local.st_form st)) = true ->
    Js.truthy (energyAfter (Local.st_form st)) = true ->
    (forall text,
        Local.accepts (Local.localStorage w) Local.STORAGE_KEY text = true) ->
    exists st' w',
      Local.click_save (json := JSON.codec) st w = (Js.Normal st', w') /\
      Local.st_sessions st'
      = map Local.entry_value
          (Form.with_id (Local.fresh w (Local.drawn w)) (Local.st_form st)
           :: E) /\
      Local.st_form st' = Form.initialForm (Local.today w) /\
      Local.st_error st' = None /\
      Local.persisted w'
      = Some (JSON.write (JSON.Array (Local.st_sessions st'))) /\
      Local.loadSessions (json := JSON.codec) w'
      = (Js.Normal (Local.st_sessions st'), w') /\
      Local.console w' = Local.console w.
Proof.
  intros w E st Hst HE Hform Ht He Hacc.
  destruct (click_save_run (json := JSON.codec) w st Ht He
              (valid_entry_has_minutes _ Hform))
    as (st' & w' & Erun & Hs & Hf & Herr & _ & _ & _ & Hitems).
  rewrite Hacc in Hitems. destruct Hitems as (Hitems & Hcons).
  exists st', w'. split; [exact Erun|].
  assert (Hs' : Local.st_sessions st'
                = map Local.entry_value
                    (Form.with_id (Local.fresh w (Local.drawn w))
                       (Local.st_form st) :: E))
    by (rewrite Hs, Hst; reflexivity).
  assert (Hp : Local.persisted w'
               = Some (JSON.write (JSON.Array (Local.st_sessions st')))).
  { unfold Local.persisted. rewrite Hitems, lookup_update, Hs. reflexivity. }
  split; [exact Hs'|]. split; [exact Hf|]. split; [exact Herr|].
  split; [exact Hp|]. split; [|exact Hcons].
  rewrite Hs' in *. apply load_written; [|exact Hp].
  cbn [forallb]. rewrite valid_entry_with_id, Hform, HE. reflexivity.
Qed.

(** The day's draft is saved on top of the scenario entry. *)
Lemma local_save_on_sample :
  (Local.st_sessions (Scenario.local_state [Sample.entry])
   = map Local.entry_value [Sample.entry] /\
   forallb Local.valid_entry [Sample.entry] = true /\
   Local.valid_entry (Local.st_form (Scenario.local_state [Sample.entry]))
   = true /\
   Js.truthy (sessionType (Local.st_form (Scenario.local_state [Sample.entry])))
   = true /\
   Js.truthy (energyAfter (Local.st_form (Scenario.local_state [Sample.entry])))
   = true) /\
  exists st' w',
    Local.click_save (json := JSON.codec)
      (Scenario.local_state [Sample.entry]) (Sample.browser [])
    = (Js.Normal st', w') /\
    Local.st_sessions st'
    = map Local.entry_value
        [Form.with_id "id-0" Scenario.draft; Sample.entry] /\
    Local.loadSessions (json := JSON.codec) w'
    = (Js.Normal (Local.st_sessions st'), w').
Proof.
  split; [repeat split; reflexivity|].
  destruct (local_save_is_stored_and_reloaded (Sample.browser [])
              [Sample.entry] (Scenario.local_state [Sample.entry])
              eq_refl eq_refl eq_refl eq_refl eq_refl (fun _ => eq_refl))
    as (st' & w' & E & Hs & _ & _ & _ & Hl & _).
  exists st', w'. split; [exact E|]. split; [exact Hs|exact Hl].
Defined.

(** X14. Saving in the local variant, with a storage that refuses the
    write: nothing is thrown and no error is shown; the entry is in the
    list on the screen and the form is reset, the failure is written to
    the console, once by the handler and once by the effect, and the
    storage is as it was, so that loading again gives the list from
    before the save. *)
Theorem refused_write_is_logged_and_swallowed :
  forall (json : JSON.Codec) (w : Local.World) (st : Local.AppState),
    Js.truthy (sessionType (Local.st_form st)) = true ->
    Js.truthy (energyAfter (Local.st_form st)) = true ->
    Form.not_a_number (actualMinutes (Local.st_form st)) = false ->
    (forall text,
        Local.accepts (Local.localStorage w) Local.STORAGE_KEY text = false) ->
    exists st' w',
      Local.click_save st w = (Js.Normal st', w') /\
      Local.st_sessions st'
      = Local.entry_value
          (Form.with_id (Local.fresh w (Local.drawn w)) (Local.st_form st))
        :: Local.st_sessions st /\
      Local.st_form st' = Form.initialForm (Local.today w) /\
      Local.st_error st' = None /\
      Local.persisted w' = Local.persisted w /\
      fst (Local.loadSessions w') = fst (Local.loadSessions w) /\
      Local.console w'
      = (Local.console w
         ++ ["Failed to save sessions to localStorage";
             "Failed to save sessions to localStorage"])%list.
Proof.
  intros json w st Ht He Hm Hacc.
  destruct (click_save_run w st Ht He Hm)
    as (st' & w' & Erun & Hs & Hf & Herr & _ & _ & _ & Hitems).
  rewrite Hacc in Hitems. destruct Hitems as (Hitems & Hcons).
  exists st', w'. split; [exact Erun|]. split; [exact Hs|].
  split; [exact Hf|]. split; [exact Herr|]. split.
  - unfold Local.persisted. rewrite Hitems. reflexivity.
  - split; [apply load_reads_items; exact Hitems|exact Hcons].
Qed.

(** The same draft, with a storage that is full. *)
Lemma refused_write_on_sample :
  (Js.truthy (sessionType (Local.st_form (Scenario.local_state [Sample.entry])))
   = true /\
   Js.truthy (energyAfter (Local.st_form (Scenario.local_state [Sample.entry])))
   = true /\
   Form.not_a_number
     (actualMinutes (Local.st_form (Scenario.local_state [Sample.entry])))
   = false) /\
  exists st' w',
    Local.click_save (json := JSON.codec)
      (Scenario.local_state [Sample.entry])
      (Scenario.full_browser [(Local.STORAGE_KEY, "[]")])
    = (Js.Normal st', w') /\
    List.length (Local.st_sessions st') = 2 /\
    Local.persisted w' = Some "[]" /\
    fst (Local.loadSessions (json := JSON.codec) w') = Js.Normal [] /\
    List.length (Local.console w') = 2.
Proof.
  split; [repeat split; reflexivity|].
  destruct (refused_write_is_logged_and_swallowed JSON.codec
              (Scenario.full_browser [(Local.STORAGE_KEY, "[]")])
              (Scenario.local_state [Sample.entry])
              eq_refl eq_refl eq_refl (fun _ => eq_refl))
    as (st' & w' & E & Hs & _ & _ & Hp & Hl & Hc).
  exists st', w'. split; [exact E|].
  rewrite Hs, Hp, Hl, Hc. repeat split; reflexivity.
Defined.

Lemma filter_out_entries (i : string) (E : list SessionEntry) :
  LocalApp.filter_out i (map Local.entry_value E)
  = Js.Normal
      (map Local.entry_value (filter (fun e => negb (e_id e =? i)%string) E)).
Proof.
  induction E as [|e E IH]; [reflexivity|].
  cbn [map LocalApp.filter_out filter]. rewrite IH.
  unfold LocalApp.id_differs, Local.entry_value at 1.
  cbn [LocalApp.property String.eqb Ascii.eqb Bool.eqb].
  destruct (negb (e_id e =? i)%string); reflexivity.
Qed.

Lemma forallb_filter {A} (p q : A -> bool) (l : list A) :
  forallb p l = true -> forallb p (filter q l) = true.
Proof.
  induction l as [|x l IH]; cbn; [auto|].
  intros H. apply andb_prop in H. destruct H as [Hx Hl].
  destruct (q x); cbn; [rewrite Hx|]; auto.
Qed.

Lemma entry_value_id (e e' : SessionEntry) :
  Local.entry_value e = Local.entry_value e' -> e_id e = e_id e'.
Proof. unfold Local.entry_value. intros H. injection H. auto. Qed.

(** What a click on Delete does when the list holds entries. *)
Lemma click_delete_run {json : JSON.Codec} (w : Local.World)
    (st : Local.AppState) (i : string) (next : list JSON.value) :
  LocalApp.filter_out i (Local.st_sessions st) = Js.Normal next ->
  LocalApp.roomy w ->
  exists w',
    LocalApp.click_delete i st w
    = (Js.Normal (Local.setSessions next st), w') /\
    Local.persisted w' = Some (JSON.stringify (JSON.Array next)) /\
    Local.console w' = Local.console w.
Proof.
  intros Hf Hacc.
  unfold LocalApp.click_delete, LocalApp.handleDelete. rewrite Hf.
  unfold_local. cbn [Local.sessions_ref Local.setSessions Local.st_sessions].
  rewrite (proj2 (Nat.eqb_neq _ _) (n_Sn _)), Hacc.
  eexists. split; [reflexivity|]. cbn. rewrite lookup_update. auto.
Qed.

(** X15. Deleting in the local variant, with a storage that takes the
    write: the entries with the given id leave the list, the others stay
    in their order, and the form and the error shown are untouched; the
    storage then holds the text of the shortened list, so that loading
    again returns it, without any entry of that id. *)
Theorem local_delete_is_persisted :
  forall (w : Local.World) (E : list SessionEntry) (st : Local.AppState)
         (i : string),
    Local.st_sessions st = map Local.entry_value E ->
    forallb Local.valid_entry E = true ->
    LocalApp.roomy w ->
    exists st' w',
      LocalApp.click_delete (json := JSON.codec) i st w
      = (Js.Normal st', w') /\
      Local.st_sessions st'
      = map Local.entry_value
          (filter (fun e => negb (e_id e =? i)%string) E) /\
      Local.st_form st' = Local.st_form st /\
      Local.st_error st' = Local.st_error st /\
      Local.loadSessions (json := JSON.codec) w'
      = (Js.Normal (Local.st_sessions st'), w') /\
      (forall e, In e E -> e_id e <> i ->
         In (Local.entry_value e) (Local.st_sessions st')) /\
      (forall e, In (Local.entry_value e) (Local.st_sessions st') ->
         e_id e <> i).
Proof.
  intros w E st i Hst HE Hacc.
  set (E' := filter (fun e => negb (e_id e =? i)%string) E).
  assert (Hf : LocalApp.filter_out i (Local.st_sessions st)
               = Js.Normal (map Local.entry_value E'))
    by (rewrite Hst; apply filter_out_entries).
  destruct (click_delete_run (json := JSON.codec) w st i _ Hf Hacc)
    as (w' & Erun & Hp & _).
  eexists. exists w'. split; [exact Erun|].
  cbn [Local.st_sessions Local.st_form Local.st_error Local.setSessions].
  split; [reflexivity|]. split; [reflexivity|]. split; [reflexivity|].
  split.
  { apply load_written; [|exact Hp]. apply forallb_filter. exact HE. }
  split.
  - intros e He Hne. apply in_map. apply filter_In. split; [exact He|].
    apply negb_true_iff, String.eqb_neq. exact Hne.
  - intros e He. apply in_map_iff in He. destruct He as (e' & Heq & He').
    apply filter_In in He'. destruct He' as (_ & Hne).
    apply negb_true_iff, String.eqb_neq in Hne.
    rewrite <- (entry_value_id _ _ Heq). exact Hne.
Qed.

(** The scenario entry is deleted; the other one stays. *)
Lemma local_delete_on_sample :
  (Local.st_sessions
     (Scenario.local_state [Sample.entry; Form.with_id "e9" Scenario.draft])
   = map Local.entry_value [Sample.entry; Form.with_id "e9" Scenario.draft] /\
   forallb Local.valid_entry [Sample.entry; Form.with_id "e9" Scenario.draft]
   = true /\
   LocalApp.roomy (Sample.browser [])) /\
  exists st' w',
    LocalApp.click_delete (json := JSON.codec) "e1"
      (Scenario.local_state [Sample.entry; Form.with_id "e9" Scenario.draft])
      (Sample.browser [])
    = (Js.Normal st', w') /\
    Local.st_sessions st'
    = [Local.entry_value (Form.with_id "e9" Scenario.draft)] /\
    Local.loadSessions (json := JSON.codec) w'
    = (Js.Normal (Local.st_sessions st'), w').
Proof.
  assert (Hroomy : LocalApp.roomy (Sample.browser []))
    by (intros text; reflexivity).
  split; [repeat split; try reflexivity; exact Hroomy|].
  destruct (local_delete_is_persisted (Sample.browser [])
              [Sample.entry; Form.with_id "e9" Scenario.draft]
              (Scenario.local_state
                 [Sample.entry; Form.with_id "e9" Scenario.draft])
              "e1" eq_refl eq_refl Hroomy)
    as (st' & w' & E & Hs & _ & _ & Hl & _).
  exists st', w'. split; [exact E|]. split; [exact Hs|exact Hl].
Defined.


(** What mounting does when the storage takes the writes. *)
Lemma mount_run {json : JSON.Codec} (w : Local.World)
    (loaded : list JSON.value) :
  Local.loadSessions w = (Js.Normal loaded, w) ->
  LocalApp.roomy w ->
  exists w',
    LocalApp.mount w
    = (Js.Normal
         (Local.setSessions loaded (LocalApp.initial (Local.today w))), w') /\
    Local.persisted w' = Some (JSON.stringify (JSON.Array loaded)) /\
    Local.accepts (Local.localStorage w')
    = Local.accepts (Local.localStorage w) /\
    Local.console w' = Local.console w.
Proof.
  intros Hl Hacc. unfold LocalApp.mount, Eff.bind, Local.get_today.
  rewrite Hl. unfold_local.
  cbn [Local.st_sessions LocalApp.initial Local.sessions_ref
       Local.setSessions Nat.eqb].
  rewrite Hacc. cbn [Local.localStorage Local.accepts]. rewrite Hacc.
  eexists. split; [reflexivity|]. cbn. rewrite lookup_update. auto.
Qed.

(** X16. Starting the local variant over a storage that holds the text
    of a list of valid entries and takes the writes: the list on the
    screen is that list, the form is the initial one for the day, no
    error is shown, nothing is written to the console, and although the
    second effect first writes the empty list of the first render, the
    storage ends up holding the text it held. *)
Theorem mount_keeps_what_was_stored :
  forall (w : Local.World) (E : list SessionEntry),
    forallb Local.valid_entry E = true ->
    Local.persisted w
    = Some (JSON.write (JSON.Array (map Local.entry_value E))) ->
    LocalApp.roomy w ->
    exists st' w',
      LocalApp.mount (json := JSON.codec) w = (Js.Normal st', w') /\
      Local.st_sessions st' = map Local.entry_value E /\
      Local.st_form st' = Form.initialForm (Local.today w) /\
      Local.st_error st' = None /\
      Local.persisted w' = Local.persisted w /\
      Local.console w' = Local.console w.
Proof.
  intros w E HE Hp Hacc.
  destruct (mount_run (json := JSON.codec) w _ (load_written E w HE Hp) Hacc)
    as (w' & Erun & Hp' & _ & Hc).
  eexists. exists w'. split; [exact Erun|].
  cbn. rewrite Hp', Hp. auto.
Qed.

(** A browser that holds the scenario entry. *)
Lemma mount_on_sample :
  (forallb Local.valid_entry [Sample.entry] = true /\
   Local.persisted
     (Sample.browser
        [(Local.STORAGE_KEY,
          JSON.write (JSON.Array (map Local.entry_value [Sample.entry])))])
   = Some (JSON.write (JSON.Array (map Local.entry_value [Sample.entry]))) /\
   LocalApp.roomy
     (Sample.browser
        [(Local.STORAGE_KEY,
          JSON.write (JSON.Array (map Local.entry_value [Sample.entry])))])) /\
  exists st' w',
    LocalApp.mount (json := JSON.codec)
      (Sample.browser
         [(Local.STORAGE_KEY,
           JSON.write (JSON.Array (map Local.entry_value [Sample.entry])))])
    = (Js.Normal st', w') /\
    Local.st_sessions st' = map Local.entry_value [Sample.entry] /\
    Local.persisted w'
    = Some (JSON.write (JSON.Array (map Local.entry_value [Sample.entry]))).
Proof.
  set (w := Sample.browser
              [(Local.STORAGE_KEY,
                JSON.write
                  (JSON.Array (map Local.entry_value [Sample.entry])))]).
  assert (Hroomy : LocalApp.roomy w) by (intros text; reflexivity).
  split; [repeat split; try reflexivity; exact Hroomy|].
  destruct (mount_keeps_what_was_stored w [Sample.entry] eq_refl eq_refl
              Hroomy) as (st' & w' & E & Hs & _ & _ & Hp & _).
  exists st', w'. split; [exact E|]. split; [exact Hs|]. rewrite Hp.
  reflexivity.
Defined.



(** ** The Auth component *)

(** X18. Signing out, in the component that signs in with Google: once
    the sign-out call has settled, whatever it answered, the component
    holds no session and is not loading, so that it shows the sign-in
    page; an error in the answer is not looked at.  When the call
    rejects, the rejection is not caught and the component is left
    loading, with the session it had.  The component that signs in with
    a magic link stops loading but keeps its session: it goes on showing
    its children until the listener is told of the sign-out. *)
Theorem sign_out_outcomes :
  forall (S : Type) (api : AuthUi.Api S) (w : AuthUi.World S),
    (forall st : AuthUi.Google.State,
        match AuthUi.signOut (AuthUi.backend w) with
        | (Js.Normal _, _) =>
            exists w',
              AuthUi.Google.handleSignOut (w, st)
              = (Js.Normal tt,
                 (w', {| AuthUi.Google.session := None;
                         AuthUi.Google.loading := false;
                         AuthUi.Google.error_ := AuthUi.Google.error_ st |}))
              /\
              AuthUi.requests w'
              = (AuthUi.requests w ++ [AuthUi.SignOut])%list /\
              AuthUi.Google.render
                {| AuthUi.Google.session := None;
                   AuthUi.Google.loading := false;
                   AuthUi.Google.error_ := AuthUi.Google.error_ st |}
              = AuthUi.Google.SignIn (AuthUi.shown (AuthUi.Google.error_ st))
        | (Js.Throw v, _) =>
            exists w' st',
              AuthUi.Google.handleSignOut (w, st) = (Js.Throw v, (w', st')) /\
              AuthUi.Google.session st' = AuthUi.Google.session st /\
              AuthUi.Google.render st' = AuthUi.Google.Loading
        end) /\
    (forall (st : AuthUi.MagicLink.State) (a : AuthSession),
        AuthUi.MagicLink.session st = Some a ->
        match AuthUi.signOut (AuthUi.backend w) with
        | (Js.Normal _, _) =>
            exists w' st',
              AuthUi.MagicLink.handleSignOut (w, st)
              = (Js.Normal tt, (w', st')) /\
              AuthUi.MagicLink.render st' = AuthUi.MagicLink.Children false /\
              exists st'',
                AuthUi.MagicLink.onAuthStateChange None (w', st')
                = (Js.Normal tt, (w', st'')) /\
                exists form,
                  AuthUi.MagicLink.render st'' = AuthUi.MagicLink.SignIn form
        | (Js.Throw v, _) =>
            exists w' st',
              AuthUi.MagicLink.handleSignOut (w, st)
              = (Js.Throw v, (w', st')) /\
              AuthUi.MagicLink.render st' = AuthUi.MagicLink.Children true
        end).
Proof.
  intros S api w. split.
  - intros st.
    unfold AuthUi.Google.handleSignOut, AuthUi.await, Component.lift,
      Component.set, Eff.bind.
    cbn [fst snd].
    destruct (AuthUi.signOut (AuthUi.backend w)) as [[r|v] s1]; cbn.
    + eexists. split; [reflexivity|]. split; reflexivity.
    + eexists. eexists. split; [reflexivity|]. split; reflexivity.
  - intros st a Hs.
    unfold AuthUi.MagicLink.handleSignOut, AuthUi.MagicLink.onAuthStateChange,
      AuthUi.await, Component.lift, Component.set, Eff.bind.
    cbn [fst snd].
    destruct (AuthUi.signOut (AuthUi.backend w)) as [[r|v] s1]; cbn.
    + eexists. eexists. split; [reflexivity|].
      unfold AuthUi.MagicLink.render. cbn. rewrite Hs. split; [reflexivity|].
      eexists. split; [reflexivity|]. eexists. reflexivity.
    + eexists. eexists. split; [reflexivity|].
      unfold AuthUi.MagicLink.render. cbn. rewrite Hs. reflexivity.
Qed.

(** X19. Signing in with Google: the handler asks for the provider
    google and for a return to the page's origin followed by the base
    path, in one call.  When the answer carries an error, its message is
    shown on the sign-in page and loading ends; when it carries none,
    the component stays loading, waiting for the listener; when the call
    rejects, the rejection is not caught and the component is left
    loading.  The session is never touched. *)
Theorem google_sign_in_outcomes :
  forall (S : Type) (api : AuthUi.Api S) (w : AuthUi.World S)
         (st : AuthUi.Google.State),
    match AuthUi.signInWithOAuth "google"
            (AuthUi.origin w ++ AuthUi.BASE_URL w) (AuthUi.backend w) with
    | (Js.Normal r, _) =>
        exists w' st',
          AuthUi.Google.handleGoogleSignIn (w, st)
          = (Js.Normal tt, (w', st')) /\
          AuthUi.requests w'
          = (AuthUi.requests w
             ++ [AuthUi.SignInWithOAuth "google"
                   (AuthUi.origin w ++ AuthUi.BASE_URL w)])%list /\
          AuthUi.Google.session st' = AuthUi.Google.session st /\
          match error r with
          | Some e =>
              AuthUi.Google.error_ st' = message e /\
              AuthUi.Google.loading st' = false /\
              (AuthUi.Google.session st = None ->
               AuthUi.Google.render st'
               = AuthUi.Google.SignIn (AuthUi.shown (message e)))
          | None =>
              AuthUi.Google.error_ st' = "" /\
              AuthUi.Google.render st' = AuthUi.Google.Loading
          end
    | (Js.Throw v, _) =>
        exists w' st',
          AuthUi.Google.handleGoogleSignIn (w, st)
          = (Js.Throw v, (w', st')) /\
          AuthUi.requests w'
          = (AuthUi.requests w
             ++ [AuthUi.SignInWithOAuth "google"
                   (AuthUi.origin w ++ AuthUi.BASE_URL w)])%list /\
          AuthUi.Google.session st' = AuthUi.Google.session st /\
          AuthUi.Google.error_ st' = "" /\
          AuthUi.Google.render st' = AuthUi.Google.Loading
    end.
Proof.
  intros S api w st.
  unfold AuthUi.Google.handleGoogleSignIn, AuthUi.await,
    AuthUi.get_redirectTo, Component.lift, Component.set, Eff.bind, Eff.ret.
  cbn [fst snd].
  destruct (AuthUi.signInWithOAuth "google"
              (AuthUi.origin w ++ AuthUi.BASE_URL w) (AuthUi.backend w))
    as [[r|v] s1]; cbn [fst snd].
  - destruct (error r) as [e|]; cbn.
    + eexists. eexists. split; [reflexivity|]. cbn.
      repeat split; auto. intros Hs. unfold AuthUi.Google.render. cbn.
      rewrite Hs. reflexivity.
    + eexists. eexists. split; [reflexivity|]. cbn. auto.
  - cbn. eexists. eexists. split; [reflexivity|]. cbn. auto.
Qed.

(** X20. Asking for a magic link: the request carries the address typed
    in the form, in one call.  Once it has settled the form is enabled
    again; a refusal shows the service's message and keeps the address,
    an acceptance shows the invitation to check the mail and clears the
    address, and never both a message and an error.  When the call
    rejects, the rejection is not caught: the messages are cleared and
    the form stays disabled, its button reading Sending. *)
Theorem magic_link_sign_in_outcomes :
  forall (S : Type) (api : AuthUi.Api S) (w : AuthUi.World S)
         (st : AuthUi.MagicLink.State),
    match AuthUi.signInWithOtp (AuthUi.MagicLink.email st)
            (AuthUi.backend w) with
    | (Js.Normal r, _) =>
        exists w' st',
          AuthUi.MagicLink.handleSignIn (w, st) = (Js.Normal tt, (w', st')) /\
          AuthUi.requests w'
          = (AuthUi.requests w
             ++ [AuthUi.SignInWithOtp (AuthUi.MagicLink.email st)])%list /\
          AuthUi.MagicLink.loading st' = false /\
          AuthUi.MagicLink.session st' = AuthUi.MagicLink.session st /\
          match error r with
          | Some e =>
              AuthUi.MagicLink.error_ st' = message e /\
              AuthUi.MagicLink.message_ st' = "" /\
              AuthUi.MagicLink.email st' = AuthUi.MagicLink.email st
          | None =>
              AuthUi.MagicLink.error_ st' = "" /\
              AuthUi.MagicLink.message_ st'
              = "Check your email for the magic link!" /\
              AuthUi.MagicLink.email st' = ""
          end
    | (Js.Throw v, _) =>
        exists w' st',
          AuthUi.MagicLink.handleSignIn (w, st) = (Js.Throw v, (w', st')) /\
          AuthUi.MagicLink.session st' = AuthUi.MagicLink.session st /\
          (AuthUi.MagicLink.session st = None ->
           AuthUi.MagicLink.render st'
           = AuthUi.MagicLink.SignIn
               {| AuthUi.MagicLink.input_value := AuthUi.MagicLink.email st;
                  AuthUi.MagicLink.disabled := true;
                  AuthUi.MagicLink.button := "Sending...";
                  AuthUi.MagicLink.shown_message := None;
                  AuthUi.MagicLink.shown_error := None |})
    end.
Proof.
  intros S api w st.
  unfold AuthUi.MagicLink.handleSignIn, AuthUi.await, Component.lift,
    Component.set, Component.get, Eff.bind.
  cbn [fst snd].
  destruct (AuthUi.signInWithOtp (AuthUi.MagicLink.email st)
              (AuthUi.backend w)) as [[r|v] s1]; cbn [fst snd].
  - destruct (error r) as [e|]; cbn.
    + eexists. eexists. split; [reflexivity|]. cbn. auto 10.
    + eexists. eexists. split; [reflexivity|]. cbn. auto 10.
  - cbn. eexists. eexists. split; [reflexivity|]. cbn.
    split; [reflexivity|]. intros Hs. unfold AuthUi.MagicLink.render. cbn.
    rewrite Hs. reflexivity.
Qed.


(** ** App (remote): what the screen shows *)

(** X22. A reload that fails after a save that went through: with
    somebody signed in, the insert accepted and the sessions query that
    follows refused, [handleSave] still resets the form and shows no
    error, and the list it installs is empty although the table holds
    the new row next to the old ones; the only trace is a line on the
    console. *)
Theorem failed_reload_empties_the_list_silently :
  forall (db : PgStore.Db) (day : string) (st : Remote.AppState)
         (a : AuthSession) (cause : string)
         (rest : list (option PgStore.Fault)),
    PgStore.auth db = Some a ->
    PgStore.faults db = None :: Some (PgStore.Reject cause) :: rest ->
    Js.truthy (sessionType (Remote.st_form st)) = true ->
    Js.truthy (energyAfter (Remote.st_form st)) = true ->
    Form.not_a_number (actualMinutes (Remote.st_form st)) = false ->
    exists st' w',
      Remote.handleSave st (PgStore.world db day) = (Js.Normal st', w') /\
      Remote.st_sessions st' = [] /\
      Remote.st_error st' = None /\
      Remote.st_form st' = Form.initialForm day /\
      PgStore.sessions (Remote.backend w')
      = (PgStore.sessions db
         ++ [PgStore.new_session_row (PgStore.serial db)
               (Remote.toRow (Remote.st_form st) (user a))])%list /\
      Remote.console w' = ["Failed to load sessions from Supabase"].
Proof.
  intros db day st a cause rest Ha Hf Ht He Hm.
  unfold Remote.handleSave.
  cbn [Remote.st_form Remote.setError]. rewrite Ht, He, Hm. cbn [negb].
  unfold_run.
  cbn [auth_getSession insert_session select_sessions PgStore.client
       PgStore.world Remote.backend].
  rewrite Ha. cbn [Remote.backend user].
  unfold PgStore.guarded at 1, PgStore.next_fault. rewrite Hf.
  cbn [PgStore.run_insert_session PgStore.with_faults fst snd PgStore.ok
       error data List.length Nat.ltb Nat.leb map Remote.backend
       PgStore.auth PgStore.faults PgStore.sessions].
  rewrite Ha.
  unfold PgStore.guarded, PgStore.next_fault.
  cbn [PgStore.faults PgStore.with_faults PgStore.failed error fst snd
       Remote.backend Remote.outcome_of].
  eexists. eexists. split; [reflexivity|]. cbn. auto 10.
Qed.

(** The sample backend refuses the query that follows the insert. *)
Lemma failed_reload_on_sample :
  (PgStore.auth
     (PgStore.with_faults [None; Some (PgStore.Reject "timeout")] Sample.db)
   = Some {| user := "u1" |} /\
   PgStore.faults
     (PgStore.with_faults [None; Some (PgStore.Reject "timeout")] Sample.db)
   = [None; Some (PgStore.Reject "timeout")] /\
   Js.truthy (sessionType (Remote.st_form Scenario.remote_state)) = true /\
   Js.truthy (energyAfter (Remote.st_form Scenario.remote_state)) = true /\
   Form.not_a_number (actualMinutes (Remote.st_form Scenario.remote_state))
   = false) /\
  exists st' w',
    Remote.handleSave Scenario.remote_state
      (PgStore.world
         (PgStore.with_faults [None; Some (PgStore.Reject "timeout")]
            Sample.db)
         Sample.day)
    = (Js.Normal st', w') /\
    Remote.st_sessions st' = [] /\
    Remote.st_error st' = None /\
    List.length (PgStore.sessions (Remote.backend w')) = 4.
Proof.
  split; [repeat split; reflexivity|].
  destruct (failed_reload_empties_the_list_silently
              (PgStore.with_faults [None; Some (PgStore.Reject "timeout")]
                 Sample.db)
              Sample.day Scenario.remote_state {| user := "u1" |} "timeout" []
              eq_refl eq_refl eq_refl eq_refl eq_refl)
    as (st' & w' & E & Hs & He & _ & Hrows & _).
  exists st', w'. split; [exact E|]. split; [exact Hs|]. split; [exact He|].
  rewrite Hrows. reflexivity.
Defined.

Lemma queries_are_store_calls (db : PgStore.Db) :
  filter (fun ev : Event => match fst ev with
                            | AuthGetSession => true
                            | _ => false
                            end) (Expected.queries db) = [].
Proof.
  unfold Expected.queries. cbn [filter fst].
  induction (Expected.ordered_sessions db) as [|r l IH]; [reflexivity|].
  exact IH.
Qed.

(** X23. Start-up with somebody signed in, on a backend whose calls go
    through: the page leaves the loading state and shows the tracker,
    without an error, with the initial form, and with a table that lists
    every stored session exactly once.  The identity is looked up twice,
    once by the start-up code and once by [loadSessions]. *)
Theorem start_up_shows_every_session :
  forall (db : PgStore.Db) (day : string) (a : AuthSession)
         (localeCompare : string -> string -> comparison),
    PgStore.healthy db = true ->
    PgStore.auth db = Some a ->
    exists w' st' table,
      RemoteApp.initializeApp (PgStore.world db day, RemoteApp.initial day)
      = (Js.Normal tt, (w', st')) /\
      View.render localeCompare st'
      = View.Tracker None (Form.initialForm day) table /\
      Permutation (map e_id table) (map id (PgStore.sessions db)) /\
      List.length
        (filter (fun ev => match fst ev with
                           | AuthGetSession => true
                           | _ => false
                           end) (Remote.calls w')) = 2 /\
      Remote.console w' = [].
Proof.
  intros db day a lc H Ha.
  unfold RemoteApp.initializeApp.
  unfold Component.finally, Component.detached, Component.lift,
    Component.set, Component.get, Eff.try_catch, Eff.bind, Eff.throw,
    Eff.ret in *.
  unfold Remote.getSession at 1.
  cbn [fst snd auth_getSession PgStore.client PgStore.world Remote.backend].
  rewrite Ha. cbn [fst snd RemoteApp.present].
  match goal with
  | |- context [Remote.loadSessions ?x] =>
      destruct (healthy_load_exact x a H Ha)
        as (w2 & E2 & (_ & _ & _ & Hc & _) & Hcalls)
  end.
  cbn [Remote.backend Remote.calls Remote.console] in *.
  rewrite E2. cbn [fst snd].
  eexists. eexists.
  exists (View.rows lc (map Remote.toEntry (Expected.fetched db))).
  split; [reflexivity|].
  split; [reflexivity|]. split.
  - unfold View.rows.
    rewrite (Permutation_map e_id (view_sort_Permutation _ _)).
    unfold Expected.fetched. rewrite !map_map. cbn.
    apply Permutation_map. apply sort_rows_Permutation.
  - rewrite Hcalls.
    cbn [PgStore.world Remote.calls Remote.console app] in *.
    split; [|exact Hc]. cbn [filter fst List.length].
    rewrite queries_are_store_calls. reflexivity.
Qed.

(** The sample backend at start-up, under the ordering of strings by
    code unit: the session of the third comes first, then the two of the
    second, the later one first. *)
Lemma start_up_on_sample :
  (PgStore.healthy Sample.db = true /\
   PgStore.auth Sample.db = Some {| user := "u1" |}) /\
  exists w' st' table,
    RemoteApp.initializeApp
      (PgStore.world Sample.db Sample.day, RemoteApp.initial Sample.day)
    = (Js.Normal tt, (w', st')) /\
    View.render String.compare st'
    = View.Tracker None (Form.initialForm Sample.day) table /\
    map e_id table = ["b"; "c"; "a"].
Proof.
  split; [split; reflexivity|].
  destruct (start_up_shows_every_session Sample.db Sample.day
              {| user := "u1" |} String.compare eq_refl eq_refl)
    as (w' & st' & table & E & Hr & _).
  exists w', st', table. split; [exact E|]. split; [exact Hr|].
  vm_compute in E. injection E as <- <-.
  vm_compute in Hr. injection Hr as <-. reflexivity.
Defined.

(** ** Saving and then deleting *)

Lemma fetched_ext (db db' : PgStore.Db) :
  PgStore.sessions db' = PgStore.sessions db ->
  PgStore.session_tasks db' = PgStore.session_tasks db ->
  Expected.fetched db' = Expected.fetched db.
Proof.
  intros Hs Ht.
  unfold Expected.fetched, Expected.ordered_sessions, Expected.with_tasks,
    Expected.tasks_of.
  rewrite Hs, Ht. reflexivity.
Qed.

Lemma healthy_delete_exact (w : Remote.World PgStore.Db)
    (st : Remote.AppState) (sid : string) (a : AuthSession) :
  PgStore.healthy (Remote.backend w) = true ->
  PgStore.auth (Remote.backend w) = Some a ->
  exists st' w',
    Remote.handleDelete sid st w = (Js.Normal st', w') /\
    (forall db0,
        PgStore.sessions db0
        = filter (fun s => negb (id s =? sid)%string)
            (PgStore.sessions (Remote.backend w)) ->
        PgStore.session_tasks db0 = PgStore.session_tasks (Remote.backend w) ->
        st' = Remote.setSessions
                (map Remote.toEntry (Expected.fetched db0)) st) /\
    PgStore.sessions (Remote.backend w')
    = filter (fun s => negb (id s =? sid)%string)
        (PgStore.sessions (Remote.backend w)) /\
    PgStore.session_tasks (Remote.backend w')
    = PgStore.session_tasks (Remote.backend w) /\
    Remote.console w' = Remote.console w.
Proof.
  intros H Ha.
  unfold Remote.handleDelete, Eff.try_catch, Eff.bind, Eff.ret, Remote.await.
  cbn [delete_session PgStore.client].
  destruct (guarded_healthy (PgStore.run_delete_session sid) _ H)
    as (db1 & H1 & (Ha1 & Hs1 & Ht1) & _ & ->).
  cbn [PgStore.run_delete_session fst snd].
  match goal with
  | |- context [Remote.loadSessions ?x] =>
      assert (Hx : PgStore.healthy (Remote.backend x) = true) by exact H1;
      assert (Hax : PgStore.auth (Remote.backend x) = Some a)
        by (cbn; congruence);
      destruct (healthy_load_exact x a Hx Hax)
        as (w2 & E2 & (H2 & (_ & Hs2 & Ht2) & _ & Hc2 & _) & _)
  end.
  rewrite E2. eexists. exists w2. split; [reflexivity|].
  cbn [Remote.backend Remote.console PgStore.sessions PgStore.session_tasks]
    in *.
  rewrite Hs1, Ht1 in *. repeat split; auto.
  intros db0 Hs0 Ht0. f_equal. f_equal. apply fetched_ext; cbn; congruence.
Qed.

(** X24. Deleting the entry just saved undoes the save, in the remote
    variant: with somebody signed in, every call going through and no
    stored session under the id the store is about to generate, saving a
    draft that passes the checks and then deleting the entry with the
    generated id leaves both tables as they were and shows the list that
    a plain reload of them gives. *)
Theorem remote_delete_undoes_save :
  forall (db : PgStore.Db) (day : string) (st : Remote.AppState)
         (a : AuthSession),
    PgStore.healthy db = true ->
    PgStore.auth db = Some a ->
    Js.truthy (sessionType (Remote.st_form st)) = true ->
    Js.truthy (energyAfter (Remote.st_form st)) = true ->
    Form.not_a_number (actualMinutes (Remote.st_form st)) = false ->
    (forall r, In r (PgStore.sessions db) ->
       id r <> PgStore.gen_id (PgStore.serial db)) ->
    exists st1 w1 st2 w2,
      Remote.handleSave st (PgStore.world db day) = (Js.Normal st1, w1) /\
      Remote.handleDelete (PgStore.gen_id (PgStore.serial db)) st1 w1
      = (Js.Normal st2, w2) /\
      Remote.st_sessions st2 = map Remote.toEntry (Expected.fetched db) /\
      PgStore.sessions (Remote.backend w2) = PgStore.sessions db /\
      PgStore.session_tasks (Remote.backend w2) = PgStore.session_tasks db /\
      Remote.st_error st2 = None /\
      Remote.console w2 = [].
Proof.
  intros db day st a H Ha Ht He Hm Hfresh.
  destruct (healthy_save_exact (PgStore.world db day) a (Remote.st_form st)
              H Ha) as (w1 & E1 & H1 & Ha1 & Hs1 & Ht1 & Hc1 & Hd1 & _).
  destruct (healthy_load_exact w1 a H1 Ha1)
    as (w2 & E2 & (H2 & (Ha2 & Hs2 & Ht2) & _ & Hc2 & Hd2) & _).
  assert (Ha2' : PgStore.auth (Remote.backend w2) = Some a) by congruence.
  cbn [PgStore.world Remote.backend Remote.console Remote.today] in *.
  unfold Remote.handleSave.
  cbn [Remote.st_form Remote.setError]. rewrite Ht, He, Hm. cbn [negb].
  unfold Eff.try_catch, Eff.bind, Eff.ret, Remote.get_today.
  rewrite E1, E2.
  match goal with
  | |- context [(Js.Normal ?s, w2)] =>
      destruct (healthy_delete_exact w2 s (PgStore.gen_id (PgStore.serial db))
                  a H2 Ha2')
        as (st2 & w3 & E3 & Hst2 & Hs3 & Ht3 & Hc3)
  end.
  assert (Hrows : PgStore.sessions (Remote.backend w3) = PgStore.sessions db).
  { rewrite Hs3, Hs2, Hs1, filter_app. cbn [filter PgStore.new_session_row id].
    rewrite String.eqb_refl. cbn [negb]. rewrite app_nil_r.
    apply filter_all. apply Forall_forall. intros r Hr.
    apply negb_true_iff, String.eqb_neq. exact (Hfresh r Hr). }
  eexists. eexists. exists st2, w3. split; [reflexivity|].
  split; [exact E3|].
  rewrite (Hst2 db) by congruence.
  cbn [Remote.st_sessions Remote.st_error Remote.setSessions Remote.setForm
       Remote.setError].
  repeat split; congruence.
Qed.

(** The day's draft is saved to the sample backend and deleted again. *)
Lemma remote_undo_on_sample :
  (PgStore.healthy Sample.db = true /\
   PgStore.auth Sample.db = Some {| user := "u1" |} /\
   Js.truthy (sessionType (Remote.st_form Scenario.remote_state)) = true /\
   Js.truthy (energyAfter (Remote.st_form Scenario.remote_state)) = true /\
   Form.not_a_number (actualMinutes (Remote.st_form Scenario.remote_state))
   = false /\
   forall r, In r (PgStore.sessions Sample.db) ->
     id r <> PgStore.gen_id (PgStore.serial Sample.db)) /\
  exists st1 w1 st2 w2,
    Remote.handleSave Scenario.remote_state
      (PgStore.world Sample.db Sample.day) = (Js.Normal st1, w1) /\
    Remote.handleDelete (PgStore.gen_id (PgStore.serial Sample.db)) st1 w1
    = (Js.Normal st2, w2) /\
    map e_id (Remote.st_sessions st2) = ["b"; "c"; "a"] /\
    PgStore.sessions (Remote.backend w2) = PgStore.sessions Sample.db.
Proof.
  assert (Hfresh : forall r, In r (PgStore.sessions Sample.db) ->
            id r <> PgStore.gen_id (PgStore.serial Sample.db)).
  { cbn. intros r [<-|[<-|[<-|[]]]]; cbn; discriminate. }
  split; [repeat split; try reflexivity; exact Hfresh|].
  destruct (remote_delete_undoes_save Sample.db Sample.day
              Scenario.remote_state {| user := "u1" |}
              eq_refl eq_refl eq_refl eq_refl eq_refl Hfresh)
    as (st1 & w1 & st2 & w2 & E1 & E2 & Hl & Hs & _).
  exists st1, w1, st2, w2. split; [exact E1|]. split; [exact E2|].
  split; [rewrite Hl; reflexivity|exact Hs].
Defined.

(** X25. Deleting the entry just saved undoes the save, in the local
    variant and for any JSON codec: with a storage that takes the
    writes and a list of entries none of which has the id about to be
    drawn, saving a draft that passes the checks and then deleting the
    entry with the new id shows the list from before the save and
    leaves its text in the storage. *)
Theorem local_delete_undoes_save :
  forall (json : JSON.Codec) (w : Local.World) (E : list SessionEntry)
         (st : Local.AppState),
    Local.st_sessions st = map Local.entry_value E ->
    Js.truthy (sessionType (Local.st_form st)) = true ->
    Js.truthy (energyAfter (Local.st_form st)) = true ->
    Form.not_a_number (actualMinutes (Local.st_form st)) = false ->
    LocalApp.roomy w ->
    (forall e, In e E -> e_id e <> Local.fresh w (Local.drawn w)) ->
    exists st1 w1 st2 w2,
      Local.click_save st w = (Js.Normal st1, w1) /\
      LocalApp.click_delete (Local.fresh w (Local.drawn w)) st1 w1
      = (Js.Normal st2, w2) /\
      Local.st_sessions st2 = Local.st_sessions st /\
      LocalApp.in_sync st w2 /\
      Local.st_error st2 = None.
Proof.
  intros json w E st Hst Ht He Hm Hacc Hfresh.
  destruct (click_save_run w st Ht He Hm)
    as (st1 & w1 & E1 & Hs1 & _ & Herr & _ & _ & Hacc1 & _).
  assert (Hroomy1 : LocalApp.roomy w1)
    by (unfold LocalApp.roomy in *; rewrite Hacc1; exact Hacc).
  assert (Hf : LocalApp.filter_out (Local.fresh w (Local.drawn w))
                 (Local.st_sessions st1)
               = Js.Normal (Local.st_sessions st)).
  { rewrite Hs1, Hst.
    change (Local.entry_value ?e :: map Local.entry_value E)
      with (map Local.entry_value (e :: E)).
    rewrite filter_out_entries. cbn [filter Form.with_id e_id].
    rewrite String.eqb_refl. cbn [negb]. f_equal. f_equal.
    apply filter_all. apply Forall_forall. intros e Hin.
    apply negb_true_iff, String.eqb_neq. exact (Hfresh e Hin). }
  destruct (click_delete_run w1 st1 _ _ Hf Hroomy1) as (w2 & E2 & Hp & _).
  exists st1, w1. eexists. exists w2. split; [exact E1|]. split; [exact E2|].
  cbn [Local.st_sessions Local.st_error Local.setSessions].
  split; [reflexivity|]. split; [exact Hp|exact Herr].
Qed.

(** The day's draft is saved on top of the scenario entry and deleted
    again. *)
Lemma local_undo_on_sample :
  (Local.st_sessions (Scenario.local_state [Sample.entry])
   = map Local.entry_value [Sample.entry] /\
   Js.truthy (sessionType (Local.st_form (Scenario.local_state [Sample.entry])))
   = true /\
   Js.truthy (energyAfter (Local.st_form (Scenario.local_state [Sample.entry])))
   = true /\
   Form.not_a_number
     (actualMinutes (Local.st_form (Scenario.local_state [Sample.entry])))
   = false /\
   LocalApp.roomy (Sample.browser []) /\
   forall e, In e [Sample.entry] ->
     e_id e <> Local.fresh (Sample.browser []) (Local.drawn (Sample.browser [])))
  /\
  exists st1 w1 st2 w2,
    Local.click_save (json := JSON.codec)
      (Scenario.local_state [Sample.entry]) (Sample.browser [])
    = (Js.Normal st1, w1) /\
    LocalApp.click_delete (json := JSON.codec) "id-0" st1 w1
    = (Js.Normal st2, w2) /\
    Local.st_sessions st2 = [Local.entry_value Sample.entry].
Proof.
  assert (Hroomy : LocalApp.roomy (Sample.browser []))
    by (intros text; reflexivity).
  assert (Hfresh : forall e, In e [Sample.entry] ->
            e_id e <> Local.fresh (Sample.browser [])
                        (Local.drawn (Sample.browser []))).
  { intros e [<-|[]]. cbn. discriminate. }
  split; [repeat split; try reflexivity; assumption|].
  destruct (local_delete_undoes_save JSON.codec (Sample.browser [])
              [Sample.entry] (Scenario.local_state [Sample.entry])
              eq_refl eq_refl eq_refl eq_refl Hroomy Hfresh)
    as (st1 & w1 & st2 & w2 & E1 & E2 & Hs & _).
  exists st1, w1, st2, w2. split; [exact E1|]. split; [exact E2|exact Hs].
Defined.
